(** * lerobot_gui: safety filter and robot adapters

    A shallow embedding of

    - [lerobot_gui/services/safety_filter.py] (class [SafetyFilter]),
    - [lerobot_gui/adapters/robots/generic_adapter.py] (class [GenericRobotAdapter]),
    - [lerobot_gui/adapters/robots/piper_adapter.py] (class [PiperRobotAdapter]),
    - [lerobot/robots/piper_follower/piper_follower.py] (class [PiperFollower]:
      connecting, disconnecting, observing and sending),

    followed by the properties the specification states about them; and of
    the code around them,

    - [lerobot_gui/adapters/registry.py] (class [AdapterRegistry]),
    - [lerobot_gui/main_window.py] (registering the adapters, the emergency
      stop),
    - [lerobot_gui/pages/teleop_page.py] (safety settings, starting, stopping
      and polling),
    - [lerobot_gui/widgets/curve_widget.py] (adding and clearing data),
    - [lerobot_gui/adapters/cameras/base_adapter.py] (the frame rate),

    followed by further properties of the code.

    Conventions of the embedding.
    - A Python [float] is an exact rational ([Q]): comparisons, [abs], [min],
      [max], [+], [-] and [*] are the exact ones, so rounding, infinities and
      NaN are outside the model.  Where the code copies a value the model
      copies the same term, so "the same value" is Leibniz equality; where the
      code computes one, results are compared with [==].
      The size of a step of the filter depends on the rounding: module
      [SafetyFilter64] gives the loop body of [filter_action] with [+] and [-]
      rounded to the nearest double ([Binary64]), and the statements about
      the velocity limit are about it.
    - A [dict[str, float]] is a [gmap string Q].
    - [time.time()] is an explicit argument [now].
    - A call that may raise returns an [outcome]. *)

From Stdlib Require Import QArith Qabs Qround Qpower Lqa.
From stdpp Require Import gmap strings.

(** ** Python built-ins used by the code *)

Module Py.

Local Open Scope Q_scope.

(** [x < y] and [x > y] on floats. *)
Definition ltb (x y : Q) : bool := negb (Qle_bool y x).
Definition gtb (x y : Q) : bool := ltb y x.

(** [min(a, b)]: the first argument unless the second is strictly smaller. *)
Definition min (a b : Q) : Q := if ltb b a then b else a.

(** [max(a, b)]: the first argument unless the second is strictly larger. *)
Definition max (a b : Q) : Q := if gtb b a then b else a.

(** [abs(x)]. *)
Definition abs (x : Q) : Q := Qabs x.

(** [s.replace(old, new)] for a non-empty [old]: every non-overlapping
    occurrence of [old], scanning from the left, is replaced by [new].
    [skip] counts the characters of a matched occurrence that are still to
    be dropped. *)
Fixpoint replace_from (old new : string) (skip : nat) (s : string) : string :=
  match s with
  | EmptyString => EmptyString
  | String c s' =>
      match skip with
      | S n => replace_from old new n s'
      | O =>
          if String.prefix old s
          then String.append new (replace_from old new (Nat.pred (String.length old)) s')
          else String c (replace_from old new O s')
      end
  end.

Definition replace (s old new : string) : string := replace_from old new O s.

End Py.

(** ** [services/safety_filter.py] *)

Module SafetyFilter.

Local Open Scope Q_scope.

(** The attributes of a [SafetyFilter] instance. *)
Record t := mk {
  joint_limits : gmap string (Q * Q);
  max_velocity : Q;
  deadzone : Q;
  timeout_ms : Q;
  _last_action : gmap string Q;
  _last_input_time : Q;
  _enabled : bool;
  _e_stopped : bool
}.

Definition with_e_stopped (f : t) (b : bool) : t :=
  mk (joint_limits f) (max_velocity f) (deadzone f) (timeout_ms f)
     (_last_action f) (_last_input_time f) (_enabled f) b.

(** [__init__(joint_limits, max_velocity, deadzone, timeout_ms)];
    [joint_limits or {}] turns [None] into the empty dict. *)
Definition __init__ (limits : option (gmap string (Q * Q)))
    (max_velocity deadzone timeout_ms now : Q) : t :=
  mk (default ∅ limits) max_velocity deadzone timeout_ms ∅ now true false.

Definition is_e_stopped (f : t) : bool := _e_stopped f.

(** [set_e_stop(active)]; the log line has no effect on the filter. *)
Definition set_e_stop (f : t) (active : bool) : t := with_e_stopped f active.

(** [joint_name = key.replace(".pos", "")]. *)
Definition joint_name (key : string) : string := Py.replace key ".pos" "".

(** Step 1 of the loop body: clamp to the joint limits. *)
Definition clamp (f : t) (key : string) (value : Q) : Q :=
  match joint_limits f !! joint_name key with
  | Some (lo, hi) => Py.max lo (Py.min hi value)
  | None => value
  end.

(** Step 2: velocity limit against the value recorded for [key]. *)
Definition velocity_limit (f : t) (key : string) (value : Q) : Q :=
  match _last_action f !! key with
  | Some last =>
      let delta := value - last in
      if Py.gtb (Py.abs delta) (max_velocity f)
      then last + max_velocity f * (if Py.gtb delta 0 then 1 else -1)
      else value
  | None => value
  end.

(** Step 3: dead zone. *)
Definition dead_zone (f : t) (key : string) (value : Q) : Q :=
  match _last_action f !! key with
  | Some last => if Py.ltb (Py.abs (value - last)) (deadzone f) then last else value
  | None => value
  end.

(** The body of [for key, value in action.items()]: the value stored in
    [filtered[key]]. *)
Definition filter_value (f : t) (key : string) (value : Q) : Q :=
  dead_zone f key (velocity_limit f key (clamp f key value)).

(** [filter_action(action)]: the returned value ([None] when blocked) and the
    filter afterwards.  The loop reads the old [_last_action] throughout and
    the new dict replaces it after the loop.  In the code the dict returned
    and the dict recorded are one object; the model gives the value it has
    when the call returns. *)
Definition filter_action (f : t) (now : Q) (action : gmap string Q)
    : option (gmap string Q) * t :=
  if _e_stopped f then (None, f)
  else if negb (_enabled f) then (Some action, f)
  else
    let filtered := map_imap (fun key value => Some (filter_value f key value)) action in
    (Some filtered,
     mk (joint_limits f) (max_velocity f) (deadzone f) (timeout_ms f)
        filtered now (_enabled f) (_e_stopped f)).

(** [check_timeout()]. *)
Definition check_timeout (f : t) (now : Q) : bool :=
  Py.gtb ((now - _last_input_time f) * 1000) (timeout_ms f).

(** [reset()]. *)
Definition reset (f : t) (now : Q) : t :=
  mk (joint_limits f) (max_velocity f) (deadzone f) (timeout_ms f)
     ∅ now (_enabled f) false.

(** A client's calls on one filter, and what each returns. *)
Inductive call :=
| FilterAction (now : Q) (action : gmap string Q)
| SetEStop (active : bool)
| CheckTimeout (now : Q)
| Reset (now : Q).

Inductive reply :=
| Filtered (r : option (gmap string Q))
| TimedOut (b : bool)
| Done.

Definition step (f : t) (c : call) : reply * t :=
  match c with
  | FilterAction now action =>
      let '(r, f') := filter_action f now action in (Filtered r, f')
  | SetEStop active => (Done, set_e_stop f active)
  | CheckTimeout now => (TimedOut (check_timeout f now), f)
  | Reset now => (Done, reset f now)
  end.

(** The filter after a sequence of calls, and the replies in order. *)
Fixpoint run (f : t) (cs : list call) : list reply * t :=
  match cs with
  | [] => ([], f)
  | c :: cs' =>
      let '(r, f') := step f c in
      let '(rs, f'') := run f' cs' in
      (r :: rs, f'')
  end.

(** The values emitted for channel [key], in order, in a list of replies. *)
Fixpoint emitted (key : string) (rs : list reply) : list Q :=
  match rs with
  | [] => []
  | Filtered (Some out) :: rs' =>
      match out !! key with
      | Some v => v :: emitted key rs'
      | None => emitted key rs'
      end
  | _ :: rs' => emitted key rs'
  end.

End SafetyFilter.

(** ** Exceptions, logging and the objects behind the adapters *)

Module Runtime.

(** A raised exception: an instance of (a subclass of) [Exception], which
    [except Exception] catches, or of another [BaseException] such as
    [KeyboardInterrupt], which it does not. *)
Inductive exn :=
| Exception (class_name message : string)
| BaseException (class_name : string).

Inductive outcome (A : Type) :=
| Returns (a : A)
| Raises (e : exn).
Arguments Returns {A} a.
Arguments Raises {A} e.

Inductive level := INFO | WARNING | ERROR.

(** One line written through [logger]. *)
Definition log_record : Type := level * string.

(** A value of an observation dict: a number or anything else (an image). *)
Inductive pyval :=
| PyFloat (x : Q)
| PyInt (n : Z)
| PyOther.

(** [isinstance(v, (int, float))] together with [float(v)]. *)
Definition as_float (v : pyval) : option Q :=
  match v with
  | PyFloat x => Some x
  | PyInt n => Some (inject_Z n)
  | PyOther => None
  end.

(** What [GenericRobotAdapter] uses of a lerobot [Robot], whose classes are
    outside this repository: [H] is the state of the robot object and every
    method gives its outcome and the object afterwards. *)
Class Robot (H : Type) := {
  robot_is_connected : H -> bool;
  robot_connect : H -> outcome unit * H;
  robot_disconnect : H -> outcome unit * H;
  robot_get_observation : H -> outcome (gmap string pyval) * H;
  robot_send_action : H -> gmap string Q -> outcome (gmap string Q) * H
}.

(** What the Piper code uses of [PiperMotorsBus]
    ([lerobot.motors.piper.piper], outside this repository), including the
    two commands reached through [bus.piper].  [bus_truthy] is the truth
    value of the bus object in [if ... and self._robot.bus]; the argument of
    [bus_connect] is [enable]. *)
Class PiperMotorsBus (B : Type) := {
  bus_truthy : B -> bool;
  bus_is_connected : B -> bool;
  bus_connect : B -> bool -> outcome unit * B;
  bus_safe_disconnect : B -> outcome unit * B;
  bus_apply_calibration : B -> outcome unit * B;
  bus_read : B -> outcome (gmap string Q) * B;
  bus_write : B -> list Q -> outcome unit * B;
  piper_DisableArm : B -> Z -> outcome unit * B;
  piper_GripperCtrl : B -> Z -> Z -> Z -> Z -> outcome unit * B
}.

(** What [PiperFollower] uses of a lerobot camera (outside this
    repository). *)
Class Camera (C : Type) := {
  cam_is_connected : C -> bool;
  cam_connect : C -> outcome unit * C;
  cam_disconnect : C -> outcome unit * C;
  cam_async_read : C -> outcome pyval * C
}.

End Runtime.

(** ** [lerobot/robots/piper_follower/piper_follower.py] *)

Module PiperFollower.
Import Runtime.

(** The attributes the methods below touch.  [cameras] is the dict of camera
    objects in insertion order. *)
Record t (B C : Type) := mk {
  bus : B;
  _is_connected : bool;
  _is_calibrated : bool;
  cameras : list (string * C)
}.
Arguments mk {B C} _ _ _ _.
Arguments bus {B C} _.
Arguments _is_connected {B C} _.
Arguments _is_calibrated {B C} _.
Arguments cameras {B C} _.

(** [__init__(config)], given the bus object [PiperMotorsBus(config.motors)]
    and the cameras [make_cameras_from_configs(config.cameras)] that it
    builds. *)
Definition __init__ {B C : Type} (b : B) (cams : list (string * C)) : t B C :=
  mk b false false cams.

Definition with_bus {B C : Type} (r : t B C) (b : B) : t B C :=
  mk b (_is_connected r) (_is_calibrated r) (cameras r).

Definition with_cameras {B C : Type} (r : t B C) (cams : list (string * C)) : t B C :=
  mk (bus r) (_is_connected r) (_is_calibrated r) cams.

Definition motor_order : list string :=
  ["joint_1"; "joint_2"; "joint_3"; "joint_4"; "joint_5"; "joint_6"; "gripper"].

(** [[action[f"{motor}.pos"] for motor in motor_order]]: the list, or the
    first key that is missing ([KeyError]). *)
Fixpoint target_joints (action : gmap string Q) (motors : list string)
    : string + list Q :=
  match motors with
  | [] => inr []
  | motor :: rest =>
      let key := String.append motor ".pos" in
      match action !! key with
      | None => inl key
      | Some v =>
          match target_joints action rest with
          | inl k => inl k
          | inr vs => inr (v :: vs)
          end
      end
  end.

Section WithBus.
Context {B C : Type} `{!PiperMotorsBus B} `{!Camera C}.

(** The [is_connected] property. *)
Definition is_connected (r : t B C) : bool :=
  bus_is_connected (bus r)
  && forallb (fun entry => cam_is_connected entry.2) (cameras r).

(** The loop of [connect] over the cameras: each is connected in turn and
    [_is_connected] is and-ed with its [is_connected]; the first exception
    ends the loop. *)
Fixpoint connect_cameras (cams : list (string * C)) (flag : bool)
    : outcome unit * list (string * C) * bool :=
  match cams with
  | [] => (Returns tt, [], flag)
  | (name, cam) :: rest =>
      match cam_connect cam with
      | (Raises e, cam') => (Raises e, (name, cam') :: rest, flag)
      | (Returns _, cam') =>
          let '(o, rest', flag') :=
            connect_cameras rest (flag && cam_is_connected cam') in
          (o, (name, cam') :: rest', flag')
      end
  end.

(** [calibrate()]. *)
Definition calibrate (r : t B C) : outcome unit * t B C :=
  if negb (_is_connected r)
  then (Raises (Exception "ConnectionError" ""), r)
  else
    match bus_apply_calibration (bus r) with
    | (Returns _, b) => (Returns tt, mk b (_is_connected r) true (cameras r))
    | (Raises e, b) => (Raises e, with_bus r b)
    end.

(** [connect()]. *)
Definition connect (r : t B C) : outcome unit * t B C :=
  if _is_connected r
  then (Raises (Exception "DeviceAlreadyConnectedError"
                  "Piper is already connected. Do not run robot.connect() twice."),
        r)
  else
    match bus_connect (bus r) true with
    | (Raises e, b) => (Raises e, with_bus r b)
    | (Returns _, b) =>
        match connect_cameras (cameras r) (_is_connected r) with
        | (Raises e, cams, flag) => (Raises e, mk b flag (_is_calibrated r) cams)
        | (Returns _, cams, _) => calibrate (mk b true (_is_calibrated r) cams)
        end
    end.

(** The loop of [disconnect] over the cameras. *)
Fixpoint disconnect_cameras (cams : list (string * C))
    : outcome unit * list (string * C) :=
  match cams with
  | [] => (Returns tt, [])
  | (name, cam) :: rest =>
      match cam_disconnect cam with
      | (Raises e, cam') => (Raises e, (name, cam') :: rest)
      | (Returns _, cam') =>
          let '(o, rest') := disconnect_cameras rest in
          (o, (name, cam') :: rest')
      end
  end.

(** [disconnect()]; the five seconds of sleep are not modelled. *)
Definition disconnect (r : t B C) : outcome unit * t B C :=
  match bus_safe_disconnect (bus r) with
  | (Raises e, b) => (Raises e, with_bus r b)
  | (Returns _, b) =>
      match bus_connect b false with
      | (Raises e, b') => (Raises e, with_bus r b')
      | (Returns _, b') =>
          match disconnect_cameras (cameras r) with
          | (Raises e, cams) => (Raises e, mk b' (_is_connected r) (_is_calibrated r) cams)
          | (Returns _, cams) => (Returns tt, mk b' false (_is_calibrated r) cams)
          end
      end
  end.

(** The loop of [get_observation] over the cameras, filling [obs]. *)
Fixpoint read_cameras (cams : list (string * C)) (obs : gmap string pyval)
    : outcome (gmap string pyval) * list (string * C) :=
  match cams with
  | [] => (Returns obs, [])
  | (name, cam) :: rest =>
      match cam_async_read cam with
      | (Raises e, cam') => (Raises e, (name, cam') :: rest)
      | (Returns image, cam') =>
          let '(o, rest') := read_cameras rest (<[name := image]> obs) in
          (o, (name, cam') :: rest')
      end
  end.

(** [get_observation()]. *)
Definition get_observation (r : t B C) : outcome (gmap string pyval) * t B C :=
  if negb (_is_connected r)
  then (Raises (Exception "DeviceNotConnectedError"
                  "Piper is not connected. Run `robot.connect()` first."),
        r)
  else
    match bus_read (bus r) with
    | (Raises e, b) => (Raises e, with_bus r b)
    | (Returns state, b) =>
        let obs_dict := kmap (fun joint => String.append joint ".pos") (PyFloat <$> state) in
        let '(o, cams) := read_cameras (cameras r) obs_dict in
        (o, with_cameras (with_bus r b) cams)
    end.

(** [send_action(action)]. *)
Definition send_action (r : t B C) (action : gmap string Q)
    : outcome (gmap string Q) * t B C :=
  if negb (_is_connected r)
  then (Raises (Exception "DeviceNotConnectedError" "Piper is not connected."), r)
  else
    match target_joints action motor_order with
    | inl key => (Raises (Exception "KeyError" key), r)
    | inr joints =>
        match bus_write (bus r) joints with
        | (Returns _, b) => (Returns action, with_bus r b)
        | (Raises e, b) => (Raises e, with_bus r b)
        end
    end.

(** [PiperFollower] is a lerobot [Robot]. *)
#[global] Instance robot : Robot (t B C) := {
  robot_is_connected := is_connected;
  robot_connect := connect;
  robot_disconnect := disconnect;
  robot_get_observation := get_observation;
  robot_send_action := send_action
}.

End WithBus.

End PiperFollower.

(** ** [adapters/robots/generic_adapter.py] *)

Module GenericRobotAdapter.
Import Runtime.

Record t (H : Type) := mk {
  _robot : option H;
  _robot_type : string
}.
Arguments mk {H} _ _.
Arguments _robot {H} _.
Arguments _robot_type {H} _.

Section WithRobot.
Context {H : Type} `{!Robot H}.

(** [__init__()]. *)
Definition __init__ : t H := mk None "".

(** [connect(params)].  [robot_type] is [params.pop("_robot_type", "")];
    [made] is the outcome of [_build_config] followed by
    [make_robot_from_config], whose configuration classes and factory are
    outside this repository.  The new object is stored before its
    [connect()] is called. *)
Definition connect (a : t H) (robot_type : string) (made : outcome H)
    : outcome unit * t H * list log_record :=
  match made with
  | Raises e => (Raises e, mk (_robot a) robot_type, [])
  | Returns r0 =>
      match robot_connect r0 with
      | (Returns _, r1) =>
          (Returns tt, mk (Some r1) robot_type,
           [(INFO, String.append "GenericAdapter: connected " robot_type)])
      | (Raises e, r1) => (Raises e, mk (Some r1) robot_type, [])
      end
  end.

(** The [is_connected] property. *)
Definition is_connected (a : t H) : bool :=
  match _robot a with
  | Some r => robot_is_connected r
  | None => false
  end.

(** [get_state()]. *)
Definition get_state (a : t H) : outcome (gmap string Q) * t H :=
  match _robot a with
  | None => (Returns ∅, a)
  | Some r =>
      match robot_get_observation r with
      | (Returns obs, r') => (Returns (omap as_float obs), mk (Some r') (_robot_type a))
      | (Raises e, r') => (Raises e, mk (Some r') (_robot_type a))
      end
  end.

(** [send_action(action)]. *)
Definition send_action (a : t H) (action : gmap string Q)
    : outcome (gmap string Q) * t H :=
  match _robot a with
  | None => (Returns action, a)
  | Some r =>
      let '(o, r') := robot_send_action r action in
      (o, mk (Some r') (_robot_type a))
  end.

(** [emergency_stop()]: outcome, adapter afterwards, lines logged.
    [finally] clears [_robot] on every path through the [try]. *)
Definition emergency_stop (a : t H) : outcome unit * t H * list log_record :=
  match _robot a with
  | None => (Returns tt, a, [])
  | Some r =>
      match robot_disconnect r with
      | (Returns _, _) => (Returns tt, mk None (_robot_type a), [])
      | (Raises (Exception _ msg), _) =>
          (Returns tt, mk None (_robot_type a),
           [(ERROR, String.append "Emergency stop error: " msg)])
      | (Raises (BaseException c), _) =>
          (Raises (BaseException c), mk None (_robot_type a), [])
      end
  end.

End WithRobot.

End GenericRobotAdapter.

(** ** [adapters/robots/piper_adapter.py] *)

Module PiperRobotAdapter.
Import Runtime.

Record t (B C : Type) := mk {
  _robot : option (PiperFollower.t B C)
}.
Arguments mk {B C} _.
Arguments _robot {B C} _.

Section WithBus.
Context {B C : Type} `{!PiperMotorsBus B} `{!Camera C}.

(** [__init__()]. *)
Definition __init__ : t B C := mk None.

(** [connect(params)].  [can_name] is [params.get("can_name", "can_slave1")];
    [made] is the outcome of building the configuration, the bus object and
    the cameras, all by code outside this repository.  [PiperFollower(config)]
    is stored in [_robot] before its [connect()] is called. *)
Definition connect (a : t B C) (can_name : string)
    (made : outcome (B * list (string * C)))
    : outcome unit * t B C * list log_record :=
  match made with
  | Raises e => (Raises e, a, [])
  | Returns (b, cams) =>
      match PiperFollower.connect (PiperFollower.__init__ b cams) with
      | (Returns _, r) =>
          (Returns tt, mk (Some r),
           [(INFO, String.append "PiperAdapter: connected (CAN="
                     (String.append can_name ")"))])
      | (Raises e, r) => (Raises e, mk (Some r), [])
      end
  end.

(** The [is_connected] property. *)
Definition is_connected (a : t B C) : bool :=
  match _robot a with
  | Some r => PiperFollower.is_connected r
  | None => false
  end.

(** [get_state()].  [not self._robot] tests for [None]: [PiperFollower]
    defines neither [__bool__] nor [__len__]. *)
Definition get_state (a : t B C) : outcome (gmap string Q) * t B C :=
  match _robot a with
  | None => (Returns ∅, a)
  | Some r =>
      match bus_read (PiperFollower.bus r) with
      | (Returns state, b) =>
          (Returns (kmap (fun k => String.append k ".pos") state),
           mk (Some (PiperFollower.with_bus r b)))
      | (Raises e, b) => (Raises e, mk (Some (PiperFollower.with_bus r b)))
      end
  end.

(** [send_action(action)]. *)
Definition send_action (a : t B C) (action : gmap string Q)
    : outcome (gmap string Q) * t B C :=
  match _robot a with
  | None => (Returns action, a)
  | Some r =>
      let '(o, r') := PiperFollower.send_action r action in
      (o, mk (Some r'))
  end.

(** [emergency_stop()]: outcome, adapter afterwards, lines logged.  The
    assignment [self._robot = None] follows the [try] inside the [if]. *)
Definition emergency_stop (a : t B C) : outcome unit * t B C * list log_record :=
  match _robot a with
  | None => (Returns tt, a, [])
  | Some r =>
      if bus_truthy (PiperFollower.bus r) then
        let failed msg :=
          (Returns tt, mk None, [(ERROR, String.append "E-STOP error: " msg)]) in
        match piper_DisableArm (PiperFollower.bus r) 7 with
        | (Returns _, b1) =>
            match piper_GripperCtrl b1 0 1000 2 0 with
            | (Returns _, _) =>
                (Returns tt, mk None, [(WARNING, "PIPER E-STOP: arm disabled")])
            | (Raises (Exception _ msg), _) => failed msg
            | (Raises (BaseException c), b2) =>
                (Raises (BaseException c), mk (Some (PiperFollower.with_bus r b2)), [])
            end
        | (Raises (Exception _ msg), _) => failed msg
        | (Raises (BaseException c), b1) =>
            (Raises (BaseException c), mk (Some (PiperFollower.with_bus r b1)), [])
        end
      else (Returns tt, a, [])
  end.

End WithBus.

End PiperRobotAdapter.

(** ** Objects with fixed answers, for concrete runs of the adapters *)

Module Scripted.
Import Runtime.

(** A bus object that answers every call the same way. *)
Record bus := mk_bus {
  truthy : bool;
  connected : bool;
  connect : outcome unit;
  safe_disconnect : outcome unit;
  apply_calibration : outcome unit;
  read : outcome (gmap string Q);
  write : outcome unit;
  disable_arm : outcome unit;
  gripper_ctrl : outcome unit
}.

#[global] Instance bus_ops : PiperMotorsBus bus := {
  bus_truthy b := truthy b;
  bus_is_connected b := connected b;
  bus_connect b _ := (connect b, b);
  bus_safe_disconnect b := (safe_disconnect b, b);
  bus_apply_calibration b := (apply_calibration b, b);
  bus_read b := (read b, b);
  bus_write b _ := (write b, b);
  piper_DisableArm b _ := (disable_arm b, b);
  piper_GripperCtrl b _ _ _ _ := (gripper_ctrl b, b)
}.

(** A camera object that answers every call the same way. *)
Record camera := mk_camera {
  camera_connected : bool;
  camera_connect : outcome unit;
  camera_disconnect : outcome unit;
  camera_read : outcome pyval
}.

#[global] Instance camera_ops : Camera camera := {
  cam_is_connected c := camera_connected c;
  cam_connect c := (camera_connect c, c);
  cam_disconnect c := (camera_disconnect c, c);
  cam_async_read c := (camera_read c, c)
}.

(** A robot object that answers every call the same way. *)
Record robot := mk_robot {
  robot_connected : bool;
  robot_connects : outcome unit;
  disconnect : outcome unit;
  get_observation : outcome (gmap string pyval);
  send_action : outcome (gmap string Q)
}.

#[global] Instance robot_ops : Robot robot := {
  robot_is_connected r := robot_connected r;
  robot_connect r := (robot_connects r, r);
  robot_disconnect r := (disconnect r, r);
  robot_get_observation r := (get_observation r, r);
  robot_send_action r _ := (send_action r, r)
}.

(** A connected robot whose [disconnect()] fails. *)
Definition stuck_robot : robot :=
  mk_robot true (Returns tt) (Raises (Exception "OSError" "port is busy"))
           (Returns ∅) (Returns ∅).

Definition bus_down : exn := Exception "OSError" "CAN bus is down".

(** A bus that is not connected and on which every call fails. *)
Definition dead_bus : bus :=
  mk_bus true false (Raises bus_down) (Raises bus_down) (Raises bus_down)
         (Raises bus_down) (Raises bus_down) (Raises bus_down) (Raises bus_down).

(** A connected bus that takes readings and targets but refuses the
    commands of the emergency stop. *)
Definition refusing_bus : bus :=
  mk_bus true true (Returns tt) (Returns tt) (Returns tt)
         (Returns ∅) (Returns tt) (Raises bus_down) (Returns tt).

(** The [PiperFollower] that a [connect()] on a dead bus leaves behind:
    constructed, never connected. *)
Definition stranded_follower : PiperFollower.t bus camera :=
  PiperFollower.mk dead_bus false false [].

(** The Piper adapter holding that object. *)
Definition stranded_piper : PiperRobotAdapter.t bus camera :=
  PiperRobotAdapter.mk (Some stranded_follower).

(** The generic adapter holding that object. *)
Definition stranded_generic : GenericRobotAdapter.t (PiperFollower.t bus camera) :=
  GenericRobotAdapter.mk (Some stranded_follower) "piper_follower".

(** A connected Piper adapter whose bus refuses the stop commands. *)
Definition failing_piper : PiperRobotAdapter.t bus camera :=
  PiperRobotAdapter.mk (Some (PiperFollower.mk refusing_bus true true [])).

End Scripted.

(** ** Vocabulary of the statements about the filter *)

Module FilterTerms.
Import SafetyFilter.
Local Open Scope Q_scope.

(** Every recorded value is one the clamp of its channel leaves alone. *)
Definition settled (f : t) : Prop :=
  forall key v, _last_action f !! key = Some v -> clamp f key v == v.

(** What every reachable filter satisfies. *)
Definition inv (f : t) : Prop :=
  0 <= max_velocity f /\ _enabled f = true /\ settled f.

(** The calls that leave a set emergency-stop flag alone: all but
    [set_e_stop(False)] and [reset()]. *)
Definition keeps_e_stop (c : call) : bool :=
  match c with
  | SetEStop false | Reset _ => false
  | _ => true
  end.

(** The sign factor of the velocity step, [1 if delta > 0 else -1]. *)
Definition direction (delta : Q) : Q := if Py.gtb delta 0 then 1 else -1.

End FilterTerms.

(** ** [pages/teleop_page.py]: how the teleoperation page drives the filter *)

Module TeleopPage.
Import SafetyFilter.

(** [_update_safety()]: the values of the three spin boxes are assigned to
    the attributes of the filter. *)
Definition _update_safety (f : t) (max_vel deadzone timeout : Q) : t :=
  mk (joint_limits f) max_vel deadzone timeout
     (_last_action f) (_last_input_time f) (_enabled f) (_e_stopped f).

(** What reaches the filter during a session: a call of one of its methods,
    or a change of a spin box. *)
Inductive event :=
| Call (c : call)
| UpdateSafety (max_vel deadzone timeout : Q).

Definition handle (f : t) (e : event) : list reply * t :=
  match e with
  | Call c => let '(r, f') := step f c in ([r], f')
  | UpdateSafety max_vel deadzone timeout =>
      ([], _update_safety f max_vel deadzone timeout)
  end.

(** The filter after a sequence of events, and the replies in order. *)
Fixpoint session (f : t) (es : list event) : list reply * t :=
  match es with
  | [] => ([], f)
  | e :: es' =>
      let '(rs, f') := handle f e in
      let '(rs', f'') := session f' es' in
      (rs ++ rs', f'')
  end.

(** The velocity limits an event sets are not negative. *)
Definition sane (e : event) : bool :=
  match e with
  | Call _ => true
  | UpdateSafety max_vel _ _ => Qle_bool 0 max_vel
  end.

End TeleopPage.

(** ** More vocabulary for statements about the filter *)

Module FilterCalls.
Import SafetyFilter.

(** Calls that neither return an action nor restart the watchdog. *)
Definition quiet (c : call) : bool :=
  match c with
  | SetEStop _ | CheckTimeout _ => true
  | _ => false
  end.

(** Attempts to filter, and watchdog checks. *)
Definition attempt (c : call) : bool :=
  match c with
  | FilterAction _ _ | CheckTimeout _ => true
  | _ => false
  end.

(** The same action sent at each of the given times. *)
Definition resend (action : gmap string Q) (times : list Q) : list call :=
  (fun now => FilterAction now action) <$> times.

End FilterCalls.

(** ** The rest of [adapters/robots/generic_adapter.py] and
    [adapters/robots/piper_adapter.py] *)

Module PyObject.

(** [bool(x)] for an object of a class outside this repository. *)
Class Truthy (A : Type) := truthy : A -> bool.

(** [if d:] for a dict. *)
Definition nonempty {K : Type} `{Countable K} {A : Type} (d : gmap K A) : bool :=
  negb (Nat.eqb (size d) 0).

(** The value of a call that is dropped by the caller. *)
Definition ignore {A : Type} (o : Runtime.outcome A) : Runtime.outcome unit :=
  match o with
  | Runtime.Returns _ => Runtime.Returns tt
  | Runtime.Raises e => Runtime.Raises e
  end.

End PyObject.

Module GenericRobotAdapterRest.
Import Runtime PyObject GenericRobotAdapter.

Section WithRobot.
Context {H : Type} `{!Robot H} `{!Truthy H}.

(** [disconnect()]: outcome, adapter afterwards, lines logged. *)
Definition disconnect (a : t H) : outcome unit * t H * list log_record :=
  match _robot a with
  | None => (Returns tt, a, [])
  | Some r =>
      if truthy r then
        match robot_disconnect r with
        | (Returns _, _) => (Returns tt, mk None (_robot_type a), [])
        | (Raises (Exception _ msg), _) =>
            (Returns tt, mk None (_robot_type a),
             [(ERROR, String.append "Disconnect error: " msg)])
        | (Raises (BaseException c), _) =>
            (Raises (BaseException c), mk None (_robot_type a), [])
        end
      else (Returns tt, a, [])
  end.

(** [stop()]. *)
Definition stop (a : t H) : outcome unit * t H :=
  if is_connected a then
    match get_state a with
    | (Raises e, a1) => (Raises e, a1)
    | (Returns state, a1) =>
        if nonempty state
        then let '(o, a2) := send_action a1 state in (ignore o, a2)
        else (Returns tt, a1)
    end
  else (Returns tt, a).

End WithRobot.

End GenericRobotAdapterRest.

Module PiperRobotAdapterRest.
Import Runtime PyObject PiperRobotAdapter.

Definition PIPER_JOINT_LIMITS : gmap string (Q * Q) :=
  list_to_map
    [("joint_1", (- (1605 # 1000), 1605 # 1000));
     ("joint_2", (- (42 # 1000), 2093 # 1000));
     ("joint_3", (- (1919 # 1000), 52 # 1000));
     ("joint_4", (- (1570 # 1000), 1570 # 1000));
     ("joint_5", (- (1396 # 1000), 1396 # 1000));
     ("joint_6", (- (1570 # 1000), 1570 # 1000));
     ("gripper", (0, 8 # 100))]%Q.

Definition MOTOR_ORDER : list string :=
  ["joint_1"; "joint_2"; "joint_3"; "joint_4"; "joint_5"; "joint_6"; "gripper"].

(** [get_action_names()] and [get_state_names()]:
    [[f"{m}.pos" for m in MOTOR_ORDER]]. *)
Definition get_action_names : list string :=
  (fun m => String.append m ".pos") <$> MOTOR_ORDER.

Definition get_state_names : list string :=
  (fun m => String.append m ".pos") <$> MOTOR_ORDER.

Section WithBus.
Context {B C : Type} `{!PiperMotorsBus B} `{!Camera C}.

(** [disconnect()]: outcome, adapter afterwards, lines logged.  As in
    [get_state], [if self._robot] tests for [None]. *)
Definition disconnect (a : t B C) : outcome unit * t B C * list log_record :=
  match _robot a with
  | None => (Returns tt, a, [])
  | Some r =>
      match PiperFollower.disconnect r with
      | (Returns _, _) => (Returns tt, mk None, [])
      | (Raises (Exception _ msg), _) =>
          (Returns tt, mk None, [(ERROR, String.append "Piper disconnect error: " msg)])
      | (Raises (BaseException c), _) => (Raises (BaseException c), mk None, [])
      end
  end.

(** [stop()]. *)
Definition stop (a : t B C) : outcome unit * t B C :=
  if is_connected a then
    match get_state a with
    | (Raises e, a1) => (Raises e, a1)
    | (Returns state, a1) =>
        if nonempty state
        then let '(o, a2) := send_action a1 state in (ignore o, a2)
        else (Returns tt, a1)
    end
  else (Returns tt, a).

End WithBus.

End PiperRobotAdapterRest.

(** More objects with fixed answers. *)
Module ScriptedMore.
Import Runtime.

#[global] Instance robot_truthy : PyObject.Truthy Scripted.robot := fun _ => true.

(** A reading of all seven motors. *)
Definition home_reading : gmap string Q :=
  list_to_map
    [("joint_1", 0); ("joint_2", 1 # 10); ("joint_3", - (1 # 10)); ("joint_4", 0);
     ("joint_5", 2 # 10); ("joint_6", 0); ("gripper", 5 # 100)]%Q.

(** A connected bus that reads [home_reading] and accepts every call. *)
Definition home_bus : Scripted.bus :=
  Scripted.mk_bus true true (Returns tt) (Returns tt) (Returns tt)
                  (Returns home_reading) (Returns tt) (Returns tt) (Returns tt).

(** A bus that can be connected and accepts every call. *)
Definition idle_bus : Scripted.bus :=
  Scripted.mk_bus true false (Returns tt) (Returns tt) (Returns tt)
                  (Returns home_reading) (Returns tt) (Returns tt) (Returns tt).

(** A connected bus whose reading lacks the gripper. *)
Definition partial_bus : Scripted.bus :=
  Scripted.mk_bus true true (Returns tt) (Returns tt) (Returns tt)
                  (Returns (delete "gripper" home_reading))
                  (Returns tt) (Returns tt) (Returns tt).

End ScriptedMore.

(** ** Python dicts that are listed in order *)

Module PyDict.

(** A [dict] with string keys, as the list of its items in insertion order;
    every key occurs once. *)
Definition t (V : Type) : Type := list (string * V).

(** [d.get(key)]. *)
Fixpoint get {V : Type} (d : t V) (key : string) : option V :=
  match d with
  | [] => None
  | (k, v) :: d' => if String.eqb k key then Some v else get d' key
  end.

(** [d[key] = value]: an existing key keeps its place, a new one goes last. *)
Fixpoint set {V : Type} (d : t V) (key : string) (value : V) : t V :=
  match d with
  | [] => [(key, value)]
  | (k, v) :: d' =>
      if String.eqb k key then (k, value) :: d' else (k, v) :: set d' key value
  end.

(** [list(d.keys())] and [list(d.values())]. *)
Definition keys {V : Type} (d : t V) : list string := d.*1.
Definition values {V : Type} (d : t V) : list V := d.*2.

(** [key in d]. *)
Definition contains {V : Type} (d : t V) (key : string) : bool :=
  match get d key with Some _ => true | None => false end.

(** [d.pop(key, default)]: the dict without the key. *)
Definition remove {V : Type} (d : t V) (key : string) : t V :=
  List.filter (fun item => negb (String.eqb item.1 key)) d.

End PyDict.

(** ** [adapters/registry.py] *)

Module AdapterRegistry.

Section WithClasses.
(** [Cls] stands for the adapter classes that are registered. *)
Context {Cls : Type}.

Record t := mk {
  _robots : PyDict.t Cls;
  _cameras : PyDict.t Cls;
  _teleops : PyDict.t Cls
}.

(** [AdapterRegistry()], that is [__new__]: [_instance] is the class
    attribute; the result is the registry returned, which is also the value
    of the attribute afterwards. *)
Definition __new__ (_instance : option t) : t :=
  match _instance with
  | None => mk [] [] []
  | Some registry => registry
  end.

Definition register_robot (r : t) (type_name : string) (adapter_cls : Cls) : t :=
  mk (PyDict.set (_robots r) type_name adapter_cls) (_cameras r) (_teleops r).

Definition get_robot_adapter (r : t) (type_name : string) : option Cls :=
  PyDict.get (_robots r) type_name.

Definition list_robot_types (r : t) : list string := PyDict.keys (_robots r).

Definition register_camera (r : t) (type_name : string) (adapter_cls : Cls) : t :=
  mk (_robots r) (PyDict.set (_cameras r) type_name adapter_cls) (_teleops r).

Definition get_camera_adapter (r : t) (type_name : string) : option Cls :=
  PyDict.get (_cameras r) type_name.

Definition list_camera_types (r : t) : list string := PyDict.keys (_cameras r).

Definition register_teleop (r : t) (type_name : string) (adapter_cls : Cls) : t :=
  mk (_robots r) (_cameras r) (PyDict.set (_teleops r) type_name adapter_cls).

Definition get_teleop_adapter (r : t) (type_name : string) : option Cls :=
  PyDict.get (_teleops r) type_name.

Definition list_teleop_types (r : t) : list string := PyDict.keys (_teleops r).

(** One registration. *)
Inductive registration :=
| Robot (type_name : string) (adapter_cls : Cls)
| Camera (type_name : string) (adapter_cls : Cls)
| Teleop (type_name : string) (adapter_cls : Cls).

Definition register (r : t) (x : registration) : t :=
  match x with
  | Robot type_name adapter_cls => register_robot r type_name adapter_cls
  | Camera type_name adapter_cls => register_camera r type_name adapter_cls
  | Teleop type_name adapter_cls => register_teleop r type_name adapter_cls
  end.

(** The registry after a sequence of registrations. *)
Definition register_all (r : t) (xs : list registration) : t :=
  fold_left register xs r.

End WithClasses.

Arguments t Cls : clear implicits.
Arguments registration Cls : clear implicits.

End AdapterRegistry.

(** ** [main_window.py] and [pages/devices_page.py]: registering and choosing
    adapters, and the emergency stop *)

Module MainWindow.
Import Runtime.

(** The two adapter classes of the repository. *)
Inductive adapter_class := PiperRobotAdapterClass | GenericRobotAdapterClass.

(** The lines of [__init__] that fill the registry; [robot_types] is
    [self._schema_loader.list_types("robot")]. *)
Definition register_adapters (registry : AdapterRegistry.t adapter_class)
    (robot_types : list string) : AdapterRegistry.t adapter_class :=
  fold_left
    (fun r rtype =>
       if bool_decide (rtype ∈ AdapterRegistry.list_robot_types r)
       then r
       else AdapterRegistry.register_robot r rtype GenericRobotAdapterClass)
    robot_types
    (AdapterRegistry.register_robot registry "piper_follower" PiperRobotAdapterClass).

(** [DevicesPage._on_connect]:
    [self._registry.get_robot_adapter(dtype) or GenericRobotAdapter]. *)
Definition adapter_class_for (registry : AdapterRegistry.t adapter_class)
    (dtype : string) : adapter_class :=
  default GenericRobotAdapterClass (AdapterRegistry.get_robot_adapter registry dtype).

Section WithObjects.
Context {H B C : Type} `{!Robot H} `{!PiperMotorsBus B} `{!Camera C}.

(** An instance of one of the two adapter classes. *)
Inductive adapter :=
| Generic (g : GenericRobotAdapter.t H)
| Piper (p : PiperRobotAdapter.t B C).

Definition is_connected (a : adapter) : bool :=
  match a with
  | Generic g => GenericRobotAdapter.is_connected g
  | Piper p => PiperRobotAdapter.is_connected p
  end.

Definition emergency_stop (a : adapter) : outcome unit * adapter * list log_record :=
  match a with
  | Generic g =>
      let '(o, g', log) := GenericRobotAdapter.emergency_stop g in (o, Generic g', log)
  | Piper p =>
      let '(o, p', log) := PiperRobotAdapter.emergency_stop p in (o, Piper p', log)
  end.

Definition holds_robot (a : adapter) : bool :=
  match a with
  | Generic g => bool_decide (is_Some (GenericRobotAdapter._robot g))
  | Piper p => bool_decide (is_Some (PiperRobotAdapter._robot p))
  end.

(** What [_on_estop] touches: the filter of the window and the adapter that
    [self._devices.get_current_adapter()] returns. *)
Record t := mk {
  _safety_filter : SafetyFilter.t;
  _current_adapter : option adapter
}.

(** [_on_estop()]: outcome, window afterwards, lines logged. *)
Definition _on_estop (w : t) : outcome unit * t * list log_record :=
  let filter := SafetyFilter.set_e_stop (_safety_filter w) true in
  let log := [(WARNING, "E-STOP TRIGGERED"); (WARNING, "SafetyFilter: E-STOP activated")] in
  match _current_adapter w with
  | None => (Returns tt, mk filter None, log)
  | Some a =>
      if is_connected a then
        match emergency_stop a with
        | (Returns _, a', log') => (Returns tt, mk filter (Some a'), log ++ log')
        | (Raises (Exception _ msg), a', log') =>
            (Returns tt, mk filter (Some a'),
             log ++ log' ++ [(ERROR, String.append "E-STOP adapter error: " msg)])
        | (Raises (BaseException c), a', log') =>
            (Raises (BaseException c), mk filter (Some a'), log ++ log')
        end
      else (Returns tt, mk filter (Some a), log)
  end.

(** [_on_estop_release()]. *)
Definition _on_estop_release (w : t) : t * list log_record :=
  (mk (SafetyFilter.set_e_stop (_safety_filter w) false) (_current_adapter w),
   [(INFO, "E-STOP released"); (INFO, "SafetyFilter: E-STOP released")]).

End WithObjects.

Arguments adapter H B C : clear implicits.
Arguments t H B C : clear implicits.

End MainWindow.

(** ** [widgets/curve_widget.py] *)

Module CurveWidget.
Import Runtime.

(** The attributes that [add_data] and [clear_data] touch.  A
    [deque(maxlen=n)] is the list of its items, left to right. *)
Record t := mk {
  _data : PyDict.t (list Q);
  _max_points : Z;
  _series_order : list string
}.

(** [__init__(max_points)]. *)
Definition __init__ (max_points : Z) : t := mk [] max_points [].

(** [d.append(value)] on a [deque(maxlen=maxlen)]: the value goes to the
    right end and, when that makes the deque longer than [maxlen], the
    leftmost item is dropped. *)
Definition deque_append (maxlen : Z) (d : list Q) (value : Q) : list Q :=
  let d' := d ++ [value] in
  if (maxlen <? Z.of_nat (length d'))%Z then tail d' else d'.

(** [add_data(series)]: the loop over [series.items()].  [deque(maxlen=n)]
    raises [ValueError] for a negative [n]; [self.update()] asks Qt for a
    repaint and changes none of the attributes. *)
Fixpoint add_data (w : t) (series : PyDict.t Q) : outcome unit * t :=
  match series with
  | [] => (Returns tt, w)
  | (name, value) :: rest =>
      match PyDict.get (_data w) name with
      | Some d =>
          add_data (mk (PyDict.set (_data w) name (deque_append (_max_points w) d value))
                       (_max_points w) (_series_order w))
                   rest
      | None =>
          if (_max_points w <? 0)%Z
          then (Raises (Exception "ValueError" "maxlen must be non-negative"), w)
          else
            add_data (mk (PyDict.set (_data w) name (deque_append (_max_points w) [] value))
                         (_max_points w) (_series_order w ++ [name]))
                     rest
      end
  end.

(** [clear_data()]. *)
Definition clear_data (w : t) : t := mk [] (_max_points w) [].

(** The calls a page makes on its curve; a run ends at the first call that
    raises. *)
Inductive call :=
| AddData (series : PyDict.t Q)
| ClearData.

Definition step (w : t) (c : call) : outcome unit * t :=
  match c with
  | AddData series => add_data w series
  | ClearData => (Returns tt, clear_data w)
  end.

Fixpoint run (w : t) (cs : list call) : outcome unit * t :=
  match cs with
  | [] => (Returns tt, w)
  | c :: cs' =>
      match step w c with
      | (Returns _, w') => run w' cs'
      | (Raises e, w') => (Raises e, w')
      end
  end.

End CurveWidget.

(** Words for the statements about the curve. *)

Module CurveTerms.
Import CurveWidget.

(** The values that [series] gives for [name], in order. *)
Definition points_of (name : string) (series : PyDict.t Q) : list Q :=
  (List.filter (fun item : string * Q => String.eqb item.1 name) series).*2.

(** The values passed for [name] since the last [clear_data()], oldest
    first, after [sent] before the calls. *)
Fixpoint history (name : string) (sent : list Q) (cs : list call) : list Q :=
  match cs with
  | [] => sent
  | AddData series :: cs' => history name (sent ++ points_of name series) cs'
  | ClearData :: cs' => history name [] cs'
  end.

(** The last [n] items of a list. *)
Definition lastn {A : Type} (n : nat) (l : list A) : list A :=
  drop (length l - n) l.

(** What the curve should hold for a series with the given history. *)
Definition window (max_points : Z) (sent : list Q) : option (list Q) :=
  match sent with
  | [] => None
  | _ => Some (lastn (Z.to_nat max_points) sent)
  end.

End CurveTerms.

(** ** [adapters/cameras/base_adapter.py] *)

Module BaseCameraAdapter.

Local Open Scope Q_scope.

(** The attribute of the base class: the times of the frames recorded. *)
Record t := mk { _fps_ts : list Q }.

(** [__init__()]. *)
Definition __init__ : t := mk [].

(** [round(x, 1)]: the nearest multiple of one tenth, the even one on a
    tie. *)
Definition round1 (x : Q) : Q :=
  let y := x * 10 in
  let f := Qfloor y in
  let r := y - inject_Z f in
  inject_Z (if Py.ltb r (1 # 2) then f
            else if Py.gtb r (1 # 2) then f + 1
            else if Z.even f then f else f + 1)
  / 10.

(** The dict that [fps_stats] returns. *)
Record stats := mk_stats { measured_fps : Q; frame_count : nat }.

(** [fps_stats()]: the dict returned and the adapter afterwards. *)
Definition fps_stats (a : t) (now : Q) : stats * t :=
  let ts := List.filter (fun t => Py.ltb (now - t) 2) (_fps_ts a) in
  let fps :=
    match ts with
    | [] => 0
    | _ => inject_Z (Z.of_nat (length ts)) / 2
    end in
  (mk_stats (round1 fps) (length ts), mk ts).

(** [_record_frame()]. *)
Definition _record_frame (a : t) (now : Q) : t := mk (_fps_ts a ++ [now]).

(** The calls made on an adapter, each with the time it is made at. *)
Inductive call :=
| RecordFrame (now : Q)
| FpsStats (now : Q).

Definition step (a : t) (c : call) : t :=
  match c with
  | RecordFrame now => _record_frame a now
  | FpsStats now => (fps_stats a now).2
  end.

Definition run (a : t) (cs : list call) : t := fold_left step cs a.

End BaseCameraAdapter.

(** Words for the statements about the frame rate. *)

Module CameraTerms.
Import BaseCameraAdapter.

Local Open Scope Q_scope.

(** The times of all the frames recorded by the calls. *)
Definition frames (cs : list call) : list Q :=
  omap (fun c => match c with RecordFrame t => Some t | FpsStats _ => None end) cs.

(** Every [fps_stats()] among the calls was made at [now] or before. *)
Definition asked_before (now : Q) (cs : list call) : bool :=
  forallb (fun c => match c with RecordFrame _ => true | FpsStats t => Qle_bool t now end) cs.

(** The frames of the last two seconds before [now]. *)
Definition recent (now : Q) (ts : list Q) : list Q :=
  List.filter (fun t => Py.ltb (now - t) 2) ts.

End CameraTerms.

(** ** [pages/teleop_page.py]: starting, stopping and polling *)

Module TeleopPageRun.
Import Runtime PyObject.

Section WithObjects.
Context {H B C : Type} `{!Robot H} `{!Truthy H} `{!PiperMotorsBus B} `{!Camera C}.

(** [adapter.stop()] and [adapter.get_state()] of the adapter at hand. *)
Definition stop (a : MainWindow.adapter H B C) : outcome unit * MainWindow.adapter H B C :=
  match a with
  | MainWindow.Generic g =>
      let '(o, g') := GenericRobotAdapterRest.stop g in (o, MainWindow.Generic g')
  | MainWindow.Piper p =>
      let '(o, p') := PiperRobotAdapterRest.stop p in (o, MainWindow.Piper p')
  end.

Definition get_state (a : MainWindow.adapter H B C)
    : outcome (gmap string Q) * MainWindow.adapter H B C :=
  match a with
  | MainWindow.Generic g =>
      let '(o, g') := GenericRobotAdapter.get_state g in (o, MainWindow.Generic g')
  | MainWindow.Piper p =>
      let '(o, p') := PiperRobotAdapter.get_state p in (o, MainWindow.Piper p')
  end.

(** The attributes of the page that the three handlers touch.  [_poll_timer]
    is whether the timer is running, [_start_btn] and [_stop_btn] whether the
    button is enabled, [_status_label] the text shown, [_curve] the states
    passed to [add_data] since the last [clear_data()]; the text box is
    written with the same state and never read. *)
Record t := mk {
  _safety : SafetyFilter.t;
  _robot_adapter : option (MainWindow.adapter H B C);
  _running : bool;
  _poll_timer : bool;
  _start_btn : bool;
  _stop_btn : bool;
  _status_label : string;
  _curve : list (gmap string Q)
}.

(** [_on_start()] at time [now]: outcome, page afterwards, lines logged. *)
Definition _on_start (p : t) (now : Q) : outcome unit * t * list log_record :=
  let refused :=
    (Returns tt,
     mk (_safety p) (_robot_adapter p) (_running p) (_poll_timer p)
        (_start_btn p) (_stop_btn p)
        "Error: No robot connected! Go to Devices page first." (_curve p),
     []) in
  match _robot_adapter p with
  | None => refused
  | Some a =>
      if MainWindow.is_connected a then
        (Returns tt,
         mk (SafetyFilter.reset (_safety p) now) (Some a) true true
            false true "Status: Running" [],
         [(INFO, "Teleop started")])
      else refused
  end.

(** [_on_stop()]. *)
Definition _on_stop (p : t) : outcome unit * t * list log_record :=
  let stopped adapter log :=
    (Returns tt,
     mk (_safety p) adapter false false true false "Status: Stopped" (_curve p),
     log ++ [(INFO, "Teleop stopped")]) in
  match _robot_adapter p with
  | None => stopped None []
  | Some a =>
      if MainWindow.is_connected a then
        match stop a with
        | (Returns _, a') => stopped (Some a') []
        | (Raises (Exception _ msg), a') =>
            stopped (Some a') [(ERROR, String.append "Stop error: " msg)]
        | (Raises (BaseException c), a') =>
            (Raises (BaseException c),
             mk (_safety p) (Some a') false false
                (_start_btn p) (_stop_btn p) (_status_label p) (_curve p),
             [])
        end
      else stopped (Some a) []
  end.

(** [_poll_teleop()] at time [now].  An adapter object is truthy: the
    adapter classes define neither [__bool__] nor [__len__]. *)
Definition _poll_teleop (p : t) (now : Q) : outcome unit * t * list log_record :=
  match _robot_adapter p with
  | None => (Returns tt, p, [])
  | Some a =>
      if negb (_running p) then (Returns tt, p, [])
      else if SafetyFilter.check_timeout (_safety p) now then
        let '(o, p', log) := _on_stop p in
        (o, p', (WARNING, "Teleop input timeout — auto-stopping") :: log)
      else
        let shown adapter curve :=
          mk (_safety p) (Some adapter) (_running p) (_poll_timer p)
             (_start_btn p) (_stop_btn p) (_status_label p) curve in
        match get_state a with
        | (Returns state, a') =>
            (Returns tt,
             shown a' (if nonempty state then _curve p ++ [state] else _curve p),
             [])
        | (Raises (Exception _ msg), a') =>
            (Returns tt, shown a' (_curve p),
             [(ERROR, String.append "Teleop poll error: " msg)])
        | (Raises (BaseException c), a') =>
            (Raises (BaseException c), shown a' (_curve p), [])
        end
  end.

(** The timer calls [_poll_teleop] while it is running.  A run of timer
    events ends at the first one that raises. *)
Definition tick (p : t) (now : Q) : outcome unit * t * list log_record :=
  if _poll_timer p then _poll_teleop p now else (Returns tt, p, []).

Fixpoint ticks (p : t) (times : list Q) : outcome unit * t :=
  match times with
  | [] => (Returns tt, p)
  | now :: times' =>
      match tick p now with
      | (Returns _, p', _) => ticks p' times'
      | (Raises e, p', _) => (Raises e, p')
      end
  end.

End WithObjects.

Arguments t H B C : clear implicits.

End TeleopPageRun.

(** Words for the statements about the teleoperation page. *)

Module TeleopTerms.
Import TeleopPageRun.

Section WithObjects.
Context {H B C : Type} `{!Runtime.Robot H} `{!PyObject.Truthy H}
        `{!Runtime.PiperMotorsBus B} `{!Runtime.Camera C}.

(** The page after [_on_start()] at time [start] and then the timer events
    at [times]. *)
Definition polled (p : t H B C) (start : Q) (times : list Q) : t H B C :=
  (ticks (_on_start p start).1.2 times).2.

End WithObjects.

End TeleopTerms.

(** ** [adapters/robots/generic_adapter.py]: the keyword arguments of the
    configuration *)

Module GenericBuildConfig.

(** A value of the parameter dict as [_build_config] tells them apart:
    [None], a string, or any other object (a number, a bool, a list), which
    is not [None] and differs from [""]. *)
Inductive param (A : Type) :=
| ParamNone
| ParamStr (s : string)
| ParamObj (a : A).
Arguments ParamNone {A}.
Arguments ParamStr {A} s.
Arguments ParamObj {A} a.

(** A value of the dict [filtered]: a parameter, the dict collected for a
    dotted prefix, or the dict of camera configurations. *)
Inductive kwarg (A Cam : Type) :=
| Plain (v : param A)
| Nested (d : PyDict.t (param A))
| Cameras (c : PyDict.t Cam).
Arguments Plain {A Cam} v.
Arguments Nested {A Cam} d.
Arguments Cameras {A Cam} c.

(** [k.split(".", 1)] when ["." in k]: the text before the first dot and
    the text after it; [None] when [k] has no dot. *)
Fixpoint split_dot (k : string) : option (string * string) :=
  match k with
  | EmptyString => None
  | String c k' =>
      if String.eqb (String c EmptyString) "." then Some (EmptyString, k')
      else
        match split_dot k' with
        | Some (head, rest) => Some (String c head, rest)
        | None => None
        end
  end.

Section WithValues.
Context {A Cam : Type}.

(** [v is not None and v != ""]. *)
Definition given (v : param A) : bool :=
  match v with
  | ParamNone => false
  | ParamStr s => negb (String.eqb s "")
  | ParamObj _ => true
  end.

(** The loop over [params.items()] that fills [nested] and [flat]. *)
Fixpoint flatten (items : PyDict.t (param A))
    (nested : PyDict.t (PyDict.t (param A))) (flat : PyDict.t (param A))
    : PyDict.t (PyDict.t (param A)) * PyDict.t (param A) :=
  match items with
  | [] => (nested, flat)
  | (k, v) :: items' =>
      match split_dot k with
      | Some (head, rest) =>
          flatten items'
            (PyDict.set nested head (PyDict.set (default [] (PyDict.get nested head)) rest v))
            flat
      | None => flatten items' nested (PyDict.set flat k v)
      end
  end.

(** [k in valid_fields]. *)
Definition is_field (valid_fields : list string) (k : string) : bool :=
  existsb (String.eqb k) valid_fields.

(** The dict comprehension over [flat.items()]. *)
Definition filter_flat (valid_fields : list string) (flat : PyDict.t (param A))
    : PyDict.t (kwarg A Cam) :=
  omap (fun item : string * param A =>
          if is_field valid_fields item.1 && given item.2
          then Some (item.1, Plain item.2) else None)
       flat.

(** The loop over [nested.items()]. *)
Definition add_nested (valid_fields : list string)
    (filtered : PyDict.t (kwarg A Cam)) (nested : PyDict.t (PyDict.t (param A)))
    : PyDict.t (kwarg A Cam) :=
  fold_left (fun filtered item =>
               if is_field valid_fields item.1
               then PyDict.set filtered item.1 (Nested item.2) else filtered)
            nested filtered.

(** The dict [filtered] that [_build_config] passes to [config_cls] as
    keyword arguments.  [params] is the dict that [connect] passes;
    [valid_fields] are the names of [dataclasses.fields(config_cls)];
    [cameras] is what [_build_cameras] made of [params.pop("cameras", {})]
    with the camera classes of lerobot. *)
Definition _build_config (valid_fields : list string) (params : PyDict.t (param A))
    (cameras : PyDict.t Cam) : PyDict.t (kwarg A Cam) :=
  let '(nested, flat) := flatten (PyDict.remove params "cameras") [] [] in
  let filtered := add_nested valid_fields (filter_flat valid_fields flat) nested in
  match cameras with
  | [] => filtered
  | _ => PyDict.set filtered "cameras" (Cameras cameras)
  end.

End WithValues.

End GenericBuildConfig.

(** ** Python floats: the rounding of binary64

    A finite [float] is a rational; [x + y] and [x - y] on floats are the
    exact sum and difference rounded to the nearest double, the one with the
    even significand on a tie.  Comparisons, [abs], [min], [max] and a product
    with [1] or [-1] are exact.  A result beyond the largest double (an
    infinity) and NaN are outside the model. *)

Module Binary64.

Local Open Scope Q_scope.

(** The integer nearest to [y], the even one of the two on a tie. *)
Definition round_half_even (y : Q) : Z :=
  let f := Qfloor y in
  let r := y - inject_Z f in
  if Py.ltb r (1 # 2) then f
  else if Py.gtb r (1 # 2) then (f + 1)%Z
  else if Z.even f then f else (f + 1)%Z.

(** For [x] other than 0, the [e] with [2^e <= |x| < 2^(e+1)]. *)
Definition exponent (x : Q) : Z :=
  let k := (Z.log2 (Z.abs (Qnum x)) - Z.log2 (Zpos (Qden x)))%Z in
  if Qle_bool (2 ^ k) (Qabs x) then k else (k - 1)%Z.

(** The distance between the doubles around [x]: 53 significant bits down to
    the exponent [-1022], and [2^-1074] below it. *)
Definition ulp (x : Q) : Q := 2 ^ (Z.max (exponent x) (-1022) - 52).

(** The double nearest to [x]. *)
Definition round (x : Q) : Q := inject_Z (round_half_even (x / ulp x)) * ulp x.

(** [x + y] and [x - y] on floats. *)
Definition add (x y : Q) : Q := round (x + y).
Definition sub (x y : Q) : Q := round (x - y).

(** The precision of one operation: [2^-53], relative to the exact result,
    and [2^-1075] below the smallest normal double. *)
Definition epsilon : Q := Eval vm_compute in 1 # (2 ^ 53).
Definition tiny : Q := Eval vm_compute in 1 # (2 ^ 1075).

End Binary64.

(** ** [services/safety_filter.py] with the arithmetic of floats

    The filter of [SafetyFilter] with the subtractions of lines 70 and 79 and
    the addition of line 72 rounded as Python rounds them.  The attributes,
    the clamp and the other methods are those of [SafetyFilter]. *)

Module SafetyFilter64.
Import SafetyFilter.

Local Open Scope Q_scope.

(** Step 2 of the loop body: [delta = value - last], then
    [last + max_velocity * (1 if delta > 0 else -1)]. *)
Definition velocity_limit (f : t) (key : string) (value : Q) : Q :=
  match _last_action f !! key with
  | Some last =>
      let delta := Binary64.sub value last in
      if Py.gtb (Py.abs delta) (max_velocity f)
      then Binary64.add last (max_velocity f * (if Py.gtb delta 0 then 1 else -1))
      else value
  | None => value
  end.

(** Step 3: [abs(value - last) < deadzone]. *)
Definition dead_zone (f : t) (key : string) (value : Q) : Q :=
  match _last_action f !! key with
  | Some last =>
      if Py.ltb (Py.abs (Binary64.sub value last)) (deadzone f) then last else value
  | None => value
  end.

(** The value stored in [filtered[key]]. *)
Definition filter_value (f : t) (key : string) (value : Q) : Q :=
  dead_zone f key (velocity_limit f key (clamp f key value)).

(** [filter_action(action)]. *)
Definition filter_action (f : t) (now : Q) (action : gmap string Q)
    : option (gmap string Q) * t :=
  if _e_stopped f then (None, f)
  else if negb (_enabled f) then (Some action, f)
  else
    let filtered := map_imap (fun key value => Some (filter_value f key value)) action in
    (Some filtered,
     mk (joint_limits f) (max_velocity f) (deadzone f) (timeout_ms f)
        filtered now (_enabled f) (_e_stopped f)).

(** The calls of [SafetyFilter.call] on this filter. *)
Definition step (f : t) (c : call) : reply * t :=
  match c with
  | FilterAction now action =>
      let '(r, f') := filter_action f now action in (Filtered r, f')
  | SetEStop active => (Done, set_e_stop f active)
  | CheckTimeout now => (TimedOut (check_timeout f now), f)
  | Reset now => (Done, reset f now)
  end.

Fixpoint run (f : t) (cs : list call) : list reply * t :=
  match cs with
  | [] => ([], f)
  | c :: cs' =>
      let '(r, f') := step f c in
      let '(rs, f'') := run f' cs' in
      (r :: rs, f'')
  end.

End SafetyFilter64.

(** * The definitions on the inputs of the specification's scenarios *)

Example joint_name_pos : SafetyFilter.joint_name "joint_1.pos" = "joint_1".
Proof. reflexivity. Qed.

Example joint_name_plain : SafetyFilter.joint_name "gripper" = "gripper".
Proof. reflexivity. Qed.

Example replace_every_occurrence : Py.replace "a.pos.b.pos" ".pos" "" = "a.b".
Proof. reflexivity. Qed.

Example replace_left_to_right : Py.replace "aaa" "aa" "b" = "ba".
Proof. reflexivity. Qed.

(** Velocity limit 0.5, no range: 10.0, 10.3, 11.5 come out as 10.0, 10.3,
    10.8. *)
Example scenario_velocity :
  Forall2 Qeq
    (SafetyFilter.emitted "j"
       (SafetyFilter.run
          (SafetyFilter.__init__ None (1 # 2) (1 # 1000) 500 0)
          [SafetyFilter.FilterAction 1 {[ "j" := 10%Q ]};
           SafetyFilter.FilterAction 2 {[ "j" := 103 # 10 ]};
           SafetyFilter.FilterAction 3 {[ "j" := 115 # 10 ]}]).1)
    [10%Q; 103 # 10; 108 # 10].
Proof. vm_compute. repeat constructor. Qed.

(** Range [-1.6, 1.6]: 2.0 comes out as 1.6. *)
Example scenario_clamp :
  SafetyFilter.run
    (SafetyFilter.__init__ (Some {[ "joint_1" := (- (8 # 5), 8 # 5)%Q ]})
                       (1 # 2) (1 # 1000) 500 0)
    [SafetyFilter.FilterAction 1 {[ "joint_1.pos" := 2%Q ]}]
  = ([SafetyFilter.Filtered (Some {[ "joint_1.pos" := 8 # 5 ]})],
     SafetyFilter.mk {[ "joint_1" := (- (8 # 5), 8 # 5)%Q ]} (1 # 2) (1 # 1000) 500
                     {[ "joint_1.pos" := 8 # 5 ]} 1 true false).
Proof. vm_compute. reflexivity. Qed.

(** An adapter that was never connected returns the action it is given. *)
Example scenario_send_action_unconnected :
  PiperRobotAdapter.send_action
    (PiperRobotAdapter.__init__ (B := Scripted.bus) (C := Scripted.camera)) {[ "a" := 1%Q ]}
  = (Runtime.Returns {[ "a" := 1%Q ]}, PiperRobotAdapter.__init__).
Proof. reflexivity. Qed.

(** * Properties of the safety filter *)

Module SafetyFilterFacts.
Import SafetyFilter FilterTerms.
Local Open Scope Q_scope.

(** ** The comparisons *)

Lemma ltb_true x y : Py.ltb x y = true <-> x < y.
Proof.
  unfold Py.ltb. rewrite negb_true_iff, <- not_true_iff_false, Qle_bool_iff.
  split; [apply Qnot_le_lt | apply Qlt_not_le].
Qed.

Lemma ltb_false x y : Py.ltb x y = false <-> y <= x.
Proof.
  unfold Py.ltb. rewrite negb_false_iff. apply Qle_bool_iff.
Qed.

Lemma abs_gt d m : m < Qabs d <-> d < - m \/ m < d.
Proof.
  split.
  - intros Hlt. destruct (Qlt_le_dec d (- m)) as [|Hge]; [by left|].
    destruct (Qlt_le_dec m d) as [|Hle]; [by right|].
    exfalso. apply (Qlt_not_le _ _ Hlt). apply Qabs_Qle_condition. by split.
  - intros Hout. apply Qnot_le_lt. intros Hle.
    apply Qabs_Qle_condition in Hle. lra.
Qed.

Lemma abs_le d m : Qabs d <= m <-> - m <= d /\ d <= m.
Proof. apply Qabs_Qle_condition. Qed.

Lemma abs_lt d m : Qabs d < m <-> - m < d /\ d < m.
Proof. apply Qabs_Qlt_condition. Qed.

Lemma abs_ge d m : m <= Qabs d <-> d <= - m \/ m <= d.
Proof.
  split.
  - intros Hle. destruct (Qlt_le_dec (- m) d) as [Hgt|]; [|by left].
    destruct (Qlt_le_dec d m) as [Hlt|]; [|by right].
    exfalso. apply (Qle_not_lt _ _ Hle). apply abs_lt. by split.
  - intros Hout. apply Qnot_lt_le. intros Hlt. apply abs_lt in Hlt. lra.
Qed.

(** Case analysis on every comparison of the goal, leaving linear facts. *)
Ltac cmp_cases :=
  unfold Py.max, Py.min, Py.gtb, Py.abs in *;
  repeat match goal with
    | |- context [Py.ltb ?x ?y] =>
        let E := fresh "E" in
        destruct (Py.ltb x y) eqn:E;
        [apply ltb_true in E | apply ltb_false in E]
    | H : context [Py.ltb ?x ?y] |- _ =>
        let E := fresh "E" in
        destruct (Py.ltb x y) eqn:E;
        [apply ltb_true in E | apply ltb_false in E]
    end;
  repeat match goal with
    | H : _ < Qabs _ |- _ => apply abs_gt in H
    | H : Qabs _ <= _ |- _ => apply abs_le in H
    | H : Qabs _ < _ |- _ => apply abs_lt in H
    | H : _ <= Qabs _ |- _ => apply abs_ge in H
    end.

(** ** The three steps on one value *)

Lemma clamp_bounds lo hi v :
  lo <= hi -> lo <= Py.max lo (Py.min hi v) /\ Py.max lo (Py.min hi v) <= hi.
Proof. intros. cmp_cases; lra. Qed.

Lemma clamp_inverted lo hi v : hi < lo -> Py.max lo (Py.min hi v) = lo.
Proof. intros. cmp_cases; try reflexivity; lra. Qed.

Lemma clamp_fixed lo hi v :
  lo <= v -> v <= hi -> Py.max lo (Py.min hi v) == v.
Proof. intros. cmp_cases; lra. Qed.


Lemma clamp_ext f g key v :
  joint_limits f = joint_limits g -> clamp f key v = clamp g key v.
Proof. unfold clamp. by intros ->. Qed.

Lemma settled_in_range f key v lo hi :
  clamp f key v == v ->
  joint_limits f !! joint_name key = Some (lo, hi) -> lo <= hi ->
  lo <= v /\ v <= hi.
Proof.
  unfold clamp. intros Hfix Hl Hle. rewrite Hl in Hfix.
  pose proof (clamp_bounds lo hi v Hle). lra.
Qed.

Lemma filter_value_settled f key v :
  0 <= max_velocity f -> settled f ->
  clamp f key (filter_value f key v) == filter_value f key v.
Proof.
  intros Hmv Hs. unfold filter_value, dead_zone, velocity_limit.
  destruct (_last_action f !! key) as [last|] eqn:Hlast.
  - specialize (Hs key last Hlast). revert Hs. unfold clamp.
    destruct (joint_limits f !! joint_name key) as [[lo hi]|]; intros Hs;
      cmp_cases; lra.
  - unfold clamp.
    destruct (joint_limits f !! joint_name key) as [[lo hi]|];
      cmp_cases; lra.
Qed.

Lemma inv_init limits mv dz tmo now : 0 <= mv -> inv (__init__ limits mv dz tmo now).
Proof.
  intros Hmv. repeat split; [done|]. intros key v. cbn. by rewrite lookup_empty.
Qed.

Lemma filter_action_blocked f now action :
  _e_stopped f = true -> filter_action f now action = (None, f).
Proof. unfold filter_action. by intros ->. Qed.

Lemma filter_action_armed f now action :
  _e_stopped f = false -> _enabled f = true ->
  filter_action f now action =
    (Some (map_imap (fun key value => Some (filter_value f key value)) action),
     mk (joint_limits f) (max_velocity f) (deadzone f) (timeout_ms f)
        (map_imap (fun key value => Some (filter_value f key value)) action)
        now true false).
Proof. unfold filter_action. by intros -> ->. Qed.

Lemma lookup_filtered f action key :
  map_imap (fun key value => Some (filter_value f key value)) action !! key
  = filter_value f key <$> action !! key.
Proof. rewrite map_lookup_imap. by destruct (action !! key). Qed.

Lemma filter_action_limits f now action :
  joint_limits (filter_action f now action).2 = joint_limits f.
Proof.
  unfold filter_action. destruct (_e_stopped f); [done|].
  by destruct (_enabled f).
Qed.

Lemma step_limits f c : joint_limits (step f c).2 = joint_limits f.
Proof.
  destruct c as [now action| | |]; cbn; try done.
  pose proof (filter_action_limits f now action) as E.
  by destruct (filter_action f now action).
Qed.

Lemma filter_action_inv f now action : inv f -> inv (filter_action f now action).2.
Proof.
  intros (Hmv & Hen & Hs). destruct (_e_stopped f) eqn:Hstop.
  - by rewrite filter_action_blocked.
  - rewrite filter_action_armed by done. repeat split; [done|].
    intros key v. cbn. rewrite lookup_filtered.
    destruct (action !! key) as [raw|]; [|done]. cbn. intros [= <-].
    rewrite <- (filter_value_settled f key raw Hmv Hs) at 2.
    by rewrite (clamp_ext _ f).
Qed.

Lemma step_inv f c : inv f -> inv (step f c).2.
Proof.
  intros Hinv. destruct c as [now action|active|now|now]; cbn.
  - pose proof (filter_action_inv f now action Hinv) as E.
    by destruct (filter_action f now action).
  - destruct Hinv as (? & ? & ?). by repeat split.
  - done.
  - destruct Hinv as (? & ? & ?). repeat split; [done..|].
    intros key v. cbn. by rewrite lookup_empty.
Qed.

Lemma run_cons f c cs :
  run f (c :: cs) = ((step f c).1 :: (run (step f c).2 cs).1, (run (step f c).2 cs).2).
Proof.
  cbn [run]. destruct (step f c) as [r f']. cbn [fst snd].
  by destruct (run f' cs).
Qed.

Lemma run_app f cs1 cs2 :
  run f (cs1 ++ cs2)
  = ((run f cs1).1 ++ (run (run f cs1).2 cs2).1, (run (run f cs1).2 cs2).2).
Proof.
  revert f. induction cs1 as [|c cs1 IH]; intros f.
  - cbn. by destruct (run f cs2).
  - rewrite <- app_comm_cons, !run_cons, IH. reflexivity.
Qed.

Lemma run_limits f cs : joint_limits (run f cs).2 = joint_limits f.
Proof.
  revert f. induction cs as [|c cs IH]; intros f; [done|].
  rewrite run_cons. cbn. by rewrite IH, step_limits.
Qed.

Lemma run_inv f cs : inv f -> inv (run f cs).2.
Proof.
  revert f. induction cs as [|c cs IH]; intros f Hinv; [done|].
  rewrite run_cons. cbn. by apply IH, step_inv.
Qed.

(** Whatever a filter satisfying the invariant emits is settled. *)
Lemma filtered_settled f now action out key v :
  inv f -> (filter_action f now action).1 = Some out ->
  out !! key = Some v -> clamp f key v == v.
Proof.
  intros (Hmv & Hen & Hs). destruct (_e_stopped f) eqn:Hstop.
  - by rewrite filter_action_blocked.
  - rewrite filter_action_armed by done. cbn. intros [= <-].
    rewrite lookup_filtered.
    destruct (action !! key) as [raw|]; [|done]. cbn. intros [= <-].
    by apply filter_value_settled.
Qed.

Lemma run_replies_settled f cs i out key v :
  inv f -> (run f cs).1 !! i = Some (Filtered (Some out)) ->
  out !! key = Some v -> clamp f key v == v.
Proof.
  revert f i. induction cs as [|c cs IH]; intros f i Hinv; [done|].
  rewrite run_cons. cbn [fst]. destruct i as [|i]; cbn.
  - destruct c as [now action| | |]; cbn; try done.
    pose proof (filtered_settled f now action out key v Hinv) as E.
    destruct (filter_action f now action) as [r f']. cbn in *.
    intros [= ->]. by apply E.
  - intros Hi Hout. rewrite <- (clamp_ext (step f c).2) by apply step_limits.
    eapply IH; [by apply step_inv|done..].
Qed.

(** ** Configuration and flags along a run *)

Lemma step_config f c :
  max_velocity (step f c).2 = max_velocity f
  /\ deadzone (step f c).2 = deadzone f
  /\ _enabled (step f c).2 = _enabled f.
Proof.
  destruct c as [now action| | |]; cbn; try done.
  unfold filter_action. destruct (_e_stopped f); [done|].
  destruct (_enabled f) eqn:E; cbn; by rewrite ?E.
Qed.

Lemma run_config f cs :
  max_velocity (run f cs).2 = max_velocity f
  /\ deadzone (run f cs).2 = deadzone f
  /\ _enabled (run f cs).2 = _enabled f.
Proof.
  revert f. induction cs as [|c cs IH]; intros f; [done|].
  rewrite run_cons. cbn [snd].
  destruct (IH (step f c).2) as (-> & -> & ->). apply step_config.
Qed.

Lemma filter_action_some f now action out :
  _enabled f = true -> (filter_action f now action).1 = Some out ->
  _e_stopped f = false
  /\ out = map_imap (fun key value => Some (filter_value f key value)) action
  /\ (filter_action f now action).2
     = mk (joint_limits f) (max_velocity f) (deadzone f) (timeout_ms f)
          out now true false.
Proof.
  intros Hen. destruct (_e_stopped f) eqn:Hstop.
  - by rewrite filter_action_blocked.
  - rewrite filter_action_armed by done. cbn. by intros [= <-].
Qed.

(** While the flag is set and neither [set_e_stop(False)] nor [reset()] is
    called, every [filter_action] is blocked and the flag stays set. *)
Lemma run_e_stopped f cs :
  _e_stopped f = true -> forallb keeps_e_stop cs = true ->
  _e_stopped (run f cs).2 = true
  /\ forall i r, (run f cs).1 !! i = Some (Filtered r) -> r = None.
Proof.
  revert f. induction cs as [|c cs IH]; intros f Hstop Hkeep; [done|].
  cbn [forallb] in Hkeep. apply andb_true_iff in Hkeep as [Hc Hcs].
  rewrite run_cons. cbn [fst snd].
  assert (_e_stopped (step f c).2 = true
          /\ forall r, (step f c).1 = Filtered r -> r = None) as [Hstop' Hr].
  { destruct c as [now action|[|]|now|now]; cbn; try done.
    rewrite filter_action_blocked by done. cbn. split; [done|]. by intros r [= <-]. }
  destruct (IH _ Hstop' Hcs) as [IH1 IH2]. split; [done|].
  intros [|i] r; cbn; [intros [= E]; by apply Hr | apply IH2].
Qed.

(** ** One value through the three steps, against a recorded value *)

Lemma filter_value_fresh f key raw :
  _last_action f !! key = None -> filter_value f key raw = clamp f key raw.
Proof. unfold filter_value, dead_zone, velocity_limit. by intros ->. Qed.

Lemma filter_value_deadzone f key raw prev :
  0 <= max_velocity f -> _last_action f !! key = Some prev ->
  clamp f key prev == prev ->
  Qabs (raw - prev) < deadzone f ->
  filter_value f key raw = prev.
Proof.
  intros Hmv Hlast. unfold filter_value, dead_zone, velocity_limit, clamp.
  rewrite Hlast.
  destruct (joint_limits f !! joint_name key) as [[lo hi]|]; intros Hfix Hnear;
    cmp_cases; try reflexivity; lra.
Qed.

End SafetyFilterFacts.

Import SafetyFilter FilterTerms SafetyFilterFacts.
Local Open Scope Q_scope.

(** C1.  For a channel whose joint has a configured range [lo, hi] (with
    [lo <= hi]) and a velocity limit that is not negative, every value that
    [filter_action] emits for the channel, after any sequence of calls on a
    newly constructed filter, lies within [lo, hi]. *)
Theorem filtered_values_within_limits
    (limits : option (gmap string (Q * Q))) (mv dz tmo t0 : Q)
    (cs : list call) (i : nat) (out : gmap string Q)
    (key : string) (v lo hi : Q) :
  0 <= mv ->
  joint_limits (__init__ limits mv dz tmo t0) !! joint_name key = Some (lo, hi) ->
  lo <= hi ->
  (run (__init__ limits mv dz tmo t0) cs).1 !! i = Some (Filtered (Some out)) ->
  out !! key = Some v ->
  lo <= v /\ v <= hi.
Proof.
  intros Hmv Hlim Hle Hi Hout.
  apply (settled_in_range (__init__ limits mv dz tmo t0) key); [|done..].
  eapply run_replies_settled; [by apply inv_init|done..].
Qed.

Lemma filtered_values_within_limits_witness :
  - (8 # 5) <= 3 # 2 /\ 3 # 2 <= 8 # 5.
Proof.
  apply (filtered_values_within_limits
           (Some {[ "joint_1" := (- (8 # 5), 8 # 5) ]}) (1 # 2) (1 # 1000) 500 0
           [FilterAction 1 {[ "joint_1.pos" := 1 ]};
            FilterAction 2 {[ "joint_1.pos" := 2 ]}]
           1 {[ "joint_1.pos" := 3 # 2 ]} "joint_1.pos" (3 # 2)).
  - vm_compute. discriminate.
  - vm_compute. reflexivity.
  - vm_compute. discriminate.
  - vm_compute. reflexivity.
  - vm_compute. reflexivity.
Defined.

(** C2, as stated, fails: [reset()] also clears the emergency-stop flag.  On a
    filter tripped by [set_e_stop(True)], one [reset()] later (and no
    [set_e_stop(False)]) [filter_action] returns the action again. *)
Lemma e_stop_lifted_by_reset :
  (SetEStop false ∉ [Reset 1])
  /\ (filter_action
        (run (set_e_stop (__init__ None (1 # 2) (1 # 1000) 500 0) true) [Reset 1]).2
        2 {[ "j" := 10 ]}).1
     = Some {[ "j" := 10 ]}.
Proof.
  split.
  - rewrite list_elem_of_singleton. discriminate.
  - vm_compute. reflexivity.
Qed.

(** C2, amended.  After [set_e_stop(True)], every [filter_action] call returns
    [None] for as long as neither [set_e_stop(False)] nor [reset()] is
    called: whatever calls [cs] of other kinds come first, the next
    [filter_action] is blocked. *)
Theorem e_stop_blocks_until_released
    (f : t) (cs : list call) (now : Q) (action : gmap string Q) :
  forallb keeps_e_stop cs = true ->
  (filter_action (run (set_e_stop f true) cs).2 now action).1 = None.
Proof.
  intros Hkeep.
  destruct (run_e_stopped (set_e_stop f true) cs eq_refl Hkeep) as [Hstop _].
  by rewrite filter_action_blocked.
Qed.

Lemma e_stop_blocks_until_released_witness :
  (filter_action
     (run (set_e_stop (__init__ None (1 # 2) (1 # 1000) 500 0) true)
          [FilterAction 1 {[ "j" := 1 ]}; CheckTimeout 2; SetEStop true]).2
     3 {[ "j" := 2 ]}).1
  = None.
Proof.
  apply e_stop_blocks_until_released. vm_compute. reflexivity.
Defined.

(** ** The arithmetic of floats *)

Module Binary64Facts.
Import Binary64.
Local Open Scope Q_scope.

Lemma round_half_even_error (y : Q) :
  - (1 # 2) <= inject_Z (round_half_even y) - y <= 1 # 2.
Proof.
  pose proof (Qfloor_le y) as Hlo. pose proof (Qlt_floor y) as Hhi.
  unfold round_half_even, Py.gtb.
  rewrite inject_Z_plus in Hhi. change (inject_Z 1) with 1 in Hhi.
  destruct (Py.ltb (y - inject_Z (Qfloor y)) (1 # 2)) eqn:H1.
  { apply ltb_true in H1. lra. }
  apply ltb_false in H1.
  destruct (Py.ltb (1 # 2) (y - inject_Z (Qfloor y))) eqn:H2.
  { apply ltb_true in H2. rewrite inject_Z_plus. change (inject_Z 1) with 1. lra. }
  apply ltb_false in H2.
  destruct (Z.even (Qfloor y)); [lra|].
  rewrite inject_Z_plus. change (inject_Z 1) with 1. lra.
Qed.

Lemma ulp_pos (x : Q) : 0 < ulp x.
Proof. apply Qpower_0_lt. lra. Qed.

(** A rounded value is within half the distance between doubles. *)
Lemma round_error_ulp (x : Q) :
  - (ulp x * (1 # 2)) <= round x - x <= ulp x * (1 # 2).
Proof.
  pose proof (ulp_pos x) as Hu. unfold round.
  pose proof (round_half_even_error (x / ulp x)) as [Hlo Hhi].
  set (r := inject_Z (round_half_even (x / ulp x))) in *.
  assert (Hx : x == x / ulp x * ulp x) by (field; lra).
  set (y := x / ulp x) in *. clearbody r y.
  generalize dependent (ulp x). intros u Hu Hx.
  assert (Hlo' : 0 <= (r - y + (1 # 2)) * u) by (apply Qmult_le_0_compat; lra).
  assert (Hhi' : 0 <= ((1 # 2) - (r - y)) * u) by (apply Qmult_le_0_compat; lra).
  split; lra.
Qed.

Lemma exponent_le (x : Q) : ~ x == 0 -> 2 ^ exponent x <= Qabs x.
Proof.
  intros Hx. unfold exponent.
  destruct (Qle_bool (2 ^ (Z.log2 (Z.abs (Qnum x)) - Z.log2 (Z.pos (Qden x)))) (Qabs x))
    eqn:Htest; [by apply Qle_bool_iff|]. clear Htest.
  destruct x as [n d]. cbn [Qnum Qden Qabs].
  assert (Hn : (0 < Z.abs n)%Z).
  { destruct (Z.eq_dec n 0%Z) as [->|Hne]; [|lia]. by destruct Hx. }
  pose proof (Z.log2_spec _ Hn) as [Ha _].
  pose proof (Z.log2_spec (Z.pos d) eq_refl) as [_ Hb].
  pose proof (Z.log2_nonneg (Z.abs n)) as Ha0.
  pose proof (Z.log2_nonneg (Z.pos d)) as Hb0.
  set (a := Z.log2 (Z.abs n)) in *. set (b := Z.log2 (Z.pos d)) in *.
  replace (a - b - 1)%Z with (a - Z.succ b)%Z by lia.
  rewrite Qpower_minus by lra.
  change 2 with (inject_Z 2). rewrite <- !Zpower_Qpower by lia.
  assert (Hpos : 0 < inject_Z (2 ^ Z.succ b)).
  { change 0 with (inject_Z 0). rewrite <- Zlt_Qlt. lia. }
  apply Qle_shift_div_r; [done|].
  unfold Qle, Qmult, inject_Z. cbn [Qnum Qden]. nia.
Qed.

Lemma round_zero (x : Q) : x == 0 -> round x == 0.
Proof.
  intros Hx. unfold round.
  pose proof (round_half_even_error (x / ulp x)) as [Hlo Hhi].
  assert (Hmul : forall v, x * v == 0) by (intros v; rewrite Hx; ring).
  pose proof (Hmul (/ ulp x)) as Hy. fold (Qdiv x (ulp x)) in Hy.
  set (y := x / ulp x) in *. set (z := round_half_even y) in *.
  assert (Hz : z = 0%Z).
  { assert (H1 : inject_Z (-1) < inject_Z z).
    { change (inject_Z (-1)) with (-1). lra. }
    assert (H2 : inject_Z z < inject_Z 1).
    { change (inject_Z 1) with 1. lra. }
    rewrite <- Zlt_Qlt in H1, H2. lia. }
  rewrite Hz. apply Qmult_0_l.
Qed.

(** One rounding is off by at most [2^-53] of the exact value, or by
    [2^-1075] below the normal doubles. *)
Lemma round_error (x : Q) :
  Qabs (round x - x) <= epsilon * Qabs x + tiny.
Proof.
  assert (Heps : 0 <= epsilon * Qabs x).
  { apply Qmult_le_0_compat; [done|apply Qabs_nonneg]. }
  destruct (Qeq_dec x 0) as [Hx|Hx].
  { pose proof (round_zero x Hx) as Hr. apply Qabs_Qle_condition.
    assert (0 <= tiny) by done. split; lra. }
  pose proof (round_error_ulp x) as [Hlo Hhi].
  pose proof (exponent_le x Hx) as He.
  apply Qabs_Qle_condition.
  assert (Hulp : ulp x * (1 # 2) <= epsilon * Qabs x + tiny).
  { unfold ulp. destruct (Z.max_spec (exponent x) (-1022)) as [[_ ->]|[_ ->]].
    - assert (Htiny : 2 ^ (-1022 - 52) * (1 # 2) == tiny) by (by vm_compute).
      rewrite Htiny. lra.
    - rewrite Qpower_minus by lra.
      assert (H52 : 2 ^ exponent x / 2 ^ 52 * (1 # 2) == epsilon * 2 ^ exponent x).
      { assert (Hc : / 2 ^ 52 * (1 # 2) == epsilon) by (by vm_compute).
        rewrite <- Hc. unfold Qdiv. generalize (2 ^ exponent x), (/ 2 ^ 52).
        intros p c. ring. }
      rewrite H52.
      assert (epsilon * 2 ^ exponent x <= epsilon * Qabs x).
      { by apply Qmult_le_l. }
      assert (0 <= tiny) by done. lra. }
  split; lra.
Qed.

(** The same with [|x|] named, for linear arithmetic. *)
Lemma round_near (x : Q) :
  exists a,
    0 <= a /\ x <= a /\ - x <= a /\ (a == x \/ a == - x)
    /\ - (epsilon * a + tiny) <= round x - x /\ round x - x <= epsilon * a + tiny.
Proof.
  exists (Qabs x). pose proof (round_error x) as Herr.
  apply Qabs_Qle_condition in Herr as [Hlo Hhi].
  split; [apply Qabs_nonneg|]. split; [apply Qle_Qabs|].
  split; [rewrite <- Qabs_opp; apply Qle_Qabs|]. split; [|done].
  destruct (Qlt_le_dec x 0) as [Hneg|Hpos].
  - right. apply Qabs_neg. lra.
  - left. by apply Qabs_pos.
Qed.

End Binary64Facts.

(** The doubles of some literals, a tie, and the smallest doubles. *)

Example round_tenth :
  Binary64.round (1 # 10) == 3602879701896397 # 36028797018963968.
Proof. by vm_compute. Qed.

Example round_tie_to_even :
  Binary64.round (inject_Z (2 ^ 53 + 1)) == inject_Z (2 ^ 53)
  /\ Binary64.round (inject_Z (2 ^ 53 + 3)) == inject_Z (2 ^ 53 + 4).
Proof. split; by vm_compute. Qed.

Example round_subnormal :
  Binary64.round (3 # 2 ^ 1075) == 2 # 2 ^ 1074
  /\ Binary64.round (1 # 2 ^ 1075) == 0.
Proof. split; by vm_compute. Qed.

Example add_tenths :
  Binary64.add (Binary64.round (1 # 10)) (Binary64.round (2 # 10))
  == 5404319552844596 # 18014398509481984.
Proof. by vm_compute. Qed.

(** Velocity limit 0.5, no range: the floats 10.0, 10.3, 11.5 come out as
    10.0, 10.3, 10.8. *)
Example scenario_velocity_floats :
  emitted "j"
    (SafetyFilter64.run
       (__init__ None (1 # 2) (Binary64.round (1 # 1000)) 500 0)
       [FilterAction 1 {[ "j" := 10 ]};
        FilterAction 2 {[ "j" := Binary64.round (103 # 10) ]};
        FilterAction 3 {[ "j" := Binary64.round (115 # 10) ]}]).1
  = [10; Binary64.round (103 # 10); Binary64.round (108 # 10)].
Proof. vm_compute. reflexivity. Qed.

(** ** The filter with the arithmetic of floats *)

Module SafetyFilter64Facts.
Import Binary64 Binary64Facts SafetyFilter64.
Local Open Scope Q_scope.

Lemma lookup_filtered_rounded f action key :
  map_imap (fun key value => Some (filter_value f key value)) action !! key
  = filter_value f key <$> action !! key.
Proof. rewrite map_lookup_imap. by destruct (action !! key). Qed.

Lemma filter_action_armed_rounded f now action :
  _e_stopped f = false -> _enabled f = true ->
  filter_action f now action =
    (Some (map_imap (fun key value => Some (filter_value f key value)) action),
     mk (joint_limits f) (max_velocity f) (deadzone f) (timeout_ms f)
        (map_imap (fun key value => Some (filter_value f key value)) action)
        now true false).
Proof. unfold filter_action. by intros -> ->. Qed.

Lemma filter_action_some_rounded f now action out :
  _enabled f = true -> (filter_action f now action).1 = Some out ->
  _e_stopped f = false
  /\ out = map_imap (fun key value => Some (filter_value f key value)) action.
Proof.
  intros Hen. destruct (_e_stopped f) eqn:Hstop.
  - unfold filter_action. by rewrite Hstop.
  - rewrite filter_action_armed_rounded by done. cbn. by intros [= <-].
Qed.

Lemma step_config_rounded f c :
  joint_limits (step f c).2 = joint_limits f
  /\ max_velocity (step f c).2 = max_velocity f
  /\ deadzone (step f c).2 = deadzone f
  /\ _enabled (step f c).2 = _enabled f.
Proof.
  destruct c as [now action| | |]; cbn; try done.
  unfold filter_action. destruct (_e_stopped f); [done|].
  destruct (_enabled f) eqn:E; cbn; by rewrite ?E.
Qed.

Lemma run_cons_rounded f c cs :
  run f (c :: cs) = ((step f c).1 :: (run (step f c).2 cs).1, (run (step f c).2 cs).2).
Proof.
  cbn [run]. destruct (step f c) as [r f']. cbn [fst snd].
  by destruct (run f' cs).
Qed.

Lemma run_config_rounded f cs :
  joint_limits (run f cs).2 = joint_limits f
  /\ max_velocity (run f cs).2 = max_velocity f
  /\ deadzone (run f cs).2 = deadzone f
  /\ _enabled (run f cs).2 = _enabled f.
Proof.
  revert f. induction cs as [|c cs IH]; intros f; [done|].
  rewrite run_cons_rounded. cbn [snd].
  destruct (IH (step f c).2) as (-> & -> & -> & ->). apply step_config_rounded.
Qed.

(** The step of one call: at most the limit, up to the rounding of the one
    operation that the code's answer went through. *)
Lemma filter_value_step f key raw prev :
  0 <= max_velocity f -> _last_action f !! key = Some prev ->
  Qabs (filter_value f key raw - prev)
  <= max_velocity f * (1 + 2 * epsilon) + epsilon * Qabs prev + 2 * tiny.
Proof.
  intros Hmv Hlast. unfold filter_value, dead_zone, velocity_limit, add, sub.
  rewrite Hlast. generalize (clamp f key raw). intros c.
  generalize dependent (max_velocity f). intros mv Hmv.
  destruct (round_near (c - prev)) as (a0 & Ha0 & Ha0x & Ha0y & Ha0z & Hlo0 & Hhi0).
  destruct (round_near (prev + mv * 1)) as (a1 & Ha1 & Ha1x & Ha1y & Ha1z & Hlo1 & Hhi1).
  destruct (round_near (prev + mv * -1)) as (a2 & Ha2 & Ha2x & Ha2y & Ha2z & Hlo2 & Hhi2).
  pose proof (Qabs_nonneg prev) as Hp0. pose proof (Qle_Qabs prev) as Hp1.
  pose proof (Qle_Qabs (- prev)) as Hp2. rewrite Qabs_opp in Hp2.
  generalize dependent (Qabs prev). intros ap Hp0 Hp1 Hp2.
  apply abs_le. unfold epsilon, tiny in *.
  unfold Py.gtb, Py.abs.
  destruct (Py.ltb mv (Qabs (round (c - prev)))) eqn:Hfar.
  - destruct (Py.ltb 0 (round (c - prev))) eqn:Hup.
    + destruct (Py.ltb (Qabs (round (round (prev + mv * 1) - prev))) (deadzone f));
        split; lra.
    + destruct (Py.ltb (Qabs (round (round (prev + mv * -1) - prev))) (deadzone f));
        split; lra.
  - apply ltb_false, abs_le in Hfar.
    destruct (Py.ltb (Qabs (round (c - prev))) (deadzone f)); split; lra.
Qed.

(** When the computed delta exceeds the limit, the answer is the rounded
    sum, or the recorded value when the dead zone discards that sum. *)
Lemma filter_value_capped f key raw prev :
  _last_action f !! key = Some prev ->
  max_velocity f < Qabs (sub (clamp f key raw) prev) ->
  filter_value f key raw
  = (if Py.ltb (Qabs (sub (add prev (max_velocity f
                                      * direction (sub (clamp f key raw) prev)))
                          prev))
               (deadzone f)
     then prev
     else add prev (max_velocity f * direction (sub (clamp f key raw) prev))).
Proof.
  intros Hlast Hfar. unfold filter_value, dead_zone, velocity_limit, direction.
  rewrite Hlast. unfold Py.gtb, Py.abs. cbn zeta.
  by rewrite (proj2 (ltb_true _ _) Hfar).
Qed.

End SafetyFilter64Facts.

Import SafetyFilter64Facts.

(** C3, as stated, fails in three ways.  (1) A call that does not carry the
    channel drops its recorded value, so the next value emitted for it is not
    limited: with limit 0.5 channel [j] goes from 0 to 10.  (2) With a
    deadzone above the velocity limit (1 against 0.5) the limited step is
    itself discarded: the delta exceeds the limit, yet the output is the
    previous value 0 and neither 0 + 0.5 nor 0 - 0.5.  (3) The limited value
    is a rounded sum: with the default settings (limit 0.5, deadzone 0.001)
    channel [j] goes from the float 0.503 to the float 1.0030000000000001,
    which is more than 0.5 away and is not 0.503 + 0.5. *)
Lemma velocity_limit_not_kept :
  (emitted "j"
     (SafetyFilter64.run (__init__ None (1 # 2) (Binary64.round (1 # 1000)) 500 0)
        [FilterAction 1 {[ "j" := 0 ]}; FilterAction 2 {[ "k" := 0 ]};
         FilterAction 3 {[ "j" := 10 ]}]).1
   = [0; 10]
   /\ ~ Qabs (10 - 0) <= 1 # 2)
  /\ (emitted "j"
        (SafetyFilter64.run (__init__ None (1 # 2) 1 500 0)
           [FilterAction 1 {[ "j" := 0 ]}; FilterAction 2 {[ "j" := 10 ]}]).1
      = [0; 0]
      /\ 1 # 2 < Qabs (10 - 0)
      /\ ~ 0 == 0 + (1 # 2) /\ ~ 0 == 0 - (1 # 2))
  /\ (emitted "j"
        (SafetyFilter64.run (__init__ None (1 # 2) (Binary64.round (1 # 1000)) 500 0)
           [FilterAction 1 {[ "j" := Binary64.round (503 # 1000) ]};
            FilterAction 2 {[ "j" := 2 ]}]).1
      = [Binary64.round (503 # 1000);
         Binary64.add (Binary64.round (503 # 1000)) ((1 # 2) * 1)]
      /\ 1 # 2 < Qabs (Binary64.add (Binary64.round (503 # 1000)) ((1 # 2) * 1)
                       - Binary64.round (503 # 1000))
      /\ ~ Binary64.add (Binary64.round (503 # 1000)) ((1 # 2) * 1)
           == Binary64.round (503 # 1000) + (1 # 2)).
Proof.
  split; [split|split; [split; [|split; [|split]]|split; [|split]]].
  - vm_compute. reflexivity.
  - intros Hle. by vm_compute in Hle.
  - vm_compute. reflexivity.
  - vm_compute. reflexivity.
  - intros Heq. by vm_compute in Heq.
  - intros Heq. by vm_compute in Heq.
  - vm_compute. reflexivity.
  - vm_compute. reflexivity.
  - intros Heq. by vm_compute in Heq.
Qed.

(** C3, amended.  With the arithmetic of floats: for a channel whose previous
    emitted value is still recorded by the filter, and a velocity limit that
    is not negative, the value emitted next differs from the recorded one by at
    most [max_velocity] up to the rounding of one operation, that is by at most
    [max_velocity * (1 + 2^-52) + 2^-53 * |previous| + 2^-1074]; and when the
    delta that the code computes exceeds the limit, the output is the float sum
    of the previous value and plus or minus the limit, with the sign of that
    delta, or the previous value itself when that sum is within the deadzone of
    it. *)
Theorem velocity_limited_up_to_rounding
    (limits : option (gmap string (Q * Q))) (mv dz tmo t0 : Q) (cs : list call)
    (now : Q) (action out : gmap string Q) (key : string) (prev raw : Q) :
  let f := (SafetyFilter64.run (__init__ limits mv dz tmo t0) cs).2 in
  0 <= mv ->
  _last_action f !! key = Some prev ->
  action !! key = Some raw ->
  (SafetyFilter64.filter_action f now action).1 = Some out ->
  exists v,
    out !! key = Some v
    /\ Qabs (v - prev)
       <= mv * (1 + 2 * Binary64.epsilon) + Binary64.epsilon * Qabs prev
          + 2 * Binary64.tiny
    /\ (mv < Qabs (Binary64.sub (clamp f key raw) prev) ->
        v = Binary64.add prev (mv * direction (Binary64.sub (clamp f key raw) prev))
        \/ (v = prev
            /\ Qabs (Binary64.sub
                       (Binary64.add prev
                          (mv * direction (Binary64.sub (clamp f key raw) prev)))
                       prev)
               < dz)).
Proof.
  intros f Hmv Hlast Hraw Hout.
  destruct (run_config_rounded (__init__ limits mv dz tmo t0) cs) as (_ & Emv & Edz & Een).
  fold f in Emv, Edz, Een. cbn in Emv, Edz, Een.
  destruct (filter_action_some_rounded f now action out Een Hout) as (_ & ->).
  exists (SafetyFilter64.filter_value f key raw). rewrite lookup_filtered_rounded, Hraw.
  split; [done|]. rewrite <- Emv, <- Edz. split.
  - apply filter_value_step; [by rewrite Emv|done].
  - intros Hfar. rewrite (filter_value_capped f key raw prev Hlast Hfar).
    destruct (Py.ltb _ (deadzone f)) eqn:Hdead; [right|by left].
    split; [done|]. by apply ltb_true.
Qed.

Lemma velocity_limited_up_to_rounding_witness :
  exists v,
    ({[ "j" := Binary64.add (Binary64.round (503 # 1000)) ((1 # 2) * 1) ]}
       : gmap string Q) !! "j" = Some v
    /\ Qabs (v - Binary64.round (503 # 1000))
       <= (1 # 2) * (1 + 2 * Binary64.epsilon)
          + Binary64.epsilon * Qabs (Binary64.round (503 # 1000))
          + 2 * Binary64.tiny
    /\ (1 # 2
        < Qabs (Binary64.sub
                  (clamp (SafetyFilter64.run
                            (__init__ None (1 # 2) (Binary64.round (1 # 1000)) 500 0)
                            [FilterAction 1 {[ "j" := Binary64.round (503 # 1000) ]}]).2
                         "j" 2)
                  (Binary64.round (503 # 1000))) ->
        v = Binary64.add (Binary64.round (503 # 1000))
              ((1 # 2)
               * direction
                   (Binary64.sub
                      (clamp (SafetyFilter64.run
                                (__init__ None (1 # 2) (Binary64.round (1 # 1000)) 500 0)
                                [FilterAction 1 {[ "j" := Binary64.round (503 # 1000) ]}]).2
                             "j" 2)
                      (Binary64.round (503 # 1000))))
        \/ (v = Binary64.round (503 # 1000)
            /\ Qabs (Binary64.sub
                       (Binary64.add (Binary64.round (503 # 1000))
                          ((1 # 2)
                           * direction
                               (Binary64.sub
                                  (clamp (SafetyFilter64.run
                                            (__init__ None (1 # 2)
                                               (Binary64.round (1 # 1000)) 500 0)
                                            [FilterAction 1
                                               {[ "j" := Binary64.round (503 # 1000) ]}]).2
                                         "j" 2)
                                  (Binary64.round (503 # 1000)))))
                       (Binary64.round (503 # 1000)))
               < Binary64.round (1 # 1000))).
Proof.
  apply (velocity_limited_up_to_rounding
           None (1 # 2) (Binary64.round (1 # 1000)) 500 0
           [FilterAction 1 {[ "j" := Binary64.round (503 # 1000) ]}]
           2 {[ "j" := 2 ]}
           {[ "j" := Binary64.add (Binary64.round (503 # 1000)) ((1 # 2) * 1) ]}
           "j" (Binary64.round (503 # 1000)) 2).
  - vm_compute. discriminate.
  - vm_compute. reflexivity.
  - vm_compute. reflexivity.
  - vm_compute. reflexivity.
Defined.



(** C9.  [reset()] clears the emergency-stop flag and the recorded values, and
    the first [filter_action] after it returns each input value clamped to its
    joint limits and nothing more: no velocity limit and no deadzone against
    anything emitted before the reset. *)
Theorem reset_forgets_history
    (limits : option (gmap string (Q * Q))) (mv dz tmo t0 : Q) (cs : list call)
    (t now : Q) (action : gmap string Q) :
  _e_stopped (reset (run (__init__ limits mv dz tmo t0) cs).2 t) = false
  /\ _last_action (reset (run (__init__ limits mv dz tmo t0) cs).2 t) = ∅
  /\ (filter_action (reset (run (__init__ limits mv dz tmo t0) cs).2 t) now action).1
     = Some (map_imap
               (fun key value => Some (clamp (__init__ limits mv dz tmo t0) key value))
               action).
Proof.
  split; [done|]. split; [done|].
  destruct (run_config (__init__ limits mv dz tmo t0) cs) as (_ & _ & Een).
  rewrite filter_action_armed by done. cbn [fst]. f_equal.
  apply map_eq. intros key. rewrite !map_lookup_imap.
  destruct (action !! key) as [raw|]; [cbn|done]. f_equal.
  rewrite filter_value_fresh by apply lookup_empty.
  apply clamp_ext. apply (run_limits (__init__ limits mv dz tmo t0) cs).
Qed.

(** C10.  A [filter_action] call that returns a filtered action leaves the
    filter recording exactly that action: the channels of the input and no
    others.  A channel absent from the input has no recorded value afterwards,
    and its next value is only clamped. *)
Theorem memory_replaced_by_filtered_action
    (limits : option (gmap string (Q * Q))) (mv dz tmo t0 : Q) (cs : list call)
    (now : Q) (action out : gmap string Q) :
  let f := (run (__init__ limits mv dz tmo t0) cs).2 in
  let f' := (filter_action f now action).2 in
  (filter_action f now action).1 = Some out ->
  _last_action f' = out
  /\ dom out = dom action
  /\ forall key, action !! key = None ->
       _last_action f' !! key = None
       /\ forall now' action' out' raw,
            action' !! key = Some raw ->
            (filter_action f' now' action').1 = Some out' ->
            out' !! key = Some (clamp f key raw).
Proof.
  intros f f' Hout.
  destruct (run_config (__init__ limits mv dz tmo t0) cs) as (_ & _ & Een).
  fold f in Een. cbn in Een.
  destruct (filter_action_some f now action out Een Hout) as (_ & Eout & Ef').
  fold f' in Ef'.
  assert (Hmem : _last_action f' = out) by (by rewrite Ef').
  assert (Hgone : forall key, action !! key = None -> _last_action f' !! key = None).
  { intros key Hkey. by rewrite Hmem, Eout, lookup_filtered, Hkey. }
  split; [done|]. split.
  - apply set_eq. intros key.
    by rewrite !elem_of_dom, Eout, lookup_filtered, fmap_is_Some.
  - intros key Hkey. split; [by apply Hgone|].
    intros now' action' out' raw Hraw Hout'.
    assert (Een' : _enabled f' = true) by (by rewrite Ef').
    destruct (filter_action_some f' now' action' out' Een' Hout') as (_ & -> & _).
    rewrite lookup_filtered, Hraw. cbn. f_equal.
    rewrite filter_value_fresh by (by apply Hgone).
    apply clamp_ext. by rewrite Ef'.
Qed.

Lemma memory_replaced_by_filtered_action_witness :
  _last_action
    (filter_action
       (run (__init__ None (1 # 2) (1 # 1000) 500 0)
            [FilterAction 1 (<[ "j" := 0 ]> {[ "k" := 0 ]})]).2
       2 {[ "k" := 0 ]}).2 !! "j"
  = None.
Proof.
  apply (memory_replaced_by_filtered_action
           None (1 # 2) (1 # 1000) 500 0
           [FilterAction 1 (<[ "j" := 0 ]> {[ "k" := 0 ]})]
           2 {[ "k" := 0 ]} {[ "k" := 0 ]}).
  - vm_compute. reflexivity.
  - vm_compute. reflexivity.
Defined.

(** * Properties of the robot adapters *)

Module AdapterFacts.
Import Runtime.

Section Adapters.
Context {H : Type} `{!Robot H} {B C : Type} `{!PiperMotorsBus B} `{!Camera C}.

Lemma generic_no_handle_is_disconnected (g : GenericRobotAdapter.t H) :
  GenericRobotAdapter._robot g = None -> GenericRobotAdapter.is_connected g = false.
Proof. unfold GenericRobotAdapter.is_connected. by intros ->. Qed.

Lemma piper_no_handle_is_disconnected (p : PiperRobotAdapter.t B C) :
  PiperRobotAdapter._robot p = None -> PiperRobotAdapter.is_connected p = false.
Proof. unfold PiperRobotAdapter.is_connected. by intros ->. Qed.

Lemma generic_emergency_stop_idle (g : GenericRobotAdapter.t H) :
  GenericRobotAdapter._robot g = None ->
  GenericRobotAdapter.emergency_stop g = (Returns tt, g, []).
Proof. unfold GenericRobotAdapter.emergency_stop. by intros ->. Qed.

Lemma piper_emergency_stop_idle (p : PiperRobotAdapter.t B C) :
  PiperRobotAdapter._robot p = None ->
  PiperRobotAdapter.emergency_stop p = (Returns tt, p, []).
Proof. unfold PiperRobotAdapter.emergency_stop. by intros ->. Qed.

(** The generic adapter drops its handle on every path. *)
Lemma generic_emergency_stop_releases (g : GenericRobotAdapter.t H) :
  GenericRobotAdapter._robot (GenericRobotAdapter.emergency_stop g).1.2 = None.
Proof.
  unfold GenericRobotAdapter.emergency_stop.
  destruct (GenericRobotAdapter._robot g) as [r|] eqn:Hr; [|done].
  by destruct (robot_disconnect r) as [[[]|[c msg|c]] r'].
Qed.

(** The Piper adapter, when it returns, has dropped its handle or has left
    the adapter as it was because the bus object is falsy. *)
Lemma piper_emergency_stop_returns (p p' : PiperRobotAdapter.t B C) log :
  PiperRobotAdapter.emergency_stop p = (Returns tt, p', log) ->
  PiperRobotAdapter._robot p' = None
  \/ (p' = p /\ log = []
      /\ exists r, PiperRobotAdapter._robot p = Some r
                   /\ bus_truthy (PiperFollower.bus r) = false).
Proof.
  unfold PiperRobotAdapter.emergency_stop.
  destruct (PiperRobotAdapter._robot p) as [r|] eqn:Hr.
  - destruct (bus_truthy (PiperFollower.bus r)) eqn:Hbus.
    + destruct (piper_DisableArm (PiperFollower.bus r) 7) as [[[]|[c msg|c]] b1];
        [|intros ?; simplify_eq; by left|done].
      destruct (piper_GripperCtrl b1 0 1000 2 0) as [[[]|[c msg|c]] b2];
        [intros ?; simplify_eq; by left..|done].
    + intros ?; simplify_eq. right. eauto.
  - intros ?; simplify_eq. by left.
Qed.

End Adapters.

End AdapterFacts.

Import Runtime AdapterFacts.

(** C5, as stated, fails.  An adapter that is not connected may still hold a
    robot object: [connect] stores the object before calling its [connect()],
    so a connection that fails on the bus leaves [is_connected] false and
    [_robot] set.  [send_action] then passes the action on, and
    [PiperFollower.send_action] raises [DeviceNotConnectedError].  This is so
    for the Piper adapter and for the generic adapter wrapping the same
    robot. *)
Lemma send_action_raises_after_failed_connect :
  (PiperRobotAdapter.connect PiperRobotAdapter.__init__ "can_slave1"
     (Returns (Scripted.dead_bus, []))
   = (Raises Scripted.bus_down, Scripted.stranded_piper, [])
   /\ PiperRobotAdapter.is_connected Scripted.stranded_piper = false
   /\ (PiperRobotAdapter.send_action Scripted.stranded_piper {[ "a" := 1%Q ]}).1
      = Raises (Exception "DeviceNotConnectedError" "Piper is not connected."))
  /\ (GenericRobotAdapter.connect GenericRobotAdapter.__init__ "piper_follower"
        (Returns (PiperFollower.__init__ Scripted.dead_bus []))
      = (Raises Scripted.bus_down, Scripted.stranded_generic, [])
      /\ GenericRobotAdapter.is_connected Scripted.stranded_generic = false
      /\ (GenericRobotAdapter.send_action Scripted.stranded_generic {[ "a" := 1%Q ]}).1
         = Raises (Exception "DeviceNotConnectedError" "Piper is not connected.")).
Proof. repeat split. Qed.

(** C5, amended.  A robot adapter, generic or Piper, that holds no robot
    object returns from [send_action] the action it was given, unchanged, and
    raises nothing; the adapter is left as it was. *)
Theorem send_action_without_handle
    {H : Type} `{!Robot H} {B C : Type} `{!PiperMotorsBus B} `{!Camera C}
    (g : GenericRobotAdapter.t H) (p : PiperRobotAdapter.t B C)
    (action : gmap string Q) :
  (GenericRobotAdapter._robot g = None ->
   GenericRobotAdapter.send_action g action = (Returns action, g))
  /\ (PiperRobotAdapter._robot p = None ->
      PiperRobotAdapter.send_action p action = (Returns action, p)).
Proof.
  split; intros Hnone.
  - unfold GenericRobotAdapter.send_action. by rewrite Hnone.
  - unfold PiperRobotAdapter.send_action. by rewrite Hnone.
Qed.

Lemma send_action_without_handle_witness :
  GenericRobotAdapter.send_action
    (GenericRobotAdapter.__init__ (H := Scripted.robot)) {[ "a" := 1%Q ]}
  = (Returns {[ "a" := 1%Q ]}, GenericRobotAdapter.__init__)
  /\ PiperRobotAdapter.send_action
       (PiperRobotAdapter.__init__ (B := Scripted.bus) (C := Scripted.camera)) {[ "a" := 1%Q ]}
     = (Returns {[ "a" := 1%Q ]}, PiperRobotAdapter.__init__).
Proof.
  split.
  - apply (send_action_without_handle
             GenericRobotAdapter.__init__ (PiperRobotAdapter.__init__ (B := Scripted.bus) (C := Scripted.camera))).
    reflexivity.
  - apply (send_action_without_handle
             (GenericRobotAdapter.__init__ (H := Scripted.robot)) PiperRobotAdapter.__init__).
    reflexivity.
Defined.

(** C8, as stated, fails for the same reason as C5: after a [connect] that
    failed on the bus the generic adapter is not connected but holds the
    robot object, [get_state] asks it for an observation, and
    [PiperFollower.get_observation] raises [DeviceNotConnectedError]. *)
Lemma get_state_raises_after_failed_connect :
  GenericRobotAdapter.connect GenericRobotAdapter.__init__ "piper_follower"
    (Returns (PiperFollower.__init__ Scripted.dead_bus []))
  = (Raises Scripted.bus_down, Scripted.stranded_generic, [])
  /\ GenericRobotAdapter.is_connected Scripted.stranded_generic = false
  /\ (GenericRobotAdapter.get_state Scripted.stranded_generic).1
     = Raises (Exception "DeviceNotConnectedError"
                 "Piper is not connected. Run `robot.connect()` first.").
Proof. repeat split. Qed.

(** C8, amended.  A robot adapter, generic or Piper, that holds no robot
    object returns the empty mapping from [get_state] and raises nothing. *)
Theorem get_state_without_handle
    {H : Type} `{!Robot H} {B C : Type} `{!PiperMotorsBus B} `{!Camera C}
    (g : GenericRobotAdapter.t H) (p : PiperRobotAdapter.t B C) :
  (GenericRobotAdapter._robot g = None ->
   GenericRobotAdapter.get_state g = (Returns ∅, g))
  /\ (PiperRobotAdapter._robot p = None ->
      PiperRobotAdapter.get_state p = (Returns ∅, p)).
Proof.
  split; intros Hnone.
  - unfold GenericRobotAdapter.get_state. by rewrite Hnone.
  - unfold PiperRobotAdapter.get_state. by rewrite Hnone.
Qed.

Lemma get_state_without_handle_witness :
  GenericRobotAdapter.get_state (GenericRobotAdapter.__init__ (H := Scripted.robot))
  = (Returns ∅, GenericRobotAdapter.__init__)
  /\ PiperRobotAdapter.get_state (PiperRobotAdapter.__init__ (B := Scripted.bus) (C := Scripted.camera))
     = (Returns ∅, PiperRobotAdapter.__init__).
Proof.
  split.
  - apply (get_state_without_handle
             GenericRobotAdapter.__init__ (PiperRobotAdapter.__init__ (B := Scripted.bus) (C := Scripted.camera))).
    reflexivity.
  - apply (get_state_without_handle
             (GenericRobotAdapter.__init__ (H := Scripted.robot)) PiperRobotAdapter.__init__).
    reflexivity.
Defined.

(** C6.  When [emergency_stop()] returns, the adapter holds no robot object
    and [is_connected] is false, whatever the disconnect call or the bus
    commands did, raising included.  For the Piper adapter this is under the
    premise of its guard, that the bus object of the robot it holds is
    truthy. *)
Theorem emergency_stop_disconnects
    {H : Type} `{!Robot H} {B C : Type} `{!PiperMotorsBus B} `{!Camera C}
    (g g' : GenericRobotAdapter.t H) (p p' : PiperRobotAdapter.t B C)
    (log : list log_record) :
  (GenericRobotAdapter.emergency_stop g = (Returns tt, g', log) ->
   GenericRobotAdapter._robot g' = None
   /\ GenericRobotAdapter.is_connected g' = false)
  /\ ((forall r, PiperRobotAdapter._robot p = Some r ->
                 bus_truthy (PiperFollower.bus r) = true) ->
      PiperRobotAdapter.emergency_stop p = (Returns tt, p', log) ->
      PiperRobotAdapter._robot p' = None
      /\ PiperRobotAdapter.is_connected p' = false).
Proof.
  split.
  - intros Hstop.
    pose proof (generic_emergency_stop_releases g) as Hnone.
    rewrite Hstop in Hnone. cbn in Hnone.
    split; [done|]. by apply generic_no_handle_is_disconnected.
  - intros Hbus Hstop.
    destruct (piper_emergency_stop_returns p p' log Hstop)
      as [Hnone|(_ & _ & r & Hr & Hfalsy)].
    + split; [done|]. by apply piper_no_handle_is_disconnected.
    + rewrite (Hbus r Hr) in Hfalsy. discriminate.
Qed.

Lemma emergency_stop_disconnects_witness :
  (GenericRobotAdapter.emergency_stop
     (GenericRobotAdapter.mk (Some Scripted.stuck_robot) "so100_follower")
   = (Returns tt, GenericRobotAdapter.mk None "so100_follower",
      [(ERROR, "Emergency stop error: port is busy")])
   /\ PiperRobotAdapter.emergency_stop Scripted.failing_piper
      = (Returns tt, PiperRobotAdapter.mk None,
         [(ERROR, "E-STOP error: CAN bus is down")]))
  /\ (GenericRobotAdapter._robot
        (GenericRobotAdapter.mk (H := Scripted.robot) None "so100_follower") = None
      /\ GenericRobotAdapter.is_connected
           (GenericRobotAdapter.mk (H := Scripted.robot) None "so100_follower") = false)
  /\ (PiperRobotAdapter._robot (PiperRobotAdapter.mk (B := Scripted.bus) (C := Scripted.camera) None) = None
      /\ PiperRobotAdapter.is_connected (PiperRobotAdapter.mk (B := Scripted.bus) (C := Scripted.camera) None)
         = false).
Proof.
  pose proof (emergency_stop_disconnects
                (GenericRobotAdapter.mk (Some Scripted.stuck_robot) "so100_follower")
                (GenericRobotAdapter.mk None "so100_follower")
                Scripted.failing_piper (PiperRobotAdapter.mk None)
                [(ERROR, "Emergency stop error: port is busy")]) as [Hgeneric _].
  pose proof (emergency_stop_disconnects
                (GenericRobotAdapter.mk (Some Scripted.stuck_robot) "so100_follower")
                (GenericRobotAdapter.mk None "so100_follower")
                Scripted.failing_piper (PiperRobotAdapter.mk None)
                [(ERROR, "E-STOP error: CAN bus is down")]) as [_ Hpiper].
  split; [split; reflexivity|]. split.
  - apply Hgeneric. reflexivity.
  - apply Hpiper.
    + intros r [= <-]. reflexivity.
    + reflexivity.
Defined.

(** C7.  A second [emergency_stop()] straight after one that returned does
    nothing: it returns without raising, logs nothing and leaves the adapter
    as the first call left it.  The same holds for any adapter that holds no
    robot object. *)
Theorem emergency_stop_twice
    {H : Type} `{!Robot H} {B C : Type} `{!PiperMotorsBus B} `{!Camera C}
    (g g' : GenericRobotAdapter.t H) (p p' : PiperRobotAdapter.t B C)
    (log : list log_record) :
  (GenericRobotAdapter.emergency_stop g = (Returns tt, g', log) ->
   GenericRobotAdapter.emergency_stop g' = (Returns tt, g', []))
  /\ (PiperRobotAdapter.emergency_stop p = (Returns tt, p', log) ->
      PiperRobotAdapter.emergency_stop p' = (Returns tt, p', []))
  /\ (GenericRobotAdapter._robot g = None ->
      GenericRobotAdapter.emergency_stop g = (Returns tt, g, []))
  /\ (PiperRobotAdapter._robot p = None ->
      PiperRobotAdapter.emergency_stop p = (Returns tt, p, [])).
Proof.
  repeat split.
  - intros Hstop. apply generic_emergency_stop_idle.
    pose proof (generic_emergency_stop_releases g) as Hnone.
    by rewrite Hstop in Hnone.
  - intros Hstop.
    destruct (piper_emergency_stop_returns p p' log Hstop)
      as [Hnone|(-> & -> & _)]; [by apply piper_emergency_stop_idle|done].
  - apply generic_emergency_stop_idle.
  - apply piper_emergency_stop_idle.
Qed.

Lemma emergency_stop_twice_witness :
  (GenericRobotAdapter.emergency_stop
     (GenericRobotAdapter.mk (Some Scripted.stuck_robot) "so100_follower")
   = (Returns tt, GenericRobotAdapter.mk None "so100_follower",
      [(ERROR, "Emergency stop error: port is busy")])
   /\ PiperRobotAdapter.emergency_stop Scripted.failing_piper
      = (Returns tt, PiperRobotAdapter.mk None,
         [(ERROR, "E-STOP error: CAN bus is down")]))
  /\ GenericRobotAdapter.emergency_stop
       (GenericRobotAdapter.mk (H := Scripted.robot) None "so100_follower")
     = (Returns tt, GenericRobotAdapter.mk None "so100_follower", [])
  /\ PiperRobotAdapter.emergency_stop (PiperRobotAdapter.mk (B := Scripted.bus) (C := Scripted.camera) None)
     = (Returns tt, PiperRobotAdapter.mk None, []).
Proof.
  pose proof (emergency_stop_twice
                (GenericRobotAdapter.mk (Some Scripted.stuck_robot) "so100_follower")
                (GenericRobotAdapter.mk None "so100_follower")
                Scripted.failing_piper (PiperRobotAdapter.mk None)
                [(ERROR, "Emergency stop error: port is busy")]) as (Hgeneric & _).
  pose proof (emergency_stop_twice
                (GenericRobotAdapter.mk (Some Scripted.stuck_robot) "so100_follower")
                (GenericRobotAdapter.mk None "so100_follower")
                Scripted.failing_piper (PiperRobotAdapter.mk None)
                [(ERROR, "E-STOP error: CAN bus is down")]) as (_ & Hpiper & _).
  split; [split; reflexivity|]. split.
  - apply Hgeneric. reflexivity.
  - apply Hpiper. reflexivity.
Defined.

(** * Further properties of the safety filter *)

Module MoreFilterFacts.
Import SafetyFilter FilterTerms SafetyFilterFacts FilterCalls.
Local Open Scope Q_scope.

Lemma check_timeout_later f t t' :
  check_timeout f t = true -> t <= t' -> check_timeout f t' = true.
Proof.
  unfold check_timeout, Py.gtb. rewrite !ltb_true. intros; lra.
Qed.

Lemma quiet_step_time f c :
  quiet c = true ->
  _last_input_time (step f c).2 = _last_input_time f
  /\ timeout_ms (step f c).2 = timeout_ms f.
Proof. by destruct c. Qed.

Lemma quiet_run_time f cs :
  forallb quiet cs = true ->
  _last_input_time (run f cs).2 = _last_input_time f
  /\ timeout_ms (run f cs).2 = timeout_ms f.
Proof.
  revert f. induction cs as [|c cs IH]; intros f Hq; [done|].
  cbn [forallb] in Hq. apply andb_true_iff in Hq as [Hc Hcs].
  rewrite run_cons. cbn [snd].
  destruct (IH (step f c).2 Hcs) as [-> ->]. by apply quiet_step_time.
Qed.

Lemma attempts_while_tripped f cs :
  _e_stopped f = true -> forallb attempt cs = true -> (run f cs).2 = f.
Proof.
  intros Hstop. induction cs as [|c cs IH]; intros Hcs; [done|].
  cbn [forallb] in Hcs. apply andb_true_iff in Hcs as [Hc Hcs].
  rewrite run_cons. cbn [snd].
  assert ((step f c).2 = f) as ->; [|by apply IH].
  destruct c as [now action| | |]; cbn; try done.
  by rewrite filter_action_blocked.
Qed.

Lemma step_timeout f c : timeout_ms (step f c).2 = timeout_ms f.
Proof.
  destruct c as [now action| | |]; cbn; try done.
  unfold filter_action. destruct (_e_stopped f); [done|].
  by destruct (_enabled f).
Qed.

Lemma run_timeout f cs : timeout_ms (run f cs).2 = timeout_ms f.
Proof.
  revert f. induction cs as [|c cs IH]; intros f; [done|].
  rewrite run_cons. cbn [snd]. by rewrite IH, step_timeout.
Qed.

(** ** One value against the recorded one *)

Lemma filter_value_between f key raw prev :
  0 <= max_velocity f -> _last_action f !! key = Some prev ->
  (prev <= filter_value f key raw /\ filter_value f key raw <= clamp f key raw)
  \/ (clamp f key raw <= filter_value f key raw /\ filter_value f key raw <= prev).
Proof.
  intros Hmv Hlast. unfold filter_value, dead_zone, velocity_limit.
  rewrite Hlast. generalize (clamp f key raw). intros c.
  cmp_cases; lra.
Qed.

(** ** Sessions of the teleoperation page *)

Lemma session_cons f e es :
  TeleopPage.session f (e :: es)
  = ((TeleopPage.handle f e).1 ++ (TeleopPage.session (TeleopPage.handle f e).2 es).1,
     (TeleopPage.session (TeleopPage.handle f e).2 es).2).
Proof.
  cbn [TeleopPage.session]. destruct (TeleopPage.handle f e) as [rs f']. cbn [fst snd].
  by destruct (TeleopPage.session f' es).
Qed.

Lemma handle_limits f e : joint_limits (TeleopPage.handle f e).2 = joint_limits f.
Proof.
  destruct e as [c|]; cbn; [|done].
  pose proof (step_limits f c). by destruct (step f c).
Qed.

Lemma handle_inv f e : TeleopPage.sane e = true -> inv f -> inv (TeleopPage.handle f e).2.
Proof.
  destruct e as [c|mv' dz' tmo']; cbn.
  - intros _ Hinv. pose proof (step_inv f c Hinv). by destruct (step f c).
  - intros Hsane%Qle_bool_iff (_ & Hen & Hs). by repeat split.
Qed.

Lemma handle_replies_settled f e i out key v :
  inv f -> (TeleopPage.handle f e).1 !! i = Some (Filtered (Some out)) ->
  out !! key = Some v -> clamp f key v == v.
Proof.
  intros Hinv. destruct e as [c|]; cbn; [|done].
  destruct c as [now action| | |]; cbn; try by destruct i as [|[|]].
  pose proof (filtered_settled f now action out key v Hinv) as E.
  destruct (filter_action f now action) as [r f']. cbn in *.
  destruct i as [|[|]]; cbn; try done. intros [= ->]. by apply E.
Qed.

Lemma session_replies_settled f es i out key v :
  forallb TeleopPage.sane es = true -> inv f ->
  (TeleopPage.session f es).1 !! i = Some (Filtered (Some out)) ->
  out !! key = Some v -> clamp f key v == v.
Proof.
  revert f i. induction es as [|e es IH]; intros f i Hsane Hinv; [done|].
  cbn [forallb] in Hsane. apply andb_true_iff in Hsane as [He Hes].
  rewrite session_cons. cbn [fst]. intros Hi Hout.
  apply lookup_app_Some in Hi as [Hi|[_ Hi]].
  - by apply (handle_replies_settled f e i out).
  - rewrite <- (clamp_ext (TeleopPage.handle f e).2) by apply handle_limits.
    eapply IH; [done|by apply handle_inv|done..].
Qed.

End MoreFilterFacts.

Import MoreFilterFacts FilterCalls.

(** X1.  The watchdog does not recover by itself: once [check_timeout] is true
    it is true at every later time, also after any calls of [set_e_stop] and
    [check_timeout]. *)
Theorem watchdog_stays_expired
    (f : t) (cs : list call) (t t' : Q) :
  check_timeout f t = true ->
  t <= t' ->
  forallb quiet cs = true ->
  check_timeout (run f cs).2 t' = true.
Proof.
  intros Hout Hle Hq.
  destruct (quiet_run_time f cs Hq) as [Htime Htmo].
  unfold check_timeout in *. rewrite Htime, Htmo.
  by apply (check_timeout_later f t t').
Qed.

Lemma watchdog_stays_expired_witness :
  check_timeout
    (run (__init__ None (1 # 2) (1 # 1000) 500 0)
         [SetEStop true; CheckTimeout 1; SetEStop false]).2 2
  = true.
Proof.
  apply (watchdog_stays_expired _ _ 1 2).
  - vm_compute. reflexivity.
  - vm_compute. discriminate.
  - vm_compute. reflexivity.
Defined.

(** X2.  Tripping and releasing the emergency stop loses nothing: while the
    flag is set, attempts to filter and watchdog checks leave the filter as it
    is, and [set_e_stop(False)] then gives back the filter of before the trip,
    with the recorded values and the time of the last input. *)
Theorem trip_and_release_restores
    (f : t) (cs : list call) :
  _e_stopped f = false ->
  forallb attempt cs = true ->
  set_e_stop (run (set_e_stop f true) cs).2 false = f.
Proof.
  intros Harmed Hcs.
  rewrite attempts_while_tripped by done.
  destruct f. cbn in *. by subst.
Qed.

Lemma trip_and_release_restores_witness :
  set_e_stop
    (run (set_e_stop (run (__init__ None (1 # 2) (1 # 1000) 500 0)
                          [FilterAction 1 {[ "j" := 10 ]}]).2 true)
         [FilterAction 2 {[ "j" := 20 ]}; CheckTimeout 3]).2 false
  = (run (__init__ None (1 # 2) (1 # 1000) 500 0)
         [FilterAction 1 {[ "j" := 10 ]}]).2.
Proof.
  apply trip_and_release_restores.
  - vm_compute. reflexivity.
  - vm_compute. reflexivity.
Defined.

(** X3.  A [filter_action] that returns an action restarts the watchdog at the
    time of the call: afterwards [check_timeout] at time [now'] is true exactly
    when more than [timeout_ms] milliseconds separate [now'] from that call. *)
Theorem filtered_action_restarts_watchdog
    (limits : option (gmap string (Q * Q))) (mv dz tmo t0 : Q) (cs : list call)
    (now now' : Q) (action out : gmap string Q) :
  let f := (run (__init__ limits mv dz tmo t0) cs).2 in
  (filter_action f now action).1 = Some out ->
  check_timeout (filter_action f now action).2 now'
  = Py.gtb ((now' - now) * 1000) tmo.
Proof.
  intros f Hout.
  destruct (run_config (__init__ limits mv dz tmo t0) cs) as (_ & _ & Een).
  fold f in Een. cbn in Een.
  destruct (filter_action_some f now action out Een Hout) as (_ & _ & ->).
  unfold check_timeout. cbn. unfold f.
  by rewrite (run_timeout (__init__ limits mv dz tmo t0) cs).
Qed.

Lemma filtered_action_restarts_watchdog_witness :
  check_timeout
    (filter_action (run (__init__ None (1 # 2) (1 # 1000) 500 0) [CheckTimeout 9]).2
                   10 {[ "j" := 1 ]}).2 (21 # 2)
  = Py.gtb (((21 # 2) - 10) * 1000) 500.
Proof.
  apply (filtered_action_restarts_watchdog
           None (1 # 2) (1 # 1000) 500 0 [CheckTimeout 9] 10 (21 # 2)
           {[ "j" := 1 ]} {[ "j" := 1 ]}).
  vm_compute. reflexivity.
Defined.

(** X4.  Sending back what the filter has just returned changes nothing: with
    a velocity limit that is not negative and a positive deadzone, the filter
    returns that same action again. *)
Theorem filtered_action_is_held
    (limits : option (gmap string (Q * Q))) (mv dz tmo t0 : Q) (cs : list call)
    (now now' : Q) (action out : gmap string Q) :
  let f := (run (__init__ limits mv dz tmo t0) cs).2 in
  0 <= mv -> 0 < dz ->
  (filter_action f now action).1 = Some out ->
  (filter_action (filter_action f now action).2 now' out).1 = Some out.
Proof.
  intros f Hmv Hdz Hout.
  destruct (run_config (__init__ limits mv dz tmo t0) cs) as (Emv & Edz & Een).
  fold f in Emv, Edz, Een. cbn in Emv, Edz, Een.
  assert (Hinv : inv f) by (apply run_inv; by apply inv_init).
  pose proof (filter_action_inv f now action Hinv) as (_ & _ & Hs').
  destruct (filter_action_some f now action out Een Hout) as (_ & _ & Ef').
  rewrite Ef' in *. rewrite filter_action_armed by done. cbn [fst]. f_equal.
  apply map_eq. intros key. rewrite lookup_filtered.
  destruct (out !! key) as [v|] eqn:Hv; [cbn|done]. f_equal.
  apply filter_value_deadzone; cbn [max_velocity deadzone _last_action];
    [by rewrite Emv|done|by apply Hs'|].
  rewrite Edz. apply abs_lt. lra.
Qed.

Lemma filtered_action_is_held_witness :
  (filter_action
     (filter_action (run (__init__ None (1 # 2) (1 # 1000) 500 0)
                         [FilterAction 1 {[ "j" := 10 ]}]).2
                    2 {[ "j" := 12 ]}).2
     3 {[ "j" := 10 + (1 # 2) * 1 ]}).1
  = Some {[ "j" := 10 + (1 # 2) * 1 ]}.
Proof.
  apply (filtered_action_is_held
           None (1 # 2) (1 # 1000) 500 0 [FilterAction 1 {[ "j" := 10 ]}]
           2 3 {[ "j" := 12 ]} {[ "j" := 10 + (1 # 2) * 1 ]}).
  - vm_compute. discriminate.
  - vm_compute. reflexivity.
  - vm_compute. reflexivity.
Defined.

(** X5.  The filter never overshoots and never moves a channel away from its
    target: with a velocity limit that is not negative, the value emitted for a
    channel lies between the recorded previous value and the clamped input. *)
Theorem filtered_value_between_previous_and_target
    (limits : option (gmap string (Q * Q))) (mv dz tmo t0 : Q) (cs : list call)
    (now : Q) (action out : gmap string Q) (key : string) (prev raw v : Q) :
  let f := (run (__init__ limits mv dz tmo t0) cs).2 in
  0 <= mv ->
  _last_action f !! key = Some prev ->
  action !! key = Some raw ->
  (filter_action f now action).1 = Some out ->
  out !! key = Some v ->
  (prev <= v /\ v <= clamp f key raw) \/ (clamp f key raw <= v /\ v <= prev).
Proof.
  intros f Hmv Hlast Hraw Hout.
  destruct (run_config (__init__ limits mv dz tmo t0) cs) as (Emv & _ & Een).
  fold f in Emv, Een. cbn in Emv, Een.
  destruct (filter_action_some f now action out Een Hout) as (_ & -> & _).
  rewrite lookup_filtered, Hraw. cbn. intros [= <-].
  apply filter_value_between; [by rewrite Emv|done].
Qed.

Lemma filtered_value_between_previous_and_target_witness :
  (10 <= 10 + (1 # 2) * 1
   /\ 10 + (1 # 2) * 1
      <= clamp (run (__init__ None (1 # 2) (1 # 1000) 500 0)
                    [FilterAction 1 {[ "j" := 10 ]}]).2 "j" 12)
  \/ (clamp (run (__init__ None (1 # 2) (1 # 1000) 500 0)
                 [FilterAction 1 {[ "j" := 10 ]}]).2 "j" 12
      <= 10 + (1 # 2) * 1
      /\ 10 + (1 # 2) * 1 <= 10).
Proof.
  apply (filtered_value_between_previous_and_target
           None (1 # 2) (1 # 1000) 500 0 [FilterAction 1 {[ "j" := 10 ]}]
           2 {[ "j" := 12 ]} {[ "j" := 10 + (1 # 2) * 1 ]} "j" 10 12).
  - vm_compute. discriminate.
  - vm_compute. reflexivity.
  - vm_compute. reflexivity.
  - vm_compute. reflexivity.
  - vm_compute. reflexivity.
Defined.

Module StallFacts.
Import SafetyFilter64.

(** An armed filter with the settings of [g]. *)
Definition armed_as (g f : t) : Prop :=
  joint_limits f = joint_limits g /\ max_velocity f = max_velocity g
  /\ deadzone f = deadzone g /\ _enabled f = true /\ _e_stopped f = false.

(** While the limited step of a channel falls within the dead zone, each
    resend answers the recorded value and records it again. *)
Lemma resend_blocked (g : t) (action : gmap string Q) (key : string) (prev raw : Q) :
  action !! key = Some raw ->
  max_velocity g < Qabs (Binary64.sub (clamp g key raw) prev) ->
  Qabs (Binary64.sub
          (Binary64.add prev
             (max_velocity g * direction (Binary64.sub (clamp g key raw) prev)))
          prev)
  < deadzone g ->
  forall times f,
    armed_as g f ->
    _last_action f !! key = Some prev ->
    emitted key (run f (resend action times)).1 = replicate (length times) prev
    /\ _last_action (run f (resend action times)).2 !! key = Some prev.
Proof.
  intros Hraw Hfar Hdead. induction times as [|now times IH]; intros f Hf Hlast; [done|].
  destruct Hf as (HL & Emv & Edz & Hen & Hstop).
  cbn [resend fmap list_fmap]. rewrite run_cons_rounded. cbn [fst snd step].
  rewrite filter_action_armed_rounded by done. cbn [fst snd].
  assert (Hvalue : filter_value f key raw = prev).
  { rewrite (filter_value_capped f key raw prev Hlast);
      rewrite (clamp_ext f g) by done; rewrite Emv; [|done].
    rewrite Edz. by rewrite (proj2 (ltb_true _ _) Hdead). }
  assert (Hout : map_imap (fun key value => Some (filter_value f key value)) action !! key
                 = Some prev).
  { by rewrite lookup_filtered_rounded, Hraw, <- Hvalue. }
  destruct (IH (mk (joint_limits f) (max_velocity f) (deadzone f) (timeout_ms f)
                   (map_imap (fun key value => Some (filter_value f key value)) action)
                   now true false)) as [Hemitted Hrecorded]; [done|done|].
  split; [|done]. cbn [emitted length replicate]. rewrite Hout. by f_equal.
Qed.

End StallFacts.

Import StallFacts.

(** X6.  The velocity limit can block a channel for good.  With the
    arithmetic of floats: when the delta that the code computes for a channel
    exceeds the limit and the limited step, as rounded, is within the deadzone
    of the recorded value, an armed filter answers the recorded value, and it
    does so again however often the action is resent: the channel never
    leaves the recorded value. *)
Theorem blocked_channel_stays_blocked
    (f : t) (action : gmap string Q) (key : string) (prev raw : Q) (times : list Q) :
  _e_stopped f = false -> _enabled f = true ->
  _last_action f !! key = Some prev ->
  action !! key = Some raw ->
  max_velocity f < Qabs (Binary64.sub (clamp f key raw) prev) ->
  Qabs (Binary64.sub
          (Binary64.add prev
             (max_velocity f * direction (Binary64.sub (clamp f key raw) prev)))
          prev)
  < deadzone f ->
  emitted key (SafetyFilter64.run f (resend action times)).1
  = replicate (length times) prev
  /\ _last_action (SafetyFilter64.run f (resend action times)).2 !! key = Some prev.
Proof.
  intros Hstop Hen Hlast Hraw Hfar Hdead.
  by apply (resend_blocked f action key prev raw Hraw Hfar Hdead times f).
Qed.

Lemma blocked_channel_stays_blocked_witness :
  emitted "j"
    (SafetyFilter64.run
       (SafetyFilter64.run
          (__init__ None (Binary64.round (1 # 10)) (Binary64.round (1 # 10)) 500 0)
          [FilterAction 1 {[ "j" := Binary64.round (7 # 10) ]}]).2
       (resend {[ "j" := 2 ]} [2; 3; 4; 5; 6])).1
  = replicate 5 (Binary64.round (7 # 10))
  /\ _last_action
       (SafetyFilter64.run
          (SafetyFilter64.run
             (__init__ None (Binary64.round (1 # 10)) (Binary64.round (1 # 10)) 500 0)
             [FilterAction 1 {[ "j" := Binary64.round (7 # 10) ]}]).2
          (resend {[ "j" := 2 ]} [2; 3; 4; 5; 6])).2 !! "j"
     = Some (Binary64.round (7 # 10)).
Proof.
  apply (blocked_channel_stays_blocked
           (SafetyFilter64.run
              (__init__ None (Binary64.round (1 # 10)) (Binary64.round (1 # 10)) 500 0)
              [FilterAction 1 {[ "j" := Binary64.round (7 # 10) ]}]).2
           {[ "j" := 2 ]} "j" (Binary64.round (7 # 10)) 2 [2; 3; 4; 5; 6]).
  - vm_compute. reflexivity.
  - vm_compute. reflexivity.
  - vm_compute. reflexivity.
  - vm_compute. reflexivity.
  - vm_compute. reflexivity.
  - vm_compute. reflexivity.
Defined.

(** X7.  Changing the spin boxes of the teleoperation page during a session
    does not let a value out of its range: for a newly constructed filter
    whose velocity limit, and every velocity limit set later through
    [_update_safety], is not negative, every value emitted for a channel with
    limits [lo <= hi] lies within them. *)
Theorem session_values_within_limits
    (limits : option (gmap string (Q * Q))) (mv dz tmo t0 : Q)
    (es : list TeleopPage.event) (i : nat) (out : gmap string Q)
    (key : string) (v lo hi : Q) :
  0 <= mv ->
  forallb TeleopPage.sane es = true ->
  joint_limits (__init__ limits mv dz tmo t0) !! joint_name key = Some (lo, hi) ->
  lo <= hi ->
  (TeleopPage.session (__init__ limits mv dz tmo t0) es).1 !! i
  = Some (Filtered (Some out)) ->
  out !! key = Some v ->
  lo <= v /\ v <= hi.
Proof.
  intros Hmv Hsane Hlim Hle Hi Hout.
  apply (settled_in_range (__init__ limits mv dz tmo t0) key); [|done..].
  eapply session_replies_settled; [done|by apply inv_init|done..].
Qed.

Lemma session_values_within_limits_witness :
  - (8 # 5) <= 1 + 2 * -1 /\ 1 + 2 * -1 <= 8 # 5.
Proof.
  apply (session_values_within_limits
           (Some {[ "joint_1" := (- (8 # 5), 8 # 5) ]}) (1 # 2) (1 # 1000) 500 0
           [TeleopPage.Call (FilterAction 1 {[ "joint_1.pos" := 1 ]});
            TeleopPage.UpdateSafety 2 (1 # 100) 1000;
            TeleopPage.Call (FilterAction 2 {[ "joint_1.pos" := - 5 ]})]
           1 {[ "joint_1.pos" := 1 + 2 * -1 ]} "joint_1.pos" (1 + 2 * -1)).
  - vm_compute. discriminate.
  - vm_compute. reflexivity.
  - vm_compute. reflexivity.
  - vm_compute. discriminate.
  - vm_compute. reflexivity.
  - vm_compute. reflexivity.
Defined.

(** * Further properties of the robot adapters and of [PiperFollower] *)

Module MoreAdapterFacts.
Import Runtime PyObject.

(** [f"{m}.pos"] determines [m]. *)
Lemma append_suffix_length (s t : string) :
  String.length (String.append s t) = (String.length s + String.length t)%nat.
Proof.
  induction s as [|c s IH]; [done|].
  change (S (String.length (String.append s t))
          = S (String.length s + String.length t)).
  by f_equal.
Qed.

#[global] Instance append_suffix_inj (t : string) :
  Inj (=) (=) (fun s => String.append s t).
Proof.
  intros s1. induction s1 as [|c1 s1 IH]; intros [|c2 s2] Heq.
  - done.
  - apply (f_equal String.length) in Heq.
    rewrite !append_suffix_length in Heq. cbn in Heq. lia.
  - apply (f_equal String.length) in Heq.
    rewrite !append_suffix_length in Heq. cbn in Heq. lia.
  - change (String c1 (String.append s1 t) = String c2 (String.append s2 t)) in Heq.
    injection Heq as -> Heq. f_equal. by apply IH.
Qed.

Lemma nonempty_lookup {A : Type} (d : gmap string A) key v :
  d !! key = Some v -> nonempty d = true.
Proof.
  intros Hkey. unfold nonempty. apply negb_true_iff, Nat.eqb_neq.
  intros Hsize%map_size_empty_iff. by rewrite Hsize, lookup_empty in Hkey.
Qed.

Lemma nonempty_kmap (state : gmap string Q) :
  nonempty (kmap (fun k => String.append k ".pos") state : gmap string Q)
  = nonempty state.
Proof.
  unfold nonempty. f_equal. apply eq_iff_eq_true.
  rewrite !Nat.eqb_eq, !map_size_empty_iff.
  apply (kmap_empty_iff (fun k => String.append k ".pos")).
Qed.

Lemma target_joints_found (action : gmap string Q) motors joints :
  mapM (fun m => action !! String.append m ".pos") motors = Some joints ->
  PiperFollower.target_joints action motors = inr joints.
Proof.
  revert joints. induction motors as [|m motors IH]; intros joints; cbn.
  - by intros [= <-].
  - destruct (action !! String.append m ".pos") as [v|]; [cbn|done].
    destruct (mapM _ motors) as [vs|]; [cbn|done].
    intros [= <-]. by rewrite (IH vs).
Qed.

Lemma target_joints_missing (action : gmap string Q) motors m :
  m ∈ motors -> action !! String.append m ".pos" = None ->
  exists m', m' ∈ motors
             /\ PiperFollower.target_joints action motors
                = inl (String.append m' ".pos").
Proof.
  induction motors as [|m0 motors IH]; intros Hin Hnone; [by apply elem_of_nil in Hin|].
  cbn. destruct (action !! String.append m0 ".pos") as [v|] eqn:Hm0.
  - apply elem_of_cons in Hin as [->|Hin]; [congruence|].
    destruct (IH Hin Hnone) as (m' & Hm' & ->).
    exists m'. split; [by apply list_elem_of_further|done].
  - exists m0. split; [apply list_elem_of_here|done].
Qed.

Lemma reading_as_state (state : gmap string Q) motors :
  mapM (fun m => (kmap (fun k => String.append k ".pos") state : gmap string Q)
                 !! String.append m ".pos") motors
  = mapM (fun m => state !! m) motors.
Proof.
  induction motors as [|m motors IH]; [done|]. cbn.
  rewrite (lookup_kmap (fun k => String.append k ".pos")), IH. done.
Qed.

Section Adapters.
Context {H : Type} `{!Robot H} `{!Truthy H}
        {B C : Type} `{!PiperMotorsBus B} `{!Camera C}.

Lemma generic_disconnect_cases (g : GenericRobotAdapter.t H) :
  (forall c msg, (GenericRobotAdapterRest.disconnect g).1.1 <> Raises (Exception c msg))
  /\ ((forall r, GenericRobotAdapter._robot g = Some r -> truthy r = true) ->
      GenericRobotAdapter._robot (GenericRobotAdapterRest.disconnect g).1.2 = None).
Proof.
  unfold GenericRobotAdapterRest.disconnect.
  destruct (GenericRobotAdapter._robot g) as [r|] eqn:Hr; [|done].
  destruct (truthy r) eqn:Htruthy.
  - by destruct (robot_disconnect r) as [[[]|[c msg|c]] r'].
  - split; [done|]. intros Hall. specialize (Hall r eq_refl). congruence.
Qed.

Lemma piper_disconnect_cases (p : PiperRobotAdapter.t B C) :
  (forall c msg, (PiperRobotAdapterRest.disconnect p).1.1 <> Raises (Exception c msg))
  /\ PiperRobotAdapter._robot (PiperRobotAdapterRest.disconnect p).1.2 = None.
Proof.
  unfold PiperRobotAdapterRest.disconnect.
  destruct (PiperRobotAdapter._robot p) as [r|] eqn:Hr; [|done].
  by destruct (PiperFollower.disconnect r) as [[[]|[c msg|c]] r'].
Qed.

Lemma follower_send_action_found (r : PiperFollower.t B C) action joints :
  PiperFollower._is_connected r = true ->
  PiperFollower.target_joints action PiperFollower.motor_order = inr joints ->
  PiperFollower.send_action r action
  = match bus_write (PiperFollower.bus r) joints with
    | (Returns _, b) => (Returns action, PiperFollower.with_bus r b)
    | (Raises e, b) => (Raises e, PiperFollower.with_bus r b)
    end.
Proof. unfold PiperFollower.send_action. by intros -> ->. Qed.

Lemma follower_send_action_missing (r : PiperFollower.t B C) action key :
  PiperFollower._is_connected r = true ->
  PiperFollower.target_joints action PiperFollower.motor_order = inl key ->
  PiperFollower.send_action r action = (Raises (Exception "KeyError" key), r).
Proof. unfold PiperFollower.send_action. by intros -> ->. Qed.

End Adapters.

End MoreAdapterFacts.

Import MoreAdapterFacts PyObject.

(** X8.  [disconnect()] of either adapter never raises an [Exception] and
    releases the robot object on every path, also when the robot's own
    [disconnect()] raises; afterwards [is_connected] is false.  For the
    generic adapter the release is under the premise of its guard
    [if self._robot], that the robot object is truthy. *)
Theorem disconnect_releases
    {H : Type} `{!Robot H} `{!Truthy H} {B C : Type} `{!PiperMotorsBus B} `{!Camera C}
    (g : GenericRobotAdapter.t H) (p : PiperRobotAdapter.t B C) :
  ((forall c msg,
       (GenericRobotAdapterRest.disconnect g).1.1 <> Raises (Exception c msg))
   /\ ((forall r, GenericRobotAdapter._robot g = Some r -> truthy r = true) ->
       GenericRobotAdapter._robot (GenericRobotAdapterRest.disconnect g).1.2 = None
       /\ GenericRobotAdapter.is_connected (GenericRobotAdapterRest.disconnect g).1.2
          = false))
  /\ ((forall c msg,
         (PiperRobotAdapterRest.disconnect p).1.1 <> Raises (Exception c msg))
      /\ PiperRobotAdapter._robot (PiperRobotAdapterRest.disconnect p).1.2 = None
      /\ PiperRobotAdapter.is_connected (PiperRobotAdapterRest.disconnect p).1.2 = false).
Proof.
  destruct (generic_disconnect_cases g) as [Hg1 Hg2].
  destruct (piper_disconnect_cases p) as [Hp1 Hp2].
  repeat split; try done.
  - by apply Hg2.
  - apply generic_no_handle_is_disconnected. by apply Hg2.
  - by apply piper_no_handle_is_disconnected.
Qed.

Lemma disconnect_releases_witness :
  GenericRobotAdapterRest.disconnect
    (GenericRobotAdapter.mk (Some Scripted.stuck_robot) "so100_follower")
  = (Returns tt, GenericRobotAdapter.mk None "so100_follower",
     [(ERROR, "Disconnect error: port is busy")])
  /\ GenericRobotAdapter._robot
       (GenericRobotAdapterRest.disconnect
          (GenericRobotAdapter.mk (Some Scripted.stuck_robot) "so100_follower")).1.2
     = None.
Proof.
  split; [reflexivity|].
  apply (disconnect_releases
           (GenericRobotAdapter.mk (Some Scripted.stuck_robot) "so100_follower")
           Scripted.stranded_piper).
  intros r _. reflexivity.
Defined.

(** X9.  A [PiperFollower.connect()] that returns was called on an object
    that was not connected, leaves it marked connected and calibrated, and a
    second [connect()] raises [DeviceAlreadyConnectedError] and changes
    nothing. *)
Theorem follower_connects_once
    {B C : Type} `{!PiperMotorsBus B} `{!Camera C} (r r' : PiperFollower.t B C) :
  PiperFollower.connect r = (Returns tt, r') ->
  PiperFollower._is_connected r = false
  /\ PiperFollower._is_connected r' = true
  /\ PiperFollower._is_calibrated r' = true
  /\ PiperFollower.connect r'
     = (Raises (Exception "DeviceAlreadyConnectedError"
                  "Piper is already connected. Do not run robot.connect() twice."),
        r').
Proof.
  unfold PiperFollower.connect at 1.
  destruct (PiperFollower._is_connected r) eqn:Hflag; [done|].
  destruct (bus_connect (PiperFollower.bus r) true) as [[[]|e] b]; [|done].
  destruct (PiperFollower.connect_cameras _ _) as [[[[]|e] cams] flag]; [|done].
  unfold PiperFollower.calibrate. cbn.
  destruct (bus_apply_calibration b) as [[[]|e] b']; [|done].
  intros [= <-]. by repeat split.
Qed.

Lemma follower_connects_once_witness :
  PiperFollower._is_connected
    (PiperFollower.__init__ (C := Scripted.camera) ScriptedMore.idle_bus []) = false
  /\ PiperFollower._is_connected
       (PiperFollower.mk (C := Scripted.camera) ScriptedMore.idle_bus true true []) = true
  /\ PiperFollower._is_calibrated
       (PiperFollower.mk (C := Scripted.camera) ScriptedMore.idle_bus true true []) = true
  /\ PiperFollower.connect
       (PiperFollower.mk (C := Scripted.camera) ScriptedMore.idle_bus true true [])
     = (Raises (Exception "DeviceAlreadyConnectedError"
                  "Piper is already connected. Do not run robot.connect() twice."),
        PiperFollower.mk ScriptedMore.idle_bus true true []).
Proof.
  apply (follower_connects_once (PiperFollower.__init__ ScriptedMore.idle_bus [])).
  reflexivity.
Defined.

(** X10.  After a [PiperFollower.disconnect()] that returns, the object is
    marked not connected: [send_action], for any action, and
    [get_observation] raise [DeviceNotConnectedError] and leave it as it
    is. *)
Theorem follower_unusable_after_disconnect
    {B C : Type} `{!PiperMotorsBus B} `{!Camera C} (r r' : PiperFollower.t B C)
    (action : gmap string Q) :
  PiperFollower.disconnect r = (Returns tt, r') ->
  PiperFollower._is_connected r' = false
  /\ PiperFollower.send_action r' action
     = (Raises (Exception "DeviceNotConnectedError" "Piper is not connected."), r')
  /\ PiperFollower.get_observation r'
     = (Raises (Exception "DeviceNotConnectedError"
                  "Piper is not connected. Run `robot.connect()` first."), r').
Proof.
  unfold PiperFollower.disconnect.
  destruct (bus_safe_disconnect (PiperFollower.bus r)) as [[[]|e] b]; [|done].
  destruct (bus_connect b false) as [[[]|e] b']; [|done].
  destruct (PiperFollower.disconnect_cameras _) as [[[]|e] cams]; [|done].
  intros [= <-]. by repeat split.
Qed.

Lemma follower_unusable_after_disconnect_witness :
  PiperFollower._is_connected
    (PiperFollower.mk (C := Scripted.camera) ScriptedMore.home_bus false true []) = false
  /\ PiperFollower.send_action
       (PiperFollower.mk (C := Scripted.camera) ScriptedMore.home_bus false true [])
       {[ "a" := 1%Q ]}
     = (Raises (Exception "DeviceNotConnectedError" "Piper is not connected."),
        PiperFollower.mk ScriptedMore.home_bus false true [])
  /\ PiperFollower.get_observation
       (PiperFollower.mk (C := Scripted.camera) ScriptedMore.home_bus false true [])
     = (Raises (Exception "DeviceNotConnectedError"
                  "Piper is not connected. Run `robot.connect()` first."),
        PiperFollower.mk ScriptedMore.home_bus false true []).
Proof.
  apply (follower_unusable_after_disconnect
           (PiperFollower.mk ScriptedMore.home_bus true true [])).
  reflexivity.
Defined.

(** X11.  [stop()] holds position: on a connected Piper adapter whose robot is
    marked connected and whose bus reading has a value for each of the seven
    motors, [stop()] makes one bus write, of exactly the values just read, in
    motor order, and its outcome is that of the write. *)
Theorem stop_writes_back_reading
    {B C : Type} `{!PiperMotorsBus B} `{!Camera C}
    (a : PiperRobotAdapter.t B C) (r : PiperFollower.t B C)
    (state : gmap string Q) (b : B) (joints : list Q) :
  PiperRobotAdapter._robot a = Some r ->
  PiperRobotAdapter.is_connected a = true ->
  PiperFollower._is_connected r = true ->
  bus_read (PiperFollower.bus r) = (Returns state, b) ->
  mapM (fun m => state !! m) PiperRobotAdapterRest.MOTOR_ORDER = Some joints ->
  PiperRobotAdapterRest.stop a
  = (ignore (bus_write b joints).1,
     PiperRobotAdapter.mk (Some (PiperFollower.with_bus r (bus_write b joints).2))).
Proof.
  intros Hr Hconn Hflag Hread Hall.
  unfold PiperRobotAdapterRest.stop. rewrite Hconn.
  unfold PiperRobotAdapter.get_state. rewrite Hr, Hread.
  assert (Hfirst : exists v, state !! "joint_1" = Some v).
  { cbn in Hall. destruct (state !! "joint_1") as [v|]; [by exists v|done]. }
  destruct Hfirst as [v Hv].
  rewrite (nonempty_lookup _ (String.append "joint_1" ".pos") v)
    by (by rewrite (lookup_kmap (fun k => String.append k ".pos"))).
  unfold PiperRobotAdapter.send_action. cbn [PiperRobotAdapter._robot].
  rewrite (follower_send_action_found _ _ joints);
    [|done|apply target_joints_found; by rewrite reading_as_state].
  cbn [PiperFollower.bus PiperFollower.with_bus].
  by destruct (bus_write b joints) as [[[]|e] b'].
Qed.

Lemma stop_writes_back_reading_witness :
  PiperRobotAdapterRest.stop
    (PiperRobotAdapter.mk (C := Scripted.camera)
       (Some (PiperFollower.mk ScriptedMore.home_bus true true [])))
  = (Returns tt,
     PiperRobotAdapter.mk (Some (PiperFollower.mk ScriptedMore.home_bus true true []))).
Proof.
  exact (stop_writes_back_reading
           (PiperRobotAdapter.mk (C := Scripted.camera)
              (Some (PiperFollower.mk ScriptedMore.home_bus true true [])))
           (PiperFollower.mk ScriptedMore.home_bus true true [])
           ScriptedMore.home_reading ScriptedMore.home_bus
           [0; 1 # 10; - (1 # 10); 0; 2 # 10; 0; 5 # 100]
           eq_refl eq_refl eq_refl eq_refl eq_refl).
Defined.

(** X12.  [stop()] does not swallow a partial reading: on a connected Piper
    adapter whose bus reading is not empty but lacks one of the seven motors,
    [stop()] raises [KeyError] for a channel of [get_action_names()] and
    writes nothing to the bus. *)
Theorem stop_raises_on_partial_reading
    {B C : Type} `{!PiperMotorsBus B} `{!Camera C}
    (a : PiperRobotAdapter.t B C) (r : PiperFollower.t B C)
    (state : gmap string Q) (b : B) (motor : string) :
  PiperRobotAdapter._robot a = Some r ->
  PiperRobotAdapter.is_connected a = true ->
  PiperFollower._is_connected r = true ->
  bus_read (PiperFollower.bus r) = (Returns state, b) ->
  nonempty state = true ->
  motor ∈ PiperRobotAdapterRest.MOTOR_ORDER ->
  state !! motor = None ->
  exists key,
    key ∈ PiperRobotAdapterRest.get_action_names
    /\ PiperRobotAdapterRest.stop a
       = (Raises (Exception "KeyError" key),
          PiperRobotAdapter.mk (Some (PiperFollower.with_bus r b))).
Proof.
  intros Hr Hconn Hflag Hread Hsome Hmotor Hnone.
  destruct (target_joints_missing
              (kmap (fun k => String.append k ".pos") state)
              PiperFollower.motor_order motor Hmotor) as (m' & Hm' & Htarget).
  { by rewrite (lookup_kmap (fun k => String.append k ".pos")). }
  exists (String.append m' ".pos"). split.
  - by apply (list_elem_of_fmap_2 (fun m => String.append m ".pos")).
  - unfold PiperRobotAdapterRest.stop. rewrite Hconn.
    unfold PiperRobotAdapter.get_state. rewrite Hr, Hread.
    rewrite nonempty_kmap, Hsome.
    unfold PiperRobotAdapter.send_action. cbn [PiperRobotAdapter._robot].
    by rewrite (follower_send_action_missing _ _ (String.append m' ".pos")).
Qed.

Lemma stop_raises_on_partial_reading_witness :
  exists key,
    key ∈ PiperRobotAdapterRest.get_action_names
    /\ PiperRobotAdapterRest.stop
         (PiperRobotAdapter.mk (C := Scripted.camera)
            (Some (PiperFollower.mk ScriptedMore.partial_bus true true [])))
       = (Raises (Exception "KeyError" key),
          PiperRobotAdapter.mk
            (Some (PiperFollower.mk ScriptedMore.partial_bus true true []))).
Proof.
  refine (stop_raises_on_partial_reading
            (PiperRobotAdapter.mk (C := Scripted.camera)
               (Some (PiperFollower.mk ScriptedMore.partial_bus true true [])))
            (PiperFollower.mk ScriptedMore.partial_bus true true [])
            (delete "gripper" ScriptedMore.home_reading) ScriptedMore.partial_bus
            "gripper" eq_refl eq_refl eq_refl eq_refl _ _ _).
  - vm_compute. reflexivity.
  - vm_compute. repeat constructor.
  - vm_compute. reflexivity.
Defined.

(** X13.  The table [PIPER_JOINT_LIMITS] covers every channel of the Piper
    adapter: a filter constructed with it (velocity limit not negative) emits
    for each name of [get_action_names()] only values within the limits that
    the table gives for that joint. *)
Theorem piper_channels_within_table
    (mv dz tmo t0 : Q) (cs : list call) (i : nat) (out : gmap string Q)
    (name : string) (v : Q) :
  0 <= mv ->
  name ∈ PiperRobotAdapterRest.get_action_names ->
  (run (__init__ (Some PiperRobotAdapterRest.PIPER_JOINT_LIMITS) mv dz tmo t0) cs).1 !! i
  = Some (Filtered (Some out)) ->
  out !! name = Some v ->
  exists lo hi,
    PiperRobotAdapterRest.PIPER_JOINT_LIMITS !! joint_name name = Some (lo, hi)
    /\ lo <= v /\ v <= hi.
Proof.
  intros Hmv Hname Hi Hout.
  assert (Hfix : clamp (__init__ (Some PiperRobotAdapterRest.PIPER_JOINT_LIMITS)
                                 mv dz tmo t0) name v == v).
  { eapply run_replies_settled; [by apply inv_init|done..]. }
  assert (Hrow : exists lo hi,
             PiperRobotAdapterRest.PIPER_JOINT_LIMITS !! joint_name name = Some (lo, hi)
             /\ lo <= hi).
  { unfold PiperRobotAdapterRest.get_action_names, PiperRobotAdapterRest.MOTOR_ORDER in Hname.
    cbn [fmap list_fmap] in Hname.
    repeat (apply elem_of_cons in Hname as [->|Hname];
            [eexists _, _; split; [vm_compute; reflexivity|vm_compute; discriminate]|]).
    by apply elem_of_nil in Hname. }
  destruct Hrow as (lo & hi & Hrow & Hle). exists lo, hi. split; [done|].
  by apply (settled_in_range
              (__init__ (Some PiperRobotAdapterRest.PIPER_JOINT_LIMITS) mv dz tmo t0)
              name).
Qed.

Lemma piper_channels_within_table_witness :
  exists lo hi,
    PiperRobotAdapterRest.PIPER_JOINT_LIMITS !! joint_name "gripper.pos" = Some (lo, hi)
    /\ lo <= 8 # 100 /\ 8 # 100 <= hi.
Proof.
  apply (piper_channels_within_table
           (1 # 2) (1 # 1000) 500 0 [FilterAction 1 {[ "gripper.pos" := 1 ]}]
           0 {[ "gripper.pos" := 8 # 100 ]} "gripper.pos" (8 # 100)).
  - vm_compute. discriminate.
  - vm_compute. repeat constructor.
  - vm_compute. reflexivity.
  - vm_compute. reflexivity.
Defined.

(** X14.  The names of [get_action_names()] are what [PiperFollower] needs:
    for a robot marked connected, an action with a value for each of these
    names never raises [KeyError]; the bus is written the values of the
    action in the order of the names, and when the write returns the action
    itself is returned. *)
Theorem complete_action_is_sent
    {B C : Type} `{!PiperMotorsBus B} `{!Camera C}
    (r : PiperFollower.t B C) (action : gmap string Q) :
  PiperFollower._is_connected r = true ->
  (forall name, name ∈ PiperRobotAdapterRest.get_action_names ->
                is_Some (action !! name)) ->
  exists joints,
    Forall2 (fun name v => action !! name = Some v)
            PiperRobotAdapterRest.get_action_names joints
    /\ PiperFollower.send_action r action
       = match bus_write (PiperFollower.bus r) joints with
         | (Returns _, b) => (Returns action, PiperFollower.with_bus r b)
         | (Raises e, b) => (Raises e, PiperFollower.with_bus r b)
         end.
Proof.
  intros Hflag Hall.
  assert (Hjoints : forall motors,
             (forall m, m ∈ motors -> is_Some (action !! String.append m ".pos")) ->
             exists joints,
               Forall2 (fun name v => action !! name = Some v)
                       ((fun m => String.append m ".pos") <$> motors) joints
               /\ mapM (fun m => action !! String.append m ".pos") motors = Some joints).
  { induction motors as [|m motors IH]; intros Hin.
    - exists []. by split; [constructor|].
    - destruct (Hin m) as [v Hv]; [apply list_elem_of_here|].
      destruct IH as (joints & Hrel & Hmap).
      { intros m' Hm'. apply Hin. by apply list_elem_of_further. }
      exists (v :: joints). split; [by constructor|].
      cbn. by rewrite Hv, Hmap. }
  destruct (Hjoints PiperFollower.motor_order) as (joints & Hrel & Hmap).
  { intros m Hm. apply Hall.
    by apply (list_elem_of_fmap_2 (fun m => String.append m ".pos")). }
  exists joints. split; [done|].
  apply follower_send_action_found; [done|by apply target_joints_found].
Qed.

Lemma complete_action_is_sent_witness :
  exists joints,
    Forall2 (fun name v =>
               (kmap (fun k => String.append k ".pos") ScriptedMore.home_reading
                  : gmap string Q) !! name = Some v)
            PiperRobotAdapterRest.get_action_names joints
    /\ PiperFollower.send_action
         (PiperFollower.mk (C := Scripted.camera) ScriptedMore.home_bus true true [])
         (kmap (fun k => String.append k ".pos") ScriptedMore.home_reading)
       = match bus_write ScriptedMore.home_bus joints with
         | (Returns _, b) =>
             (Returns (kmap (fun k => String.append k ".pos") ScriptedMore.home_reading),
              PiperFollower.with_bus
                (PiperFollower.mk ScriptedMore.home_bus true true []) b)
         | (Raises e, b) =>
             (Raises e,
              PiperFollower.with_bus
                (PiperFollower.mk ScriptedMore.home_bus true true []) b)
         end.
Proof.
  apply (complete_action_is_sent
           (PiperFollower.mk (C := Scripted.camera) ScriptedMore.home_bus true true [])
           (kmap (fun k => String.append k ".pos") ScriptedMore.home_reading)).
  - reflexivity.
  - intros name Hname.
    unfold PiperRobotAdapterRest.get_action_names, PiperRobotAdapterRest.MOTOR_ORDER in Hname.
    cbn [fmap list_fmap] in Hname.
    repeat (apply elem_of_cons in Hname as [->|Hname]; [vm_compute; eauto|]).
    by apply elem_of_nil in Hname.
Defined.

(** * Properties of the registry and of the main window *)

Module RegistryFacts.
Import AdapterRegistry.

Lemma get_set {V : Type} (d : PyDict.t V) key value key' :
  PyDict.get (PyDict.set d key value) key'
  = if String.eqb key key' then Some value else PyDict.get d key'.
Proof.
  induction d as [|[k v] d IH]; cbn.
  - by destruct (String.eqb key key').
  - destruct (String.eqb k key) eqn:Hk; cbn.
    + apply String.eqb_eq in Hk as ->. by destruct (String.eqb key key').
    + destruct (String.eqb k key') eqn:Hk'; [|done].
      apply String.eqb_eq in Hk' as ->. by rewrite String.eqb_sym, Hk.
Qed.

Lemma keys_get {V : Type} (d : PyDict.t V) key :
  key ∈ PyDict.keys d <-> is_Some (PyDict.get d key).
Proof.
  unfold PyDict.keys. induction d as [|[k v] d IH]; cbn.
  - split; [by intros ?%elem_of_nil|by intros [? ?]].
  - rewrite elem_of_cons, IH. destruct (String.eqb k key) eqn:Hk.
    + apply String.eqb_eq in Hk as ->. split; [by eauto|by left].
    + apply String.eqb_neq in Hk. split; [by intros [->|?]|by right].
Qed.

Lemma keys_set {V : Type} (d : PyDict.t V) key value :
  PyDict.keys (PyDict.set d key value)
  = if PyDict.contains d key then PyDict.keys d else PyDict.keys d ++ [key].
Proof.
  unfold PyDict.keys, PyDict.contains. induction d as [|[k v] d IH]; cbn; [done|].
  destruct (String.eqb k key) eqn:Hk; cbn.
  - by apply String.eqb_eq in Hk as ->.
  - rewrite IH. by destruct (PyDict.get d key).
Qed.

Lemma keys_set_NoDup {V : Type} (d : PyDict.t V) key value :
  NoDup (PyDict.keys d) -> NoDup (PyDict.keys (PyDict.set d key value)).
Proof.
  intros Hd. rewrite keys_set. unfold PyDict.contains.
  destruct (PyDict.get d key) eqn:Hget; [done|].
  apply NoDup_app. split; [done|]. split; [|apply NoDup_singleton].
  intros k Hk ->%list_elem_of_singleton.
  apply keys_get in Hk as [? ?]. congruence.
Qed.

Section WithClasses.
Context {Cls : Type}.
Implicit Types (r : t Cls) (x : registration Cls).

Lemma register_all_snoc r xs x :
  register_all r (xs ++ [x]) = register (register_all r xs) x.
Proof. unfold register_all. by rewrite fold_left_app. Qed.

Lemma register_robots_NoDup r x :
  NoDup (list_robot_types r) -> NoDup (list_robot_types (register r x)).
Proof. destruct x; cbn; [apply keys_set_NoDup|done..]. Qed.

Lemma register_other_robot r x n :
  (forall c, x <> Robot n c) ->
  get_robot_adapter (register r x) n = get_robot_adapter r n.
Proof.
  destruct x as [k c| |]; cbn; [|done..]. intros Hx.
  unfold get_robot_adapter. cbn. rewrite get_set.
  destruct (String.eqb k n) eqn:Hk; [|done].
  apply String.eqb_eq in Hk as ->. by destruct (Hx c).
Qed.

Lemma register_all_other_robot r xs n :
  (forall c, Robot n c ∉ xs) ->
  get_robot_adapter (register_all r xs) n = get_robot_adapter r n.
Proof.
  revert r. induction xs as [|x xs IH]; intros r Hxs; [done|].
  change (register_all r (x :: xs)) with (register_all (register r x) xs).
  rewrite IH.
  - apply register_other_robot. intros c ->. apply (Hxs c), list_elem_of_here.
  - intros c Hc. apply (Hxs c). by apply list_elem_of_further.
Qed.

End WithClasses.

Lemma register_adapters_fold (robot_types : list string)
    (r : AdapterRegistry.t MainWindow.adapter_class) n :
  let step := fun r rtype =>
    if bool_decide (rtype ∈ list_robot_types r) then r
    else register_robot r rtype MainWindow.GenericRobotAdapterClass in
  (forall c, get_robot_adapter r n = Some c ->
             get_robot_adapter (fold_left step robot_types r) n = Some c)
  /\ (get_robot_adapter r n = None ->
      get_robot_adapter (fold_left step robot_types r) n
      = if bool_decide (n ∈ robot_types)
        then Some MainWindow.GenericRobotAdapterClass else None).
Proof.
  intros step. revert r. induction robot_types as [|rtype rest IH]; intros r.
  - split; [done|]. intros Hn. cbn [fold_left]. rewrite Hn.
    by rewrite bool_decide_eq_false_2 by apply not_elem_of_nil.
  - cbn [fold_left]. destruct (IH (step r rtype)) as [IHsome IHnone].
    assert (Hstep : get_robot_adapter (step r rtype) n
                    = match get_robot_adapter r n with
                      | Some c => Some c
                      | None => if bool_decide (rtype = n)
                                then Some MainWindow.GenericRobotAdapterClass else None
                      end).
    { unfold step. destruct (bool_decide_reflect (rtype ∈ list_robot_types r)) as [Hin|Hin].
      - destruct (get_robot_adapter r n) eqn:Hn; [done|].
        destruct (decide (rtype = n)) as [Heq|Hne];
          [subst rtype|by rewrite bool_decide_eq_false_2].
        apply keys_get in Hin as [? ?]. unfold get_robot_adapter in Hn. congruence.
      - unfold get_robot_adapter at 1. cbn. rewrite get_set.
        destruct (String.eqb rtype n) eqn:Hk.
        + apply String.eqb_eq in Hk as ->. rewrite bool_decide_eq_true_2 by done.
          destruct (get_robot_adapter r n) eqn:Hn; [|done].
          exfalso. apply Hin, keys_get. unfold get_robot_adapter in Hn. by rewrite Hn.
        + apply String.eqb_neq in Hk. rewrite bool_decide_eq_false_2 by done.
          unfold get_robot_adapter. by destruct (PyDict.get (_robots r) n). }
    split.
    + intros c Hc. apply IHsome. by rewrite Hstep, Hc.
    + intros Hnone. rewrite Hnone in Hstep.
      destruct (decide (rtype = n)) as [Heq|Hne].
      * subst rtype. rewrite bool_decide_eq_true_2 in Hstep by done.
        rewrite (IHsome _ Hstep).
        by rewrite bool_decide_eq_true_2 by apply list_elem_of_here.
      * rewrite bool_decide_eq_false_2 in Hstep by done.
        rewrite (IHnone Hstep).
        rewrite (bool_decide_ext (n ∈ rtype :: rest) (n ∈ rest)); [done|].
        rewrite elem_of_cons. split; [intros [->|?]; [by destruct Hne|done]|by right].
Qed.

End RegistryFacts.

Import RegistryFacts.

(** X15.  The registry returns the class registered last: after any
    registrations, a robot type registered with class [c] and not registered
    again is looked up as [c], whatever was registered for it before and
    whatever is registered for cameras, teleoperators or other robot types
    afterwards. *)
Theorem last_registration_wins
    {Cls : Type} (r : AdapterRegistry.t Cls)
    (before after : list (AdapterRegistry.registration Cls))
    (type_name : string) (c : Cls) :
  (forall c', AdapterRegistry.Robot type_name c' ∉ after) ->
  AdapterRegistry.get_robot_adapter
    (AdapterRegistry.register_all r (before ++ AdapterRegistry.Robot type_name c :: after))
    type_name
  = Some c.
Proof.
  intros Hafter. unfold AdapterRegistry.register_all.
  rewrite fold_left_app. cbn [fold_left].
  fold (AdapterRegistry.register_all
          (AdapterRegistry.register (fold_left AdapterRegistry.register before r)
                                    (AdapterRegistry.Robot type_name c)) after).
  rewrite register_all_other_robot by done.
  unfold AdapterRegistry.get_robot_adapter. cbn.
  by rewrite get_set, String.eqb_refl.
Qed.

Lemma last_registration_wins_witness :
  AdapterRegistry.get_robot_adapter
    (AdapterRegistry.register_all (AdapterRegistry.__new__ None)
       ([AdapterRegistry.Robot "piper_follower" MainWindow.GenericRobotAdapterClass]
        ++ AdapterRegistry.Robot "piper_follower" MainWindow.PiperRobotAdapterClass
        :: [AdapterRegistry.Camera "piper_follower" MainWindow.GenericRobotAdapterClass;
            AdapterRegistry.Robot "so100_follower" MainWindow.GenericRobotAdapterClass]))
    "piper_follower"
  = Some MainWindow.PiperRobotAdapterClass.
Proof.
  apply last_registration_wins.
  intros c' Hin. repeat (apply elem_of_cons in Hin as [Hin|Hin]; [discriminate|]).
  by apply elem_of_nil in Hin.
Defined.

(** X16.  A registry filled by registrations alone lists every robot type
    once, and lists exactly the types that [get_robot_adapter] finds. *)
Theorem robot_types_listed_once
    {Cls : Type} (xs : list (AdapterRegistry.registration Cls)) (type_name : string) :
  NoDup (AdapterRegistry.list_robot_types
           (AdapterRegistry.register_all (AdapterRegistry.__new__ None) xs))
  /\ (type_name ∈ AdapterRegistry.list_robot_types
                    (AdapterRegistry.register_all (AdapterRegistry.__new__ None) xs)
      <-> is_Some (AdapterRegistry.get_robot_adapter
                     (AdapterRegistry.register_all (AdapterRegistry.__new__ None) xs)
                     type_name)).
Proof.
  split; [|apply keys_get].
  induction xs as [|x xs IH] using rev_ind; [apply NoDup_nil_2|].
  rewrite register_all_snoc. by apply register_robots_NoDup.
Qed.

(** X17.  The catch-all never replaces a specialised adapter: after the
    registrations of the main window, whatever the registry held before and
    whatever robot types the schemas list, ["piper_follower"] resolves to the
    Piper adapter, a type registered before keeps its class, and any other
    type resolves to the generic adapter. *)
Theorem piper_keeps_its_adapter
    (registry : AdapterRegistry.t MainWindow.adapter_class)
    (robot_types : list string) (dtype : string) :
  MainWindow.adapter_class_for
    (MainWindow.register_adapters registry robot_types) "piper_follower"
  = MainWindow.PiperRobotAdapterClass
  /\ MainWindow.adapter_class_for (MainWindow.register_adapters registry robot_types) dtype
     = (if String.eqb dtype "piper_follower" then MainWindow.PiperRobotAdapterClass
        else MainWindow.adapter_class_for registry dtype).
Proof.
  assert (Hpiper : forall n,
    AdapterRegistry.get_robot_adapter
      (AdapterRegistry.register_robot registry "piper_follower"
         MainWindow.PiperRobotAdapterClass) n
    = if String.eqb "piper_follower" n then Some MainWindow.PiperRobotAdapterClass
      else AdapterRegistry.get_robot_adapter registry n).
  { intros n. unfold AdapterRegistry.get_robot_adapter. cbn. apply get_set. }
  unfold MainWindow.adapter_class_for, MainWindow.register_adapters.
  split.
  - destruct (register_adapters_fold robot_types
                (AdapterRegistry.register_robot registry "piper_follower"
                   MainWindow.PiperRobotAdapterClass) "piper_follower") as [Hsome _].
    by rewrite (Hsome MainWindow.PiperRobotAdapterClass) by (by rewrite Hpiper).
  - destruct (register_adapters_fold robot_types
                (AdapterRegistry.register_robot registry "piper_follower"
                   MainWindow.PiperRobotAdapterClass) dtype) as [Hsome Hnone].
    specialize (Hpiper dtype). rewrite String.eqb_sym in Hpiper.
    destruct (String.eqb dtype "piper_follower") eqn:Hd.
    + by rewrite (Hsome _ Hpiper).
    + destruct (AdapterRegistry.get_robot_adapter registry dtype) as [c|] eqn:Hget.
      * by rewrite (Hsome _ Hpiper).
      * rewrite (Hnone Hpiper). by destruct (bool_decide (dtype ∈ robot_types)).
Qed.

(** X18.  The emergency stop of the main window.  [_on_estop] never raises an
    [Exception]; afterwards the filter blocks every action and still records
    what it recorded; an adapter that is not connected is left exactly as it
    is, robot object included; and when [_on_estop] returns for a connected
    adapter (for the Piper adapter: with a truthy bus object), the adapter
    holds no robot and is not connected. *)
Theorem estop_trips_filter_and_adapter
    {H B C : Type} `{!Robot H} `{!PiperMotorsBus B} `{!Camera C}
    (w : MainWindow.t H B C) :
  (forall c msg, (MainWindow._on_estop w).1.1 <> Raises (Exception c msg))
  /\ (forall now action,
        (filter_action (MainWindow._safety_filter (MainWindow._on_estop w).1.2)
                       now action).1 = None)
  /\ _last_action (MainWindow._safety_filter (MainWindow._on_estop w).1.2)
     = _last_action (MainWindow._safety_filter w)
  /\ (forall a,
        MainWindow._current_adapter w = Some a ->
        MainWindow.is_connected a = false ->
        MainWindow._current_adapter (MainWindow._on_estop w).1.2 = Some a)
  /\ (forall a,
        MainWindow._current_adapter w = Some a ->
        MainWindow.is_connected a = true ->
        (forall p r, a = MainWindow.Piper p -> PiperRobotAdapter._robot p = Some r ->
                     bus_truthy (PiperFollower.bus r) = true) ->
        (MainWindow._on_estop w).1.1 = Returns tt ->
        exists a',
          MainWindow._current_adapter (MainWindow._on_estop w).1.2 = Some a'
          /\ MainWindow.holds_robot a' = false
          /\ MainWindow.is_connected a' = false).
Proof.
  assert (Hfilter : forall o w' log,
            MainWindow._on_estop w = (o, w', log) ->
            MainWindow._safety_filter w'
            = set_e_stop (MainWindow._safety_filter w) true).
  { unfold MainWindow._on_estop. intros o w' log.
    destruct (MainWindow._current_adapter w) as [a|]; [|by intros [= _ <- _]].
    destruct (MainWindow.is_connected a); [|by intros [= _ <- _]].
    destruct (MainWindow.emergency_stop a) as [[[[]|[c msg|c]] a'] log'];
      by intros [= _ <- _]. }
  destruct (MainWindow._on_estop w) as [[o w'] log] eqn:Hstop. cbn [fst snd].
  rewrite (Hfilter o w' log eq_refl). clear Hfilter.
  split; [|split; [|split; [done|split]]].
  - intros c msg ->. revert Hstop. unfold MainWindow._on_estop.
    destruct (MainWindow._current_adapter w) as [a|]; [|done].
    destruct (MainWindow.is_connected a); [|done].
    by destruct (MainWindow.emergency_stop a) as [[[[]|[c' msg'|c']] a'] log'].
  - intros now action. by rewrite filter_action_blocked.
  - intros a Ha Hconn. revert Hstop. unfold MainWindow._on_estop.
    rewrite Ha, Hconn. by intros [= _ <- _].
  - intros a Ha Hconn Hbus ->. revert Hstop. unfold MainWindow._on_estop.
    rewrite Ha, Hconn.
    destruct (MainWindow.emergency_stop a) as [[o a'] log'] eqn:Hstop.
    assert (Hreleased : o = Returns tt ->
              MainWindow.holds_robot a' = false /\ MainWindow.is_connected a' = false).
    { intros ->. destruct a as [g|p]; cbn in Hstop.
      - pose proof (generic_emergency_stop_releases g) as Hnone.
        destruct (GenericRobotAdapter.emergency_stop g) as [[o g'] log''].
        injection Hstop as -> <- ->. cbn in *. rewrite Hnone.
        split; [|by apply generic_no_handle_is_disconnected].
        apply bool_decide_eq_false_2. by intros [? ?].
      - pose proof (piper_emergency_stop_returns p) as Hcases.
        destruct (PiperRobotAdapter.emergency_stop p) as [[o p'] log''].
        injection Hstop as -> <- ->.
        destruct (Hcases p' log' eq_refl) as [Hnone|(_ & _ & r & Hr & Hfalsy)].
        + cbn. rewrite Hnone.
          split; [|by apply piper_no_handle_is_disconnected].
          apply bool_decide_eq_false_2. by intros [? ?].
        + rewrite (Hbus p r eq_refl Hr) in Hfalsy. discriminate. }
    assert (Hcaught : forall c msg, o <> Raises (Exception c msg)).
    { intros c msg ->. destruct a as [g|p]; cbn in Hstop.
      - revert Hstop. unfold GenericRobotAdapter.emergency_stop.
        destruct (GenericRobotAdapter._robot g) as [r|]; [|done].
        by destruct (robot_disconnect r) as [[[]|[c' msg'|c']] r'].
      - revert Hstop. unfold PiperRobotAdapter.emergency_stop.
        destruct (PiperRobotAdapter._robot p) as [r|]; [|done].
        destruct (bus_truthy (PiperFollower.bus r)); [|done].
        destruct (piper_DisableArm (PiperFollower.bus r) 7) as [[[]|[c' msg'|c']] b1];
          [|done..].
        by destruct (piper_GripperCtrl b1 0 1000 2 0) as [[[]|[c' msg'|c']] b2]. }
    destruct o as [[]|[c msg|c]]; [|by destruct (Hcaught c msg)|done].
    intros [= <-]. exists a'. split; [done|]. by apply Hreleased.
Qed.

Lemma estop_trips_filter_and_adapter_witness :
  exists a',
    MainWindow._current_adapter
      (MainWindow._on_estop
         (MainWindow.mk (H := Scripted.robot)
            (SafetyFilter.__init__ None (1 # 2) (1 # 1000) 500 0)
            (Some (MainWindow.Piper Scripted.failing_piper)))).1.2
    = Some a'
    /\ MainWindow.holds_robot a' = false
    /\ MainWindow.is_connected a' = false.
Proof.
  refine (proj2 (proj2 (proj2 (proj2
            (estop_trips_filter_and_adapter
               (MainWindow.mk (H := Scripted.robot)
                  (SafetyFilter.__init__ None (1 # 2) (1 # 1000) 500 0)
                  (Some (MainWindow.Piper Scripted.failing_piper)))))))
            (MainWindow.Piper Scripted.failing_piper) eq_refl eq_refl _ eq_refl).
  intros p r [= <-] [= <-]. reflexivity.
Defined.

(** ** The curve widget *)

Module CurveFacts.
Import Runtime CurveWidget CurveTerms.

Lemma lastn_nil {A : Type} (n : nat) : lastn n ([] : list A) = [].
Proof. unfold lastn. by rewrite drop_nil. Qed.

Lemma lastn_length {A : Type} (n : nat) (l : list A) :
  length (lastn n l) = Nat.min (length l) n.
Proof. unfold lastn. rewrite length_drop. lia. Qed.

(** Appending to a full or a filling deque keeps the last items. *)
Lemma deque_append_lastn (maxlen : Z) (sent : list Q) (value : Q) :
  (0 <= maxlen)%Z ->
  deque_append maxlen (lastn (Z.to_nat maxlen) sent) value
  = lastn (Z.to_nat maxlen) (sent ++ [value]).
Proof.
  intros Hmax. unfold deque_append.
  rewrite length_app, lastn_length. cbn [length].
  unfold lastn. rewrite length_app. cbn [length].
  destruct (Z.ltb_spec maxlen (Z.of_nat (Nat.min (length sent) (Z.to_nat maxlen) + 1)))
    as [Hfull|Hroom].
  - assert (Hlen : (Z.to_nat maxlen <= length sent)%nat) by lia.
    replace (length sent + 1 - Z.to_nat maxlen)%nat
      with ((length sent - Z.to_nat maxlen) + 1)%nat by lia.
    rewrite <- drop_drop.
    rewrite (drop_app_le sent [value]) by lia.
    by destruct (drop (length sent - Z.to_nat maxlen) sent ++ [value]).
  - assert (Hlen : (length sent < Z.to_nat maxlen)%nat) by lia.
    replace (length sent - Z.to_nat maxlen)%nat with 0%nat by lia.
    by replace (length sent + 1 - Z.to_nat maxlen)%nat with 0%nat by lia.
Qed.

Lemma window_snoc (max_points : Z) (sent : list Q) (value : Q) :
  window max_points (sent ++ [value])
  = Some (lastn (Z.to_nat max_points) (sent ++ [value])).
Proof. unfold window. by destruct sent. Qed.

Lemma window_some (max_points : Z) (sent d : list Q) :
  window max_points sent = Some d -> d = lastn (Z.to_nat max_points) sent.
Proof. unfold window. destruct sent; congruence. Qed.

Lemma window_none (max_points : Z) (sent : list Q) :
  window max_points sent = None -> sent = [].
Proof. unfold window. by destruct sent. Qed.

Lemma points_of_cons (name key : string) (value : Q) (rest : PyDict.t Q) :
  points_of name ((key, value) :: rest)
  = (if String.eqb key name then [value] else []) ++ points_of name rest.
Proof. unfold points_of. cbn. by destruct (String.eqb key name). Qed.

(** The order list and the dict are updated together. *)
Definition listed (w : t) : Prop :=
  _series_order w = PyDict.keys (_data w) /\ NoDup (_series_order w).

Lemma listed_init (max_points : Z) : listed (__init__ max_points).
Proof. split; [done|apply NoDup_nil_2]. Qed.

Lemma add_data_listed (w : t) (series : PyDict.t Q) :
  listed w -> listed (add_data w series).2.
Proof.
  revert w. induction series as [|[name value] rest IH]; intros w [Horder Hdup];
    cbn [add_data]; [done|].
  destruct (PyDict.get (_data w) name) as [d|] eqn:Hget.
  - apply IH. split; cbn [_series_order _data]; [|done].
    rewrite RegistryFacts.keys_set. unfold PyDict.contains. by rewrite Hget.
  - destruct (_max_points w <? 0)%Z; [done|].
    apply IH. cbn [_series_order _data].
    assert (Hkeys : PyDict.keys (PyDict.set (_data w) name (deque_append (_max_points w) [] value))
                    = _series_order w ++ [name]).
    { rewrite RegistryFacts.keys_set. unfold PyDict.contains. by rewrite Hget, Horder. }
    split; [done|]. rewrite <- Hkeys. apply RegistryFacts.keys_set_NoDup. by rewrite <- Horder.
Qed.

Lemma run_listed (w : t) (cs : list call) : listed w -> listed (run w cs).2.
Proof.
  revert w. induction cs as [|c cs IH]; intros w Hw; cbn [run]; [done|].
  assert (Hstep : listed (step w c).2).
  { destruct c as [series|]; cbn [step]; [by apply add_data_listed|apply listed_init]. }
  destruct (step w c) as [[[]|e] w']; [by apply IH|done].
Qed.

(** With a proper [maxlen], [add_data] returns and every series holds the
    last points of what was passed for it. *)
Lemma add_data_window (w : t) (series : PyDict.t Q) :
  (0 <= _max_points w)%Z ->
  exists w',
    add_data w series = (Returns tt, w')
    /\ _max_points w' = _max_points w
    /\ forall name sent,
         PyDict.get (_data w) name = window (_max_points w) sent ->
         PyDict.get (_data w') name
         = window (_max_points w) (sent ++ points_of name series).
Proof.
  revert w. induction series as [|[key value] rest IH]; intros w Hmax; cbn [add_data].
  - exists w. split; [done|]. split; [done|]. intros name sent Hget.
    unfold points_of. cbn. by rewrite app_nil_r.
  - assert (Hone : forall d,
              (match PyDict.get (_data w) key with Some d0 => d0 | None => [] end) = d ->
              forall name sent,
                PyDict.get (_data w) name = window (_max_points w) sent ->
                PyDict.get (PyDict.set (_data w) key (deque_append (_max_points w) d value)) name
                = window (_max_points w)
                    (sent ++ (if String.eqb key name then [value] else []))).
    { intros d Hd name sent Hget. rewrite RegistryFacts.get_set.
      destruct (String.eqb key name) eqn:Hkey.
      - apply String.eqb_eq in Hkey as ->. rewrite window_snoc. f_equal.
        rewrite <- deque_append_lastn by done. f_equal.
        rewrite Hget in Hd. destruct (window (_max_points w) sent) as [d0|] eqn:Hwin.
        + apply window_some in Hwin. congruence.
        + apply window_none in Hwin. subst. by rewrite lastn_nil.
      - by rewrite app_nil_r. }
    destruct (PyDict.get (_data w) key) as [d|] eqn:Hkey.
    + destruct (IH (mk (PyDict.set (_data w) key (deque_append (_max_points w) d value))
                       (_max_points w) (_series_order w)) Hmax)
        as (w' & Hrun & Hmax' & Hwin).
      exists w'. split; [done|]. split; [done|]. intros name sent Hget.
      rewrite points_of_cons, app_assoc. apply Hwin. cbn [_data]. by apply Hone.
    + destruct (Z.ltb_spec (_max_points w) 0) as [Hneg|_]; [lia|].
      destruct (IH (mk (PyDict.set (_data w) key (deque_append (_max_points w) [] value))
                       (_max_points w) (_series_order w ++ [key])) Hmax)
        as (w' & Hrun & Hmax' & Hwin).
      exists w'. split; [done|]. split; [done|]. intros name sent Hget.
      rewrite points_of_cons, app_assoc. apply Hwin. cbn [_data]. by apply Hone.
Qed.

Lemma run_window (w : t) (cs : list call) :
  (0 <= _max_points w)%Z ->
  exists w',
    run w cs = (Returns tt, w')
    /\ forall name sent,
         PyDict.get (_data w) name = window (_max_points w) sent ->
         PyDict.get (_data w') name = window (_max_points w) (history name sent cs).
Proof.
  revert w. induction cs as [|[series|] cs IH]; intros w Hmax; cbn [run step history].
  - by exists w.
  - destruct (add_data_window w series Hmax) as (w1 & -> & Hmax1 & Hwin1).
    destruct (IH w1) as (w' & -> & Hwin); [by rewrite Hmax1|].
    exists w'. split; [done|]. intros name sent Hget.
    rewrite <- Hmax1. apply Hwin. rewrite Hmax1. by apply Hwin1.
  - destruct (IH (clear_data w)) as (w' & -> & Hwin); [done|].
    exists w'. split; [done|]. intros name sent _. by apply Hwin.
Qed.

End CurveFacts.

Import CurveFacts.

(** X19.  The curve is a sliding window.  For a curve made with
    [max_points >= 0], no sequence of [add_data] and [clear_data] calls
    raises, and afterwards the curve holds for each series exactly the last
    [max_points] values passed for it since the last [clear_data()], oldest
    first; a series that got no value since then is not in the curve. *)
Theorem curve_holds_last_points (max_points : Z) (cs : list CurveWidget.call) :
  (0 <= max_points)%Z ->
  (CurveWidget.run (CurveWidget.__init__ max_points) cs).1 = Returns tt
  /\ forall name,
       PyDict.get (CurveWidget._data (CurveWidget.run (CurveWidget.__init__ max_points) cs).2)
                  name
       = CurveTerms.window max_points (CurveTerms.history name [] cs).
Proof.
  intros Hmax.
  destruct (run_window (CurveWidget.__init__ max_points) cs Hmax) as (w' & -> & Hwin).
  split; [done|]. intros name. by apply Hwin.
Qed.

Lemma curve_holds_last_points_witness :
  (CurveWidget.run (CurveWidget.__init__ 2)
     [CurveWidget.AddData [("a", 1); ("b", 5)]; CurveWidget.AddData [("a", 2)];
      CurveWidget.AddData [("a", 3)]]).1 = Returns tt
  /\ forall name,
       PyDict.get
         (CurveWidget._data
            (CurveWidget.run (CurveWidget.__init__ 2)
               [CurveWidget.AddData [("a", 1); ("b", 5)]; CurveWidget.AddData [("a", 2)];
                CurveWidget.AddData [("a", 3)]]).2)
         name
       = CurveTerms.window 2
           (CurveTerms.history name []
              [CurveWidget.AddData [("a", 1); ("b", 5)]; CurveWidget.AddData [("a", 2)];
               CurveWidget.AddData [("a", 3)]]).
Proof. apply curve_holds_last_points. lia. Defined.

(** X20.  The curve lists its series once each, in the order of their first
    value since the last [clear_data()]: whatever calls were made, and also
    when one of them raised, [_series_order] is the list of the keys of
    [_data], without a repetition; painting looks up only series that are
    there. *)
Theorem curve_series_listed_once (max_points : Z) (cs : list CurveWidget.call) :
  CurveWidget._series_order (CurveWidget.run (CurveWidget.__init__ max_points) cs).2
  = PyDict.keys (CurveWidget._data (CurveWidget.run (CurveWidget.__init__ max_points) cs).2)
  /\ NoDup (CurveWidget._series_order
              (CurveWidget.run (CurveWidget.__init__ max_points) cs).2)
  /\ forall name,
       name ∈ CurveWidget._series_order
                (CurveWidget.run (CurveWidget.__init__ max_points) cs).2 ->
       is_Some (PyDict.get
                  (CurveWidget._data (CurveWidget.run (CurveWidget.__init__ max_points) cs).2)
                  name).
Proof.
  destruct (run_listed (CurveWidget.__init__ max_points) cs (listed_init max_points))
    as [Horder Hdup].
  split; [done|]. split; [done|]. intros name. rewrite Horder.
  apply RegistryFacts.keys_get.
Qed.

(** ** The frame rate of a camera adapter *)

Module CameraFacts.
Import BaseCameraAdapter CameraTerms.

Local Open Scope Q_scope.

(** A whole number of half frames per second is what [round(_, 1)] leaves
    as it is. *)
Lemma round1_half (n : Z) : round1 (inject_Z n / 2) == inject_Z n / 2.
Proof.
  unfold round1.
  assert (Hy : inject_Z n / 2 * 10 == inject_Z (5 * n)).
  { rewrite inject_Z_mult. field. }
  rewrite (Qfloor_comp _ _ Hy), Qfloor_Z.
  assert (Hr : Py.ltb (inject_Z n / 2 * 10 - inject_Z (5 * n)) (1 # 2) = true).
  { unfold Py.ltb. apply negb_true_iff, not_true_iff_false.
    rewrite Qle_bool_iff, Hy. lra. }
  rewrite Hr, inject_Z_mult. field.
Qed.

(** Dropping the frames that were old at an earlier time loses none of the
    recent ones. *)
Lemma recent_recent (now t : Q) (ts : list Q) :
  t <= now -> recent now (recent t ts) = recent now ts.
Proof.
  intros Hle. unfold recent. induction ts as [|x ts IH]; cbn; [done|].
  destruct (Py.ltb (t - x) 2) eqn:Ht; cbn; [by rewrite IH|].
  rewrite IH. destruct (Py.ltb (now - x) 2) eqn:Hnow; [|done].
  exfalso. unfold Py.ltb in *.
  apply negb_false_iff, Qle_bool_iff in Ht.
  apply negb_true_iff, not_true_iff_false in Hnow. apply Hnow, Qle_bool_iff. lra.
Qed.

Lemma recent_app (now : Q) (l1 l2 : list Q) :
  recent now (l1 ++ l2) = recent now l1 ++ recent now l2.
Proof. unfold recent. apply List.filter_app. Qed.

Lemma run_recent (a : t) (cs : list call) (now : Q) :
  asked_before now cs = true ->
  recent now (_fps_ts (run a cs)) = recent now (_fps_ts a ++ frames cs).
Proof.
  unfold run. revert a. induction cs as [|[t|t] cs IH]; intros a Hasked; cbn in Hasked |- *.
  - by rewrite app_nil_r.
  - rewrite IH by done. unfold _record_frame. cbn [_fps_ts].
    by rewrite <- app_assoc.
  - apply andb_true_iff in Hasked as [Ht Hasked]. apply Qle_bool_iff in Ht.
    rewrite IH by done. cbn [_fps_ts].
    change (List.filter (fun t0 : Q => Py.ltb (t - t0) 2) (_fps_ts a))
      with (recent t (_fps_ts a)).
    by rewrite !recent_app, recent_recent.
Qed.

End CameraFacts.

Import CameraFacts.

(** X21.  The frame rate counts every frame of the last two seconds.  When
    no earlier [fps_stats()] was made at a later time than this one, what
    [fps_stats()] has dropped along the way does not matter: [frame_count]
    is the number of all frames recorded less than two seconds before [now],
    [measured_fps] is half of it, and those frames are what the adapter keeps. *)
Theorem fps_counts_recent_frames (cs : list BaseCameraAdapter.call) (now : Q) :
  CameraTerms.asked_before now cs = true ->
  BaseCameraAdapter.frame_count
    (BaseCameraAdapter.fps_stats (BaseCameraAdapter.run BaseCameraAdapter.__init__ cs) now).1
  = length (CameraTerms.recent now (CameraTerms.frames cs))
  /\ BaseCameraAdapter.measured_fps
       (BaseCameraAdapter.fps_stats (BaseCameraAdapter.run BaseCameraAdapter.__init__ cs) now).1
     == inject_Z (Z.of_nat (length (CameraTerms.recent now (CameraTerms.frames cs)))) / 2
  /\ BaseCameraAdapter._fps_ts
       (BaseCameraAdapter.fps_stats (BaseCameraAdapter.run BaseCameraAdapter.__init__ cs) now).2
     = CameraTerms.recent now (CameraTerms.frames cs).
Proof.
  intros Hasked. unfold BaseCameraAdapter.fps_stats.
  cbn [fst snd BaseCameraAdapter.frame_count BaseCameraAdapter.measured_fps
       BaseCameraAdapter._fps_ts].
  change (List.filter (fun t : Q => Py.ltb (now - t) 2)
            (BaseCameraAdapter._fps_ts (BaseCameraAdapter.run BaseCameraAdapter.__init__ cs)))
    with (CameraTerms.recent now
            (BaseCameraAdapter._fps_ts (BaseCameraAdapter.run BaseCameraAdapter.__init__ cs))).
  rewrite (run_recent _ cs now Hasked).
  change (BaseCameraAdapter._fps_ts BaseCameraAdapter.__init__ ++ CameraTerms.frames cs)
    with (CameraTerms.frames cs).
  split; [done|]. split; [|done].
  destruct (CameraTerms.recent now (CameraTerms.frames cs)) as [|t ts] eqn:Hts.
  - by vm_compute.
  - apply round1_half.
Qed.

Lemma fps_counts_recent_frames_witness :
  BaseCameraAdapter.frame_count
    (BaseCameraAdapter.fps_stats
       (BaseCameraAdapter.run BaseCameraAdapter.__init__
          [BaseCameraAdapter.RecordFrame 1; BaseCameraAdapter.RecordFrame 2;
           BaseCameraAdapter.FpsStats (7 # 2); BaseCameraAdapter.RecordFrame (7 # 2)])
       (15 # 4)).1
  = 2%nat.
Proof.
  exact (proj1 (fps_counts_recent_frames
                  [BaseCameraAdapter.RecordFrame 1; BaseCameraAdapter.RecordFrame 2;
                   BaseCameraAdapter.FpsStats (7 # 2); BaseCameraAdapter.RecordFrame (7 # 2)]
                  (15 # 4) eq_refl)).
Defined.

(** ** The teleoperation page *)

Module TeleopFacts.
Import Runtime PyObject TeleopPageRun.

Section Pages.
Context {H B C : Type} `{!Robot H} `{!Truthy H} `{!PiperMotorsBus B} `{!Camera C}.

(** What polling keeps: the filter, a timer that runs exactly while the
    page is running, and an adapter. *)
Definition polling (s : SafetyFilter.t) (p : t H B C) : Prop :=
  _safety p = s /\ _running p = _poll_timer p /\ is_Some (_robot_adapter p).

Lemma on_start_polling (p : t H B C) (now : Q) a :
  _robot_adapter p = Some a -> MainWindow.is_connected a = true ->
  polling (SafetyFilter.reset (_safety p) now) (_on_start p now).1.2.
Proof. unfold _on_start. intros -> ->. split; [done|split; [done|by eexists]]. Qed.

Lemma on_stop_stopped (p : t H B C) :
  _safety (_on_stop p).1.2 = _safety p
  /\ _running (_on_stop p).1.2 = false
  /\ _poll_timer (_on_stop p).1.2 = false
  /\ forall c msg, (_on_stop p).1.1 <> Raises (Exception c msg).
Proof.
  unfold _on_stop. destruct (_robot_adapter p) as [a|]; [|done].
  destruct (MainWindow.is_connected a); [|done].
  by destruct (stop a) as [[[]|[c msg|c]] a'].
Qed.

Lemma poll_polling (s : SafetyFilter.t) (p : t H B C) (now : Q) :
  polling s p -> polling s (_poll_teleop p now).1.2.
Proof.
  intros (Hs & Hrun & Ha). unfold _poll_teleop.
  destruct (_robot_adapter p) as [a|] eqn:Hadapter; [|by destruct Ha].
  destruct (_running p) eqn:Hr; cbn [negb];
    [|cbn; split; [done|split; [congruence|by rewrite Hadapter]]].
  destruct (SafetyFilter.check_timeout (_safety p) now).
  - destruct (on_stop_stopped p) as (Hs' & Hr' & Ht' & _).
    assert (Ha' : is_Some (_robot_adapter (_on_stop p).1.2)).
    { unfold _on_stop. rewrite Hadapter.
      destruct (MainWindow.is_connected a); [|by eexists].
      destruct (stop a) as [[[]|[c msg|c]] a']; by eexists. }
    destruct (_on_stop p) as [[o p'] log]. cbn in *.
    split; [congruence|split; [congruence|done]].
  - destruct (get_state a) as [[state|[c msg|c]] a']; cbn;
      (split; [done|split; [exact Hrun|by eexists]]).
Qed.

Lemma tick_polling (s : SafetyFilter.t) (p : t H B C) (now : Q) :
  polling s p -> polling s (tick p now).1.2.
Proof.
  intros Hp. unfold tick. destruct (_poll_timer p); [by apply poll_polling|done].
Qed.

Lemma ticks_polling (s : SafetyFilter.t) (p : t H B C) (times : list Q) :
  polling s p -> polling s (ticks p times).2.
Proof.
  revert p. induction times as [|now times IH]; intros p Hp; cbn [ticks]; [done|].
  pose proof (tick_polling s p now Hp) as Hp'.
  destruct (tick p now) as [[[[]|e] p'] log]; [by apply IH|done].
Qed.

Lemma ticks_idle (p : t H B C) (times : list Q) :
  _poll_timer p = false -> ticks p times = (Returns tt, p).
Proof.
  intros Hidle. induction times as [|now times IH]; cbn [ticks]; [done|].
  unfold tick. by rewrite Hidle.
Qed.

(** A poll once the watchdog has expired stops the page. *)
Lemma tick_expired (s : SafetyFilter.t) (p : t H B C) (now : Q) :
  polling s p -> SafetyFilter.check_timeout s now = true ->
  _running (tick p now).1.2 = false
  /\ _poll_timer (tick p now).1.2 = false
  /\ forall c msg, (tick p now).1.1 <> Raises (Exception c msg).
Proof.
  intros (Hs & Hrun & Ha) Hexpired. unfold tick.
  destruct (_poll_timer p) eqn:Htimer; [|done].
  unfold _poll_teleop. rewrite Hrun, Hs, Hexpired. cbn [negb].
  destruct (_robot_adapter p) as [a|]; [|by destruct Ha].
  destruct (on_stop_stopped p) as (_ & Hr' & Ht' & Hexn).
  by destruct (_on_stop p) as [[o p'] log].
Qed.

End Pages.

End TeleopFacts.

Import TeleopFacts.

(** X22.  Teleoperation stops by itself.  The page never passes an action
    to the filter, so the watchdog that [_on_start] restarts is never fed:
    after a start with a connected robot at time [start] and any timer
    events, the timer event at a time [now] with
    [(now - start) * 1000 > timeout_ms] leaves the page not running with its
    timer stopped, raises no [Exception], and no later timer event changes
    the page. *)
Theorem teleop_stops_when_input_times_out
    {H B C : Type} `{!Robot H} `{!Truthy H} `{!PiperMotorsBus B} `{!Camera C}
    (p : TeleopPageRun.t H B C) (a : MainWindow.adapter H B C)
    (start : Q) (times : list Q) (now : Q) :
  TeleopPageRun._robot_adapter p = Some a ->
  MainWindow.is_connected a = true ->
  timeout_ms (TeleopPageRun._safety p) < (now - start) * 1000 ->
  TeleopPageRun._running (TeleopPageRun.tick (TeleopTerms.polled p start times) now).1.2
  = false
  /\ TeleopPageRun._poll_timer
       (TeleopPageRun.tick (TeleopTerms.polled p start times) now).1.2 = false
  /\ (forall c msg,
        (TeleopPageRun.tick (TeleopTerms.polled p start times) now).1.1
        <> Raises (Exception c msg))
  /\ forall later,
       TeleopPageRun.ticks
         (TeleopPageRun.tick (TeleopTerms.polled p start times) now).1.2 later
       = (Returns tt, (TeleopPageRun.tick (TeleopTerms.polled p start times) now).1.2).
Proof.
  intros Ha Hconn Hlate.
  assert (Hpolled : polling (reset (TeleopPageRun._safety p) start)
                            (TeleopTerms.polled p start times)).
  { apply ticks_polling. by apply (on_start_polling p start a). }
  assert (Hexpired : check_timeout (reset (TeleopPageRun._safety p) start) now = true).
  { unfold check_timeout, Py.gtb. by apply ltb_true. }
  destruct (tick_expired _ _ now Hpolled Hexpired) as (Hrun & Htimer & Hexn).
  split; [done|]. split; [done|]. split; [done|].
  intros later. by apply ticks_idle.
Qed.

Lemma teleop_stops_when_input_times_out_witness :
  TeleopPageRun._running
    (TeleopPageRun.tick
       (TeleopTerms.polled
          (TeleopPageRun.mk (H := Scripted.robot)
             (SafetyFilter.__init__ None (1 # 2) (1 # 1000) 500 0)
             (Some (MainWindow.Piper Scripted.failing_piper))
             false false true false "Status: Idle" [])
          10 [(101 # 10); (102 # 10)])
       (106 # 10)).1.2
  = false.
Proof.
  exact (proj1 (teleop_stops_when_input_times_out
                   (TeleopPageRun.mk (H := Scripted.robot)
                      (SafetyFilter.__init__ None (1 # 2) (1 # 1000) 500 0)
                      (Some (MainWindow.Piper Scripted.failing_piper))
                      false false true false "Status: Idle" [])
                   (MainWindow.Piper Scripted.failing_piper)
                   10 [(101 # 10); (102 # 10)] (106 # 10) eq_refl eq_refl eq_refl)).
Defined.

(** X23.  Starting teleoperation re-arms the filter.  [_on_start] with a
    connected robot resets the filter whatever state it is in: an emergency
    stop that is active is lifted and the recorded values are forgotten, so
    the next [filter_action] returns the action with every value clamped to
    its joint limits and nothing else. *)
Theorem start_rearms_filter
    {H B C : Type} `{!Robot H} `{!Truthy H} `{!PiperMotorsBus B} `{!Camera C}
    (p : TeleopPageRun.t H B C) (a : MainWindow.adapter H B C)
    (start now : Q) (action : gmap string Q) :
  TeleopPageRun._robot_adapter p = Some a ->
  MainWindow.is_connected a = true ->
  _enabled (TeleopPageRun._safety p) = true ->
  (filter_action (TeleopPageRun._safety (TeleopPageRun._on_start p start).1.2) now action).1
  = Some (map_imap (fun key value => Some (clamp (TeleopPageRun._safety p) key value))
                   action).
Proof.
  intros Ha Hconn Henabled. unfold TeleopPageRun._on_start. rewrite Ha, Hconn.
  cbn [fst snd TeleopPageRun._safety].
  rewrite filter_action_armed by done. cbn [fst]. do 2 f_equal.
Qed.

Lemma start_rearms_filter_witness :
  (filter_action
     (TeleopPageRun._safety
        (TeleopPageRun._on_start
           (TeleopPageRun.mk (H := Scripted.robot)
              (set_e_stop
                 (SafetyFilter.__init__ (Some PiperRobotAdapterRest.PIPER_JOINT_LIMITS)
                    (1 # 2) (1 # 1000) 500 0)
                 true)
              (Some (MainWindow.Piper Scripted.failing_piper))
              false false true false "Status: Idle" [])
           10).1.2)
     11 {["joint_1.pos" := 5]}).1
  = Some (map_imap
            (fun key value =>
               Some (clamp
                       (set_e_stop
                          (SafetyFilter.__init__ (Some PiperRobotAdapterRest.PIPER_JOINT_LIMITS)
                             (1 # 2) (1 # 1000) 500 0)
                          true)
                       key value))
            {["joint_1.pos" := 5]}).
Proof.
  exact (start_rearms_filter
           (TeleopPageRun.mk (H := Scripted.robot)
              (set_e_stop
                 (SafetyFilter.__init__ (Some PiperRobotAdapterRest.PIPER_JOINT_LIMITS)
                    (1 # 2) (1 # 1000) 500 0)
                 true)
              (Some (MainWindow.Piper Scripted.failing_piper))
              false false true false "Status: Idle" [])
           (MainWindow.Piper Scripted.failing_piper) 10 11 {["joint_1.pos" := 5]}
           eq_refl eq_refl eq_refl).
Defined.

(** ** The keyword arguments of the generic configuration *)

Module BuildConfigFacts.
Import GenericBuildConfig.

Lemma get_elem_of {V : Type} (d : PyDict.t V) key value :
  PyDict.get d key = Some value -> (key, value) ∈ d.
Proof.
  induction d as [|[k v] d IH]; cbn; [done|].
  destruct (String.eqb k key) eqn:Hk.
  - apply String.eqb_eq in Hk as ->. intros [= ->]. apply list_elem_of_here.
  - intros Hget. apply list_elem_of_further. by apply IH.
Qed.

Lemma elem_of_set {V : Type} (d : PyDict.t V) key value item :
  item ∈ PyDict.set d key value -> item = (key, value) \/ item ∈ d.
Proof.
  induction d as [|[k v] d IH]; cbn.
  - intros ->%list_elem_of_singleton. by left.
  - destruct (String.eqb k key) eqn:Hk.
    + apply String.eqb_eq in Hk as ->.
      intros [->|Hin]%elem_of_cons; [by left|right; by apply list_elem_of_further].
    + intros [->|Hin]%elem_of_cons; [right; apply list_elem_of_here|].
      destruct (IH Hin) as [->|Hd]; [by left|right; by apply list_elem_of_further].
Qed.

Lemma split_dot_head (k head rest : string) :
  split_dot k = Some (head, rest) -> split_dot head = None.
Proof.
  revert head. induction k as [|c k IH]; intros head; cbn [split_dot]; [done|].
  destruct (String.eqb (String c EmptyString) ".") eqn:Hc; [by intros [= <- _]|].
  destruct (split_dot k) as [[h r]|]; [|done].
  intros [= <- <-]. cbn [split_dot]. rewrite Hc. by rewrite (IH h eq_refl).
Qed.

Section WithValues.
Context {A Cam : Type}.

(** What the first loop collects comes from the items. *)
Definition collected (items : PyDict.t (param A))
    (nested : PyDict.t (PyDict.t (param A))) (flat : PyDict.t (param A)) : Prop :=
  (forall k v, (k, v) ∈ flat -> split_dot k = None /\ (k, v) ∈ items)
  /\ (forall head d,
        (head, d) ∈ nested ->
        split_dot head = None
        /\ forall rest v,
             (rest, v) ∈ d ->
             exists key, split_dot key = Some (head, rest) /\ (key, v) ∈ items).

Lemma flatten_collected (items0 items : PyDict.t (param A)) nested flat :
  (forall item, item ∈ items -> item ∈ items0) ->
  collected items0 nested flat ->
  collected items0 (flatten items nested flat).1 (flatten items nested flat).2.
Proof.
  revert nested flat. induction items as [|[k v] items IH]; intros nested flat Hsub Hc;
    cbn [flatten]; [done|].
  assert (Hk : (k, v) ∈ items0) by apply Hsub, list_elem_of_here.
  assert (Hsub' : forall item, item ∈ items -> item ∈ items0).
  { intros item Hin. by apply Hsub, list_elem_of_further. }
  destruct Hc as [Hflat Hnested].
  destruct (split_dot k) as [[head rest]|] eqn:Hsplit; apply IH; try done.
  - split; [done|]. intros head' d' Hd'.
    apply elem_of_set in Hd' as [[= -> ->]|Hd']; [|by apply Hnested].
    split; [by apply split_dot_head in Hsplit|]. intros rest' v' Hv'.
    apply elem_of_set in Hv' as [[= -> ->]|Hv']; [by exists k|].
    destruct (PyDict.get nested head) as [d|] eqn:Hget; cbn in Hv';
      [|by apply elem_of_nil in Hv'].
    apply get_elem_of in Hget. by apply (Hnested head d Hget).
  - split; [|done]. intros k' v' Hin.
    apply elem_of_set in Hin as [[= -> ->]|Hin]; [done|by apply Hflat].
Qed.

Lemma filter_flat_elem_of (valid_fields : list string) (flat : PyDict.t (param A))
    k (x : kwarg A Cam) :
  (k, x) ∈ filter_flat valid_fields flat ->
  exists v, x = Plain v /\ is_field valid_fields k = true /\ given v = true
            /\ (k, v) ∈ flat.
Proof.
  unfold filter_flat. rewrite list_elem_of_omap. intros ([k' v] & Hin & Hkeep).
  cbn in Hkeep.
  destruct (is_field valid_fields k') eqn:Hfield; [|done].
  destruct (given v) eqn:Hgiven; [|done].
  injection Hkeep as -> <-. by exists v.
Qed.

Lemma add_nested_elem_of (valid_fields : list string)
    (filtered : PyDict.t (kwarg A Cam)) (nested : PyDict.t (PyDict.t (param A))) k x :
  (k, x) ∈ add_nested valid_fields filtered nested ->
  (k, x) ∈ filtered
  \/ exists d, x = Nested d /\ is_field valid_fields k = true /\ (k, d) ∈ nested.
Proof.
  unfold add_nested. revert filtered.
  induction nested as [|[head d] nested IH]; intros filtered; cbn [fold_left]; [by left|].
  intros Hin. apply IH in Hin as [Hin|(d' & -> & Hfield & Hd')].
  - cbn in Hin. destruct (is_field valid_fields head) eqn:Hfield; [|by left].
    apply elem_of_set in Hin as [[= -> ->]|Hin]; [|by left].
    right. exists d. split; [done|]. split; [done|]. apply list_elem_of_here.
  - right. exists d'. split; [done|]. split; [done|]. by apply list_elem_of_further.
Qed.

End WithValues.

End BuildConfigFacts.

Import BuildConfigFacts.

(** X24.  The configuration is built from declared fields only.  Every
    keyword that [_build_config] passes to the configuration class has no
    dot in its name and is either a plain parameter (a declared field whose
    value is neither [None] nor [""], as the caller gave it), the dict
    collected for a dotted prefix that is a declared field (each entry the
    value the caller gave for [prefix.entry]), or ["cameras"] with the
    non-empty dict of cameras. *)
Theorem build_config_passes_declared_fields
    {A Cam : Type} (valid_fields : list string)
    (params : PyDict.t (GenericBuildConfig.param A)) (cameras : PyDict.t Cam)
    (k : string) (x : GenericBuildConfig.kwarg A Cam) :
  PyDict.get (GenericBuildConfig._build_config valid_fields params cameras) k = Some x ->
  GenericBuildConfig.split_dot k = None
  /\ match x with
     | GenericBuildConfig.Plain v =>
         GenericBuildConfig.is_field valid_fields k = true
         /\ GenericBuildConfig.given v = true
         /\ (k, v) ∈ params
     | GenericBuildConfig.Nested d =>
         GenericBuildConfig.is_field valid_fields k = true
         /\ forall rest v,
              PyDict.get d rest = Some v ->
              exists key,
                GenericBuildConfig.split_dot key = Some (k, rest) /\ (key, v) ∈ params
     | GenericBuildConfig.Cameras c => k = "cameras" /\ c = cameras /\ c <> []
     end.
Proof.
  intros Hget. apply get_elem_of in Hget. revert Hget.
  unfold GenericBuildConfig._build_config.
  pose proof (flatten_collected (PyDict.remove params "cameras")
                (PyDict.remove params "cameras") [] []
                (fun _ Hin => Hin)) as Hc.
  destruct (GenericBuildConfig.flatten (PyDict.remove params "cameras") [] [])
    as [nested flat].
  destruct Hc as [Hflat Hnested].
  { split; [intros ? ? Hin|intros ? ? Hin]; by apply elem_of_nil in Hin. }
  cbn [fst snd] in Hflat, Hnested.
  assert (Hparams : forall key v, (key, v) ∈ PyDict.remove params "cameras" ->
                                  (key, v) ∈ params).
  { intros key v Hin. apply list_elem_of_In in Hin. unfold PyDict.remove in Hin.
    apply List.filter_In in Hin as [Hin _]. by apply list_elem_of_In. }
  assert (Hfiltered :
    (k, x) ∈ GenericBuildConfig.add_nested valid_fields
               (GenericBuildConfig.filter_flat valid_fields flat) nested ->
    GenericBuildConfig.split_dot k = None
    /\ match x with
       | GenericBuildConfig.Plain v =>
           GenericBuildConfig.is_field valid_fields k = true
           /\ GenericBuildConfig.given v = true
           /\ (k, v) ∈ params
       | GenericBuildConfig.Nested d =>
           GenericBuildConfig.is_field valid_fields k = true
           /\ forall rest v,
                PyDict.get d rest = Some v ->
                exists key,
                  GenericBuildConfig.split_dot key = Some (k, rest) /\ (key, v) ∈ params
       | GenericBuildConfig.Cameras c => k = "cameras" /\ c = cameras /\ c <> []
       end).
  { intros [Hin|(d & -> & Hfield & Hd)]%add_nested_elem_of.
    - apply filter_flat_elem_of in Hin as (v & -> & Hfield & Hgiven & Hin).
      destruct (Hflat k v Hin) as [Hdot Hitem]. split; [done|]. split; [done|].
      split; [done|]. by apply Hparams.
    - destruct (Hnested k d Hd) as [Hdot Hentries].
      split; [done|]. split; [done|]. intros rest v Hrest.
      destruct (Hentries rest v (get_elem_of _ _ _ Hrest)) as (key & Hsplit & Hin).
      exists key. split; [done|]. by apply Hparams. }
  destruct cameras as [|camera cameras]; [done|].
  intros [[= -> ->]|Hin]%elem_of_set; [done|by apply Hfiltered].
Qed.

Lemma build_config_passes_declared_fields_witness :
  GenericBuildConfig.split_dot "left_arm" = None
  /\ GenericBuildConfig.is_field ["port"; "id"; "left_arm"] "left_arm" = true
  /\ forall rest v,
       PyDict.get [("port", GenericBuildConfig.ParamObj 1%nat)] rest = Some v ->
       exists key,
         GenericBuildConfig.split_dot key = Some ("left_arm", rest)
         /\ (key, v) ∈ [("port", GenericBuildConfig.ParamStr "/dev/ttyUSB0");
                        ("id", GenericBuildConfig.ParamStr "");
                        ("left_arm.port", GenericBuildConfig.ParamObj 1%nat);
                        ("bogus", GenericBuildConfig.ParamObj 2%nat)].
Proof.
  exact (build_config_passes_declared_fields (Cam := unit)
           ["port"; "id"; "left_arm"]
           [("port", GenericBuildConfig.ParamStr "/dev/ttyUSB0");
            ("id", GenericBuildConfig.ParamStr "");
            ("left_arm.port", GenericBuildConfig.ParamObj 1%nat);
            ("bogus", GenericBuildConfig.ParamObj 2%nat)]
           [] "left_arm"
           (GenericBuildConfig.Nested [("port", GenericBuildConfig.ParamObj 1%nat)])
           eq_refl).
Defined.

Module BuildConfigRoundTrip.
Import GenericBuildConfig RegistryFacts BuildConfigFacts.

(** A name is put together again from its two parts in one way only. *)
Lemma split_dot_inj (k1 k2 head rest : string) :
  split_dot k1 = Some (head, rest) -> split_dot k2 = Some (head, rest) -> k1 = k2.
Proof.
  revert k2 head. induction k1 as [|c1 k1 IH]; intros k2 head; cbn [split_dot]; [done|].
  destruct k2 as [|c2 k2]; cbn [split_dot]; [done|].
  destruct (String.eqb (String c1 EmptyString) ".") eqn:Hc1;
    destruct (String.eqb (String c2 EmptyString) ".") eqn:Hc2.
  - apply String.eqb_eq in Hc1, Hc2. intros [= <- <-] [= <-]. congruence.
  - intros [= <- <-]. by destruct (split_dot k2) as [[h r]|].
  - destruct (split_dot k1) as [[h r]|]; [|done]. by intros [= <- <-].
  - destruct (split_dot k1) as [[h1 r1]|] eqn:H1; [|done].
    destruct (split_dot k2) as [[h2 r2]|] eqn:H2; [|done].
    intros [= <- <-] [= -> Hh ->]. subst h2. f_equal. by apply (IH k2 h1).
Qed.

Lemma get_NoDup {V : Type} (d : PyDict.t V) key value :
  NoDup (PyDict.keys d) -> (key, value) ∈ d -> PyDict.get d key = Some value.
Proof.
  unfold PyDict.keys. induction d as [|[k v] d IH]; cbn; [by intros _ ?%elem_of_nil|].
  intros [Hk Hd]%NoDup_cons [[= -> ->]|Hin]%elem_of_cons.
  - by rewrite String.eqb_refl.
  - destruct (String.eqb k key) eqn:Heq; [|by apply IH].
    apply String.eqb_eq in Heq as ->. destruct Hk.
    apply list_elem_of_fmap. by exists (key, value).
Qed.

Section WithValues.
Context {A Cam : Type}.

Lemma flatten_nested_NoDup (items : PyDict.t (param A)) nested flat :
  NoDup (PyDict.keys nested) ->
  NoDup (PyDict.keys (flatten items nested flat).1).
Proof.
  revert nested flat. induction items as [|[k v] items IH]; intros nested flat Hd;
    cbn [flatten]; [done|].
  destruct (split_dot k) as [[head rest]|]; apply IH; [|done].
  by apply keys_set_NoDup.
Qed.

(** An entry stays while no later item is written to its place. *)
Lemma flatten_keeps (items : PyDict.t (param A)) nested flat head rest v d :
  (forall key v', (key, v') ∈ items -> split_dot key <> Some (head, rest)) ->
  PyDict.get nested head = Some d -> PyDict.get d rest = Some v ->
  exists d', PyDict.get (flatten items nested flat).1 head = Some d'
             /\ PyDict.get d' rest = Some v.
Proof.
  revert nested flat d. induction items as [|[k v0] items IH]; intros nested flat d Hother Hd Hv;
    cbn [flatten]; [by exists d|].
  assert (Hk : split_dot k <> Some (head, rest)) by apply (Hother k v0), list_elem_of_here.
  assert (Hother' : forall key v', (key, v') ∈ items -> split_dot key <> Some (head, rest)).
  { intros key v' Hin. by apply (Hother key v'), list_elem_of_further. }
  destruct (split_dot k) as [[h r]|] eqn:Hsplit; [|by apply (IH _ _ d)].
  destruct (String.eqb h head) eqn:Hh.
  - apply String.eqb_eq in Hh as ->. rewrite Hd. cbn [default].
    apply (IH _ _ (PyDict.set d r v0)); [done|..].
    + by rewrite get_set, String.eqb_refl.
    + rewrite get_set. destruct (String.eqb r rest) eqn:Hr; [|done].
      apply String.eqb_eq in Hr as ->. by destruct Hk.
  - apply (IH _ _ d); [done| |done]. by rewrite get_set, Hh.
Qed.

(** With every key once, a dotted item is found under its two parts. *)
Lemma flatten_stores (items : PyDict.t (param A)) nested flat key v head rest :
  NoDup (PyDict.keys items) -> (key, v) ∈ items -> split_dot key = Some (head, rest) ->
  exists d, PyDict.get (flatten items nested flat).1 head = Some d
            /\ PyDict.get d rest = Some v.
Proof.
  revert nested flat. induction items as [|[k v0] items IH]; intros nested flat Hdup Hin Hsplit;
    [by apply elem_of_nil in Hin|].
  unfold PyDict.keys in Hdup. cbn in Hdup. apply NoDup_cons in Hdup as [Hk Hdup].
  apply elem_of_cons in Hin as [[= <- <-]|Hin]; cbn [flatten].
  - rewrite Hsplit.
    apply (flatten_keeps _ _ _ _ _ _
             (PyDict.set (default [] (PyDict.get nested head)) rest v)).
    + intros key' v' Hin' Hsplit'. destruct Hk.
      rewrite (split_dot_inj key key' head rest Hsplit Hsplit').
      apply list_elem_of_fmap. by exists (key', v').
    + by rewrite get_set, String.eqb_refl.
    + by rewrite get_set, String.eqb_refl.
  - destruct (split_dot k) as [[h r]|]; by apply IH.
Qed.

Lemma add_nested_other (valid_fields : list string)
    (filtered : PyDict.t (kwarg A Cam)) (nested : PyDict.t (PyDict.t (param A))) k :
  k ∉ PyDict.keys nested ->
  PyDict.get (add_nested valid_fields filtered nested) k = PyDict.get filtered k.
Proof.
  unfold add_nested, PyDict.keys. revert filtered.
  induction nested as [|[head d] nested IH]; intros filtered Hk; cbn [fold_left]; [done|].
  cbn in Hk. apply not_elem_of_cons in Hk as [Hne Hk]. rewrite IH by done. cbn.
  destruct (is_field valid_fields head); [|done].
  rewrite get_set. destruct (String.eqb head k) eqn:Heq; [|done].
  by apply String.eqb_eq in Heq.
Qed.

Lemma add_nested_stores (valid_fields : list string)
    (filtered : PyDict.t (kwarg A Cam)) (nested : PyDict.t (PyDict.t (param A))) k d :
  NoDup (PyDict.keys nested) -> PyDict.get nested k = Some d ->
  is_field valid_fields k = true ->
  PyDict.get (add_nested valid_fields filtered nested) k = Some (Nested d).
Proof.
  unfold add_nested, PyDict.keys. revert filtered.
  induction nested as [|[head d0] nested IH]; intros filtered Hdup Hget Hfield;
    cbn [fold_left]; [done|].
  cbn in Hdup, Hget. apply NoDup_cons in Hdup as [Hhead Hdup].
  destruct (String.eqb head k) eqn:Heq.
  - apply String.eqb_eq in Heq as ->. injection Hget as ->.
    pose proof (add_nested_other valid_fields) as Hother.
    unfold add_nested, PyDict.keys in Hother. rewrite Hother by done. cbn.
    by rewrite Hfield, get_set, String.eqb_refl.
  - by apply IH.
Qed.

End WithValues.

End BuildConfigRoundTrip.

Import BuildConfigRoundTrip.

(** X25.  A dotted parameter reaches the configuration.  For a parameter
    dict (every key once), the value given for [prefix.entry] is passed as
    entry [entry] of the dict passed for [prefix], whenever [prefix] is a
    declared field and is not overwritten by the cameras; a plain parameter
    named [prefix] does not stand in its way. *)
Theorem dotted_parameter_reaches_config
    {A Cam : Type} (valid_fields : list string)
    (params : PyDict.t (GenericBuildConfig.param A)) (cameras : PyDict.t Cam)
    (key prefix entry : string) (v : GenericBuildConfig.param A) :
  NoDup (PyDict.keys params) ->
  (key, v) ∈ params ->
  GenericBuildConfig.split_dot key = Some (prefix, entry) ->
  GenericBuildConfig.is_field valid_fields prefix = true ->
  prefix <> "cameras" \/ cameras = [] ->
  exists d,
    PyDict.get (GenericBuildConfig._build_config valid_fields params cameras) prefix
    = Some (GenericBuildConfig.Nested d)
    /\ PyDict.get d entry = Some v.
Proof.
  intros Hdup Hin Hsplit Hfield Hcameras.
  assert (Hkey : String.eqb key "cameras" = false).
  { apply String.eqb_neq. by intros ->. }
  assert (Hdup' : NoDup (PyDict.keys (PyDict.remove params "cameras"))).
  { unfold PyDict.keys, PyDict.remove. clear -Hdup. unfold PyDict.keys in Hdup.
    induction params as [|[k x] params IH]; cbn; [done|].
    cbn in Hdup. apply NoDup_cons in Hdup as [Hk Hdup].
    destruct (negb (String.eqb k "cameras")); cbn; [|by apply IH].
    apply NoDup_cons. split; [|by apply IH].
    intros ([k' x'] & -> & Hin)%list_elem_of_fmap. destruct Hk.
    apply list_elem_of_In, List.filter_In in Hin as [Hin _].
    apply list_elem_of_fmap. exists (k', x'). split; [done|]. by apply list_elem_of_In. }
  assert (Hin' : (key, v) ∈ PyDict.remove params "cameras").
  { unfold PyDict.remove. apply list_elem_of_In, List.filter_In.
    split; [by apply list_elem_of_In|]. cbn. by rewrite Hkey. }
  destruct (flatten_stores (PyDict.remove params "cameras") [] [] key v prefix entry
              Hdup' Hin' Hsplit) as (d & Hd & Hentry).
  pose proof (flatten_nested_NoDup (PyDict.remove params "cameras") [] []
                (NoDup_nil_2 : NoDup (PyDict.keys []))) as Hnested.
  exists d. split; [|done].
  unfold GenericBuildConfig._build_config.
  destruct (GenericBuildConfig.flatten (PyDict.remove params "cameras") [] [])
    as [nested flat]. cbn [fst] in Hd, Hnested.
  pose proof (add_nested_stores (Cam := Cam) valid_fields
                (GenericBuildConfig.filter_flat valid_fields flat) nested prefix d
                Hnested Hd Hfield) as Hstored.
  destruct cameras as [|camera cameras]; [done|].
  destruct Hcameras as [Hne|?]; [|done].
  rewrite get_set. destruct (String.eqb "cameras" prefix) eqn:Heq; [|done].
  apply String.eqb_eq in Heq. by destruct Hne.
Qed.

Lemma dotted_parameter_reaches_config_witness :
  exists d,
    PyDict.get
      (GenericBuildConfig._build_config (Cam := unit) ["port"; "left_arm"]
         [("left_arm", GenericBuildConfig.ParamStr "ignored");
          ("left_arm.port", GenericBuildConfig.ParamObj 1%nat);
          ("left_arm.id", GenericBuildConfig.ParamNone)]
         [])
      "left_arm"
    = Some (GenericBuildConfig.Nested d)
    /\ PyDict.get d "id" = Some GenericBuildConfig.ParamNone.
Proof.
  apply (dotted_parameter_reaches_config (Cam := unit) ["port"; "left_arm"]
           [("left_arm", GenericBuildConfig.ParamStr "ignored");
            ("left_arm.port", GenericBuildConfig.ParamObj 1%nat);
            ("left_arm.id", GenericBuildConfig.ParamNone)]
           [] "left_arm.id" "left_arm" "id" GenericBuildConfig.ParamNone).
  - apply (bool_decide_unpack _). vm_compute. reflexivity.
  - do 2 apply list_elem_of_further. apply list_elem_of_here.
  - reflexivity.
  - reflexivity.
  - right. reflexivity.
Defined.
